(** * terratools: seismic lookup tables

    A shallow embedding of [terratools/lookup_tables.py]: the class
    [SeismicLookupTable] (construction, the point query [get_vals], the
    paired query [interp_points]) and the two composition helpers
    [harmonic_mean_comp] and [linear_interp_1d].

    Numbers.  The Python code computes on binary64 floats.
    - The class is embedded on exact rationals ([Q]); the float comparison
      [==] is [Qeq_bool], [<] is [Qlt_le_dec].  Construction only copies
      and compares stored numbers, which the rationals do as binary64
      does.  Where a general property rests on arithmetic (the distances of
      the bound search, the bilinear blend) it is stated for binary
      fixed-point numbers ([on_grid], [exact_table]), on which binary64
      computes the same numbers without rounding.
    - [get_vals] is embedded a second time on binary64 itself, in the
      module [B64], for what depends on rounding, on the guard of the
      degenerate cell and on non-finite values.
    - The composition helpers are arithmetic only and are embedded on
      binary64 ([float]).

    Effects.  A Python call either returns or raises: [result A].  The only
    function that writes to standard output is [get_vals]; it lives in
    [Py A], which also records the printed lines. *)

From Stdlib Require Import Floats.
From Stdlib Require Import String Ascii.
From Stdlib Require Import QArith Qabs ZArith List Sorted Lia Lqa Bool Arith.
Import ListNotations.
Open Scope Q_scope.
Set Warnings "-inexact-float".

(** ** Exceptions, results and printed lines *)

Inductive exn : Type :=
| IndexError
| KeyError
| ValueError
| TypeError
| AttributeError
| ZeroDivisionError
| FitpackError.

Definition result (A : Type) : Type := (exn + A)%type.

Definition ok {A : Type} (a : A) : result A := inr a.
Definition raise {A : Type} (e : exn) : result A := inl e.

Definition rbind {A B : Type} (c : result A) (k : A -> result B) : result B :=
  match c with
  | inl e => inl e
  | inr a => k a
  end.

Notation "x <- c ;; k" := (rbind c (fun x => k))
  (at level 61, c at next level, right associativity).

(** The four lines [get_vals] can print, each with the offending value that
    the f-string interpolates:
    - [#Error - Pressure {pval} less than minimum value in lookup tables]
    - [#Warning - Pressure {pval} exceeds maximum value in lookup tables]
    - [#Warning - Temperature {tval} less than minimum value in lookup tables]
    - [#Warning - Temperature {tval} exceeds maximum value in lookup tables] *)
Inductive line : Type :=
| PressureLess (pval : Q)
| PressureExceeds (pval : Q)
| TemperatureLess (tval : Q)
| TemperatureExceeds (tval : Q).

Definition Py (A : Type) : Type := (list line * result A)%type.

Definition pret {A : Type} (a : A) : Py A := ([], ok a).
Definition print (l : line) : Py unit := ([l], ok tt).
Definition lift {A : Type} (c : result A) : Py A := ([], c).

Definition pbind {A B : Type} (c : Py A) (k : A -> Py B) : Py B :=
  match c with
  | (out, inl e) => (out, inl e)
  | (out, inr a) => (out ++ fst (k a), snd (k a))
  end.

Notation "x <~ c ;; k" := (pbind c (fun x => k))
  (at level 61, c at next level, right associativity).

(** ** The table

    [np.genfromtxt] yields a rectangular float array with the ten columns
    pressure, temperature, vp, vs, vp_ani, vs_ani, vphi, density, qs, t_sol. *)

Record row : Type := mkRow {
  pressure : Q;      (* column 0 *)
  temperature : Q;   (* column 1 *)
  c_vp : Q;          (* column 2 *)
  c_vs : Q;          (* column 3 *)
  c_vp_ani : Q;      (* column 4 *)
  c_vs_ani : Q;      (* column 5 *)
  c_vphi : Q;        (* column 6 *)
  c_density : Q;     (* column 7 *)
  c_qs : Q;          (* column 8 *)
  c_t_sol : Q        (* column 9 *)
}.

(** [table[:, k]] for a literal [k]. *)
Definition column (k : nat) (r : row) : Q :=
  match k with
  | 0%nat => pressure r
  | 1%nat => temperature r
  | 2%nat => c_vp r
  | 3%nat => c_vs r
  | 4%nat => c_vp_ani r
  | 5%nat => c_vs_ani r
  | 6%nat => c_vphi r
  | 7%nat => c_density r
  | 8%nat => c_qs r
  | _ => c_t_sol r
  end.

(** ** numpy and Python primitives *)

Definition Qltb (x y : Q) : bool := if Qlt_le_dec x y then true else false.

(** [np.min] and [np.max]; both raise [ValueError] on an empty array. *)
Fixpoint min_from (m : Q) (l : list Q) : Q :=
  match l with
  | [] => m
  | x :: l' => min_from (if Qltb x m then x else m) l'
  end.

Fixpoint max_from (m : Q) (l : list Q) : Q :=
  match l with
  | [] => m
  | x :: l' => max_from (if Qltb m x then x else m) l'
  end.

Definition np_min (l : list Q) : result Q :=
  match l with
  | [] => raise ValueError
  | x :: l' => ok (min_from x l')
  end.

Definition np_max (l : list Q) : result Q :=
  match l with
  | [] => raise ValueError
  | x :: l' => ok (max_from x l')
  end.

(** [np.where(mask)[0]]: the ascending indices at which the mask holds. *)
Fixpoint where_from {A : Type} (i : nat) (f : A -> bool) (l : list A) : list nat :=
  match l with
  | [] => []
  | x :: l' => if f x then i :: where_from (S i) f l' else where_from (S i) f l'
  end.

Definition np_where {A : Type} (f : A -> bool) (l : list A) : list nat :=
  where_from 0 f l.

(** [np.intersect1d(a, b)] on index arrays.  numpy returns the sorted unique
    common values; its arguments here are outputs of [np.where], ascending
    and free of duplicates, so filtering the first by membership in the
    second keeps that order (lemma [intersect1d_ascending]). *)
Definition intersect1d (a b : list nat) : list nat :=
  filter (fun i => existsb (Nat.eqb i) b) a.

(** [l[i]] for a Python or numpy integer [i]: negative indices count from the
    end, anything outside [-len, len) raises [IndexError]. *)
Definition py_index {A : Type} (l : list A) (i : Z) : result A :=
  let n := Z.of_nat (length l) in
  let j := (if i <? 0 then i + n else i)%Z in
  if ((0 <=? j) && (j <? n))%Z then
    match nth_error l (Z.to_nat j) with
    | Some a => ok a
    | None => raise IndexError
    end
  else raise IndexError.

(** [l[a:b]]: slices never raise, they clamp. *)
Definition py_slice {A : Type} (l : list A) (a b : nat) : list A :=
  firstn (b - a) (skipn a l).

(** [table[idx, k]] for an index array [idx]. *)
Fixpoint take_rows (tbl : list row) (idx : list nat) : result (list row) :=
  match idx with
  | [] => ok []
  | i :: idx' =>
      r <- py_index tbl (Z.of_nat i) ;;
      rs <- take_rows tbl idx' ;;
      ok (r :: rs)
  end.

(** [np.unique]: sorted, duplicates removed. *)
Fixpoint insert_unique (x : Q) (l : list Q) : list Q :=
  match l with
  | [] => [x]
  | y :: l' =>
      match x ?= y with
      | Lt => x :: l
      | Eq => l
      | Gt => y :: insert_unique x l'
      end
  end.

Definition np_unique (l : list Q) : list Q := fold_right insert_unique [] l.

(** Elementwise arithmetic on 1-d arrays with numpy broadcasting: equal
    lengths, or one operand of length 1; anything else raises [ValueError]. *)
Fixpoint zip_with (op : Q -> Q -> Q) (a b : list Q) : list Q :=
  match a, b with
  | x :: a', y :: b' => op x y :: zip_with op a' b'
  | _, _ => []
  end.

Definition np_binop (op : Q -> Q -> Q) (a b : list Q) : result (list Q) :=
  if Nat.eqb (length a) (length b) then ok (zip_with op a b)
  else match a, b with
       | [x], _ => ok (map (fun y => op x y) b)
       | _, [y] => ok (map (fun x => op x y) a)
       | _, _ => raise ValueError
       end.

Definition np_add : list Q -> list Q -> result (list Q) := np_binop Qplus.
Definition np_sub : list Q -> list Q -> result (list Q) := np_binop Qminus.
Definition np_scale (a : list Q) (c : Q) : list Q := map (fun x => x * c) a.

(** ** terratools.utils

    [get_vals] imports [norm_vals] and [int_linear] from [terratools/utils.py],
    which is not part of the sources at hand. *)

(** Modelled from the spec: [norm_vals] of [terratools/utils.py] is missing.
    Section 4.2, contract [normalize(value, high, low)]: the fraction
    [(value - low) / (high - low)] when [high <> low], and [0] when
    [high == low]. *)
Definition norm_vals (value high low : Q) : Q :=
  if Qeq_bool high low then 0 else (value - low) / (high - low).

(** Modelled from the spec: [int_linear] of [terratools/utils.py] is missing.
    Section 4.2, contract [interpolate(v_ll, v_lh, v_hl, v_hh, t_frac, p_frac)]:
    [a = v_ll + (v_lh - v_ll) * t_frac], [b = v_hl + (v_hh - v_hl) * t_frac],
    [value = a + (b - a) * p_frac].  [get_vals] passes the four corner
    samples as 1-d arrays, so the arithmetic is numpy's. *)
Definition int_linear (v_ll v_lh v_hl v_hh : list Q) (t_frac p_frac : Q)
  : result (list Q) :=
  d1 <- np_sub v_lh v_ll ;;
  a <- np_add v_ll (np_scale d1 t_frac) ;;
  d2 <- np_sub v_hh v_hl ;;
  b <- np_add v_hl (np_scale d2 t_frac) ;;
  d3 <- np_sub b a ;;
  np_add a (np_scale d3 p_frac).

(** ** class SeismicLookupTable *)

(** A 2-d float array, as a list of rows. *)
Definition array2d : Type := list (list Q).

(** An entry of the [fields] dictionary: [[column index, grid, unit label]]. *)
Definition field_entry : Type := (nat * array2d * string)%type.

Record SeismicLookupTable : Type := mkTable {
  table : list row;
  P : list Q;
  T : list Q;
  pres : list Q;
  temp : list Q;
  n_uniq_p : nat;
  n_uniq_t : nat;
  t_max : Q;
  t_min : Q;
  p_max : Q;
  p_min : Q;
  pstep : nat;
  fields : list (string * field_entry)
}.

(** [np.zeros((nrows, ncols))]. *)
Definition np_zeros (nrows ncols : nat) : array2d := repeat (repeat 0 ncols) nrows.

Fixpoint set_nth (i : nat) (x : Q) (l : list Q) : list Q :=
  match l, i with
  | [], _ => []
  | _ :: l', O => x :: l'
  | y :: l', S i' => y :: set_nth i' x l'
  end.

Fixpoint set_column_zip (i : nat) (a : array2d) (v : list Q) : array2d :=
  match a, v with
  | r :: a', x :: v' => set_nth i x r :: set_column_zip i a' v'
  | _, _ => []
  end.

(** [a[:, i] = v]: [v] must have one entry per row of [a], or a single entry
    that is broadcast; any other length raises [ValueError]. *)
Definition set_column (a : array2d) (i : nat) (v : list Q) : result array2d :=
  if Nat.eqb (length v) (length a) then ok (set_column_zip i a v)
  else match v with
       | [x] => ok (map (set_nth i x) a)
       | _ => raise ValueError
       end.

(** The eight assignments of one iteration of the filling loop, in source
    order: column [2 + k] of the [i]-th block of [step] rows goes to column
    [i] of the [k]-th grid. *)
Fixpoint fill_block (tbl : list row) (step i k : nat) (grids : list array2d)
  : result (list array2d) :=
  match grids with
  | [] => ok []
  | g :: grids' =>
      g' <- set_column g i
              (map (column k) (py_slice tbl (0 + i * step) (step + i * step))) ;;
      gs' <- fill_block tbl step i (S k) grids' ;;
      ok (g' :: gs')
  end.

(** [for i, p in enumerate(self.pres): ...] *)
Fixpoint fill_loop (tbl : list row) (step : nat) (range : list nat) (grids : list array2d)
  : result (list array2d) :=
  match range with
  | [] => ok grids
  | i :: range' =>
      grids' <- fill_block tbl step i 2 grids ;;
      fill_loop tbl step range' grids'
  end.

Definition field_names : list string :=
  ["vp"; "vs"; "vp_ani"; "vs_ani"; "vphi"; "density"; "qs"; "t_sol"]%string.

Definition field_units : list string :=
  ["km/s"; "km/s"; "km/s"; "km/s"; "km/s"; "$kg/m^3$"; "Hz"; "K"]%string.

Fixpoint make_fields (k : nat) (names units : list string) (grids : list array2d)
  : list (string * field_entry) :=
  match names, units, grids with
  | n :: names', u :: units', g :: grids' =>
      (n, (k, g, u)) :: make_fields (S k) names' units' grids'
  | _, _, _ => []
  end.

(** What [np.genfromtxt] hands over: a 2-d array for a file of two data
    rows or more, a 1-d array for a single row or none.  On a 1-d array the
    first column access of [__init__], [self.table[:,0]], raises
    [IndexError]. *)
Definition two_dimensional (tbl : list row) : result unit :=
  match tbl with
  | [] | [_] => raise IndexError
  | _ => ok tt
  end.

(** The constructor of scipy's [interp2d(x, y, z)], kind 'linear', for a
    grid [z] of shape [(len(y), len(x))]: it fits through FITPACK's
    [regrid_smth] with degree 1 in both directions, whose wrapper accepts
    an axis only if it has more points than the degree and raises
    [dfitpack.error] ([FitpackError] here) otherwise. *)
Definition interp2d_fit (x y : list Q) (z : array2d) : result unit :=
  if (length x <=? 1)%nat || (length y <=? 1)%nat then raise FitpackError
  else ok tt.

(** The eight [interp2d] objects that close [__init__], built in source
    order over the eight grids. *)
Fixpoint build_interpolators (x y : list Q) (grids : list array2d) : result unit :=
  match grids with
  | [] => ok tt
  | g :: grids' => _ <- interp2d_fit x y g ;; build_interpolators x y grids'
  end.

(** [SeismicLookupTable.__init__], from the array [np.genfromtxt] has read.
    Of the eight scipy [interp2d] objects built at the end only the
    construction is kept, since it can raise: no attribute modelled here
    depends on the objects themselves. *)
Definition __init__ (tbl : list row) : result SeismicLookupTable :=
  _ <- two_dimensional tbl ;;
  let P := map pressure tbl in
  let T := map temperature tbl in
  let pres := np_unique P in
  let temp := np_unique T in
  t_max <- np_max temp ;;
  t_min <- np_min temp ;;
  p_max <- np_max pres ;;
  p_min <- np_min pres ;;
  let pstep := length temp in
  let zeros := repeat (np_zeros (length temp) (length pres)) 8 in
  grids <- fill_loop tbl pstep (seq 0 (length pres)) zeros ;;
  let fields := make_fields 2 field_names field_units grids in
  _ <- build_interpolators pres temp grids ;;
  ok (mkTable tbl P T pres temp (length pres) (length temp)
        t_max t_min p_max p_min pstep fields).

(** *** get_vals *)

(** The bound search of [get_vals], written twice in the source: on column 0
    with stride [self.pstep] for the pressure, on column 1 with stride [1]
    for the temperature.  Returns [(low, high)], that is [(pl, pu)] or
    [(tl, tu)]. *)
Definition find_bounds (col : list Q) (stride : nat) (less exceeds : line) (val : Q)
  : Py (Q * Q) :=
  mn <~ lift (np_min col) ;;
  if Qltb val mn then
    _ <~ print less ;;
    pret (mn, mn)
  else
    mx <~ lift (np_max col) ;;
    if Qltb mx val then
      _ <~ print exceeds ;;
      pret (mx, mx)
    else
      let dist := map (fun x => Qabs (x - val)) col in
      dmin <~ lift (np_min dist) ;;
      let ix := np_where (fun d => Qeq_bool d dmin) dist in
      ix0 <~ lift (py_index ix 0) ;;
      here <~ lift (py_index col (Z.of_nat ix0)) ;;
      if Qltb (here - val) 0 then
        up <~ lift (py_index col (Z.of_nat ix0 + Z.of_nat stride)) ;;
        pret (here, up)
      else
        lo <~ lift (py_index col (Z.of_nat ix0 - Z.of_nat stride)) ;;
        pret (lo, here).

(** [np.intersect1d(np.where(table[:,0]==p), np.where(table[:,1]==t))] *)
Definition node_index (tbl : list row) (p t : Q) : list nat :=
  intersect1d (np_where (fun x => Qeq_bool x p) (map pressure tbl))
              (np_where (fun x => Qeq_bool x t) (map temperature tbl)).

(** The six results of [get_vals]: Vp, Vs, Vp_an, Vs_an, Vphi, Dens. *)
Definition vals : Type := (list Q * list Q * list Q * list Q * list Q * list Q)%type.

Definition get_vals (self : SeismicLookupTable) (pval tval : Q) : Py vals :=
  let tbl := table self in
  plu <~ find_bounds (map pressure tbl) (pstep self)
           (PressureLess pval) (PressureExceeds pval) pval ;;
  let pl := fst plu in
  let pu := snd plu in
  tlu <~ find_bounds (map temperature tbl) 1
           (TemperatureLess tval) (TemperatureExceeds tval) tval ;;
  let tl := fst tlu in
  let tu := snd tlu in
  let ipltl := node_index tbl pl tl in
  let ipltu := node_index tbl pl tu in
  let iputl := node_index tbl pu tl in
  let iputu := node_index tbl pu tu in
  let tnorm := norm_vals tval tu tl in
  let pnorm := norm_vals pval pu pl in
  rltl <~ lift (take_rows tbl ipltl) ;;
  rltu <~ lift (take_rows tbl ipltu) ;;
  rutl <~ lift (take_rows tbl iputl) ;;
  rutu <~ lift (take_rows tbl iputu) ;;
  let interp (f : row -> Q) :=
    lift (int_linear (map f rltl) (map f rltu) (map f rutl) (map f rutu) tnorm pnorm) in
  Vp <~ interp c_vp ;;
  Vs <~ interp c_vs ;;
  Vp_an <~ interp c_vp_ani ;;
  Vs_an <~ interp c_vs_ani ;;
  Vphi <~ interp c_vphi ;;
  Dens <~ interp c_density ;;
  pret (Vp, Vs, Vp_an, Vs_an, Vphi, Dens).

(** *** The fields dictionary *)

(** [str.lower] on the ASCII letters.  Outside ASCII only the Kelvin sign
    lowers to an ASCII letter, [k], which occurs in no key of [fields]; so
    leaving all other bytes alone does not change which lookups succeed. *)
Definition lower_ascii (c : ascii) : ascii :=
  let n := nat_of_ascii c in
  if (65 <=? n)%nat && (n <=? 90)%nat then ascii_of_nat (n + 32) else c.

Fixpoint lower (s : string) : string :=
  match s with
  | EmptyString => EmptyString
  | String c s' => String (lower_ascii c) (lower s')
  end.

(** [d[key]] on a dictionary with string keys. *)
Fixpoint dict_get {V : Type} (d : list (string * V)) (key : string) : result V :=
  match d with
  | [] => raise KeyError
  | (k, v) :: d' => if String.eqb key k then ok v else dict_get d' key
  end.

(** [self.fields[field.lower()]] *)
Definition lookup_field (self : SeismicLookupTable) (field : string) : result field_entry :=
  dict_get (fields self) (lower field).

(** *** interp_points *)

(** What a caller passes for [press] and [temps]: a Python [int] or [float],
    a numpy scalar such as [np.float64], or an indexable sequence. *)
Inductive pyarg : Type :=
| PyNum (x : Q)
| NpNum (x : Q)
| PySeq (xs : list Q).

(** [[x] if type(x)==int or type(x)==float else x]: the test compares the
    exact type, so it wraps Python's own numbers only; the type of a numpy
    scalar is neither [int] nor [float], and it stays as it is. *)
Definition promote (a : pyarg) : pyarg :=
  match a with
  | PyNum x => PySeq [x]
  | _ => a
  end.

(** [len(a)]: a number has no length. *)
Definition py_len (a : pyarg) : result nat :=
  match a with
  | PySeq xs => ok (length xs)
  | _ => raise TypeError
  end.

(** [a[i]]: indexing a numpy scalar raises [IndexError], a Python number is
    not subscriptable. *)
Definition py_getitem (a : pyarg) (i : Z) : result Q :=
  match a with
  | PySeq xs => py_index xs i
  | NpNum _ => raise IndexError
  | PyNum _ => raise TypeError
  end.

Section InterpPoints.

(** The object scipy's [interp2d(x, y, z)] builds, called at one point
    [(px, py)]; whether the construction succeeds is [interp2d_fit]. *)
Variable interp2d : list Q -> list Q -> array2d -> Q -> Q -> Q.

(** [for i in range(len(press)): out[i] = grid(press[i], temps[i])] *)
Fixpoint points_loop (grid : Q -> Q -> Q) (press temps : pyarg)
         (range : list nat) (out : list Q) : result (list Q) :=
  match range with
  | [] => ok out
  | i :: range' =>
      p <- py_getitem press (Z.of_nat i) ;;
      t <- py_getitem temps (Z.of_nat i) ;;
      points_loop grid press temps range' (set_nth i (grid p t) out)
  end.

(** The method receives the object and hands it back next to its outcome:
    the body has no assignment to an attribute of [self]. *)
Definition interp_points (self : SeismicLookupTable) (press temps : pyarg)
           (field : string) : SeismicLookupTable * result (list Q) :=
  (self,
   let press := promote press in
   let temps := promote temps in
   entry <- lookup_field self field ;;
   _ <- interp2d_fit (pres self) (temp self) (snd (fst entry)) ;;
   let grid := interp2d (pres self) (temp self) (snd (fst entry)) in
   n <- py_len press ;;
   let out := repeat 0 n in
   points_loop grid press temps (seq 0 n) out).

End InterpPoints.

(** ** get_vals on binary64

    The point query once more, on [float]: the same statements of
    [get_vals], with the arithmetic and the comparisons of binary64, so that
    the rounding of the distances, of the normalised fractions and of the
    blend is the code's. *)

Module B64.

Record row : Type := mkRow {
  pressure : float;
  temperature : float;
  c_vp : float;
  c_vs : float;
  c_vp_ani : float;
  c_vs_ani : float;
  c_vphi : float;
  c_density : float;
  c_qs : float;
  c_t_sol : float
}.

Inductive line : Type :=
| PressureLess (pval : float)
| PressureExceeds (pval : float)
| TemperatureLess (tval : float)
| TemperatureExceeds (tval : float).

Definition Py (A : Type) : Type := (list line * result A)%type.

Definition pret {A : Type} (a : A) : Py A := ([], ok a).
Definition print (l : line) : Py unit := ([l], ok tt).
Definition lift {A : Type} (c : result A) : Py A := ([], c).

Definition pbind {A B : Type} (c : Py A) (k : A -> Py B) : Py B :=
  match c with
  | (out, inl e) => (out, inl e)
  | (out, inr a) => (out ++ fst (k a), snd (k a))
  end.

#[local] Set Warnings "-notation-overridden".
Notation "x <~ c ;; k" := (pbind c (fun x => k))
  (at level 61, c at next level, right associativity).

(** [np.min] and [np.max] reduce with [np.minimum] and [np.maximum], which
    keep the running value when it is the smaller (the larger) or a nan,
    and so return nan as soon as one entry is nan. *)
Fixpoint min_from (m : float) (l : list float) : float :=
  match l with
  | [] => m
  | x :: l' => min_from (if (m <? x)%float || is_nan m then m else x) l'
  end.

Fixpoint max_from (m : float) (l : list float) : float :=
  match l with
  | [] => m
  | x :: l' => max_from (if (x <? m)%float || is_nan m then m else x) l'
  end.

Definition np_min (l : list float) : result float :=
  match l with
  | [] => raise ValueError
  | x :: l' => ok (min_from x l')
  end.

Definition np_max (l : list float) : result float :=
  match l with
  | [] => raise ValueError
  | x :: l' => ok (max_from x l')
  end.

(** [table[idx, k]] for an index array [idx]. *)
Fixpoint take_rows (tbl : list row) (idx : list nat) : result (list row) :=
  match idx with
  | [] => ok []
  | i :: idx' =>
      r <- py_index tbl (Z.of_nat i) ;;
      rs <- take_rows tbl idx' ;;
      ok (r :: rs)
  end.

Fixpoint zip_with (op : float -> float -> float) (a b : list float) : list float :=
  match a, b with
  | x :: a', y :: b' => op x y :: zip_with op a' b'
  | _, _ => []
  end.

Definition np_binop (op : float -> float -> float) (a b : list float)
  : result (list float) :=
  if Nat.eqb (length a) (length b) then ok (zip_with op a b)
  else match a, b with
       | [x], _ => ok (map (fun y => op x y) b)
       | _, [y] => ok (map (fun x => op x y) a)
       | _, _ => raise ValueError
       end.

Definition np_add : list float -> list float -> result (list float) := np_binop add.
Definition np_sub : list float -> list float -> result (list float) := np_binop sub.
Definition np_scale (a : list float) (c : float) : list float :=
  map (fun x => (x * c)%float) a.

(** Modelled from the spec: [norm_vals] of [terratools/utils.py] is missing.
    Section 4.2, contract [normalize(value, high, low)]: the fraction
    [(value - low) / (high - low)] when [high <> low], and [0] when
    [high == low]. *)
Definition norm_vals (value high low : float) : float :=
  if (high =? low)%float then 0%float else ((value - low) / (high - low))%float.

(** Modelled from the spec: [int_linear] of [terratools/utils.py] is missing.
    Section 4.2, contract [interpolate(v_ll, v_lh, v_hl, v_hh, t_frac, p_frac)]:
    [a = v_ll + (v_lh - v_ll) * t_frac], [b = v_hl + (v_hh - v_hl) * t_frac],
    [value = a + (b - a) * p_frac], on the 1-d arrays [get_vals] passes. *)
Definition int_linear (v_ll v_lh v_hl v_hh : list float) (t_frac p_frac : float)
  : result (list float) :=
  d1 <- np_sub v_lh v_ll ;;
  a <- np_add v_ll (np_scale d1 t_frac) ;;
  d2 <- np_sub v_hh v_hl ;;
  b <- np_add v_hl (np_scale d2 t_frac) ;;
  d3 <- np_sub b a ;;
  np_add a (np_scale d3 p_frac).

(** The bound search of [get_vals]: on column 0 with stride [self.pstep]
    for the pressure, on column 1 with stride [1] for the temperature. *)
Definition find_bounds (col : list float) (stride : nat) (less exceeds : line)
           (val : float) : Py (float * float) :=
  mn <~ lift (np_min col) ;;
  if (val <? mn)%float then
    _ <~ print less ;;
    pret (mn, mn)
  else
    mx <~ lift (np_max col) ;;
    if (mx <? val)%float then
      _ <~ print exceeds ;;
      pret (mx, mx)
    else
      let dist := map (fun x => abs (x - val)) col in
      dmin <~ lift (np_min dist) ;;
      let ix := np_where (fun d => (d =? dmin)%float) dist in
      ix0 <~ lift (py_index ix 0) ;;
      here <~ lift (py_index col (Z.of_nat ix0)) ;;
      if (here - val <? 0)%float then
        up <~ lift (py_index col (Z.of_nat ix0 + Z.of_nat stride)) ;;
        pret (here, up)
      else
        lo <~ lift (py_index col (Z.of_nat ix0 - Z.of_nat stride)) ;;
        pret (lo, here).

(** [np.intersect1d(np.where(table[:,0]==p), np.where(table[:,1]==t))] *)
Definition node_index (tbl : list row) (p t : float) : list nat :=
  intersect1d (np_where (fun x => (x =? p)%float) (map pressure tbl))
              (np_where (fun x => (x =? t)%float) (map temperature tbl)).

(** The six results of [get_vals]: Vp, Vs, Vp_an, Vs_an, Vphi, Dens. *)
Definition vals : Type :=
  (list float * list float * list float * list float * list float * list float)%type.

(** [get_vals] reads two attributes of [self]: the table and [pstep], the
    number of unique temperatures. *)
Definition get_vals (table : list row) (pstep : nat) (pval tval : float) : Py vals :=
  plu <~ find_bounds (map pressure table) pstep
           (PressureLess pval) (PressureExceeds pval) pval ;;
  let pl := fst plu in
  let pu := snd plu in
  tlu <~ find_bounds (map temperature table) 1
           (TemperatureLess tval) (TemperatureExceeds tval) tval ;;
  let tl := fst tlu in
  let tu := snd tlu in
  let ipltl := node_index table pl tl in
  let ipltu := node_index table pl tu in
  let iputl := node_index table pu tl in
  let iputu := node_index table pu tu in
  let tnorm := norm_vals tval tu tl in
  let pnorm := norm_vals pval pu pl in
  rltl <~ lift (take_rows table ipltl) ;;
  rltu <~ lift (take_rows table ipltu) ;;
  rutl <~ lift (take_rows table iputl) ;;
  rutu <~ lift (take_rows table iputu) ;;
  let interp (f : row -> float) :=
    lift (int_linear (map f rltl) (map f rltu) (map f rutl) (map f rutu) tnorm pnorm) in
  Vp <~ interp c_vp ;;
  Vs <~ interp c_vs ;;
  Vp_an <~ interp c_vp_ani ;;
  Vs_an <~ interp c_vs_ani ;;
  Vphi <~ interp c_vphi ;;
  Dens <~ interp c_density ;;
  pret (Vp, Vs, Vp_an, Vs_an, Vphi, Dens).

(** A row sits at the node [(p, t)]. *)
Definition at_node (p t : float) (r : row) : bool :=
  (pressure r =? p)%float && (temperature r =? t)%float.

(** Linear interpolation from [x] to [y] at the position [s], as
    [int_linear] writes it. *)
Definition lerp (x y s : float) : float := (x + (y - x) * s)%float.

(** The six fields of a row, as [get_vals] orders them. *)
Definition columns : list (row -> float) :=
  [c_vp; c_vs; c_vp_ani; c_vs_ani; c_vphi; c_density].

(** The six results, as a list in the same order. *)
Definition results (v : vals) : list (list float) :=
  let '(v1, v2, v3, v4, v5, v6) := v in [v1; v2; v3; v4; v5; v6].

(** [val] lies strictly beyond an end [m] of the column: below its minimum
    or above its maximum; [o] is the line the search prints for it. *)
Definition beyond (col : list float) (val : float) (less exceeds : line)
           (m : float) (o : list line) : Prop :=
  (np_min col = ok m /\ (val <? m)%float = true /\ o = [less]) \/
  (exists mn, np_min col = ok mn /\ (val <? mn)%float = false /\
              np_max col = ok m /\ (m <? val)%float = true /\ o = [exceeds]).

(** A table of two pressures and two temperatures; [pstep] is 2.  The
    node (1, 100) stores vp = 4.2, the other three nodes 12.4 and 12.5. *)
Definition small_table : list row :=
  [ mkRow 1 100 4.2  2 0 0 0 3300 0 0;
    mkRow 1 200 12.4 2 0 0 0 3300 0 0;
    mkRow 2 100 12.4 2 0 0 0 3300 0 0;
    mkRow 2 200 12.5 2 0 0 0 3300 0 0 ]%float.


(** A table of two pressures and three temperatures; [pstep] is 3.  At
    pressure 1 vp is 4.2 throughout, at pressure 2 it is 12.4. *)
Definition flat_table : list row :=
  [ mkRow 1 100 4.2  2 0 0 0 3300 0 0;
    mkRow 1 200 4.2  2 0 0 0 3300 0 0;
    mkRow 1 300 4.2  2 0 0 0 3300 0 0;
    mkRow 2 100 12.4 2 0 0 0 3300 0 0;
    mkRow 2 200 12.4 2 0 0 0 3300 0 0;
    mkRow 2 300 12.4 2 0 0 0 3300 0 0 ]%float.

(** The binary fractions of [dyadic_table] below, as doubles; [pstep] is 3. *)
Definition dyadic_table : list row :=
  [ mkRow 0.5 100 4    2    4.125 2.125 3     3300 100 1500;
    mkRow 0.5 200 4.25 2.25 4.375 2.375 3.125 3310 110 1510;
    mkRow 0.5 300 5    2.5  5.125 2.625 3.25  3320 120 1520;
    mkRow 1   100 4.5  2.75 4.625 2.875 3.375 3330 130 1530;
    mkRow 1   200 4.75 3    4.875 3.125 3.5   3340 140 1540;
    mkRow 1   300 6    3.25 6.125 3.375 3.625 3350 150 1550;
    mkRow 1.5 100 7    3.5  7.125 3.625 3.75  3360 160 1560;
    mkRow 1.5 200 8    3.75 8.125 3.875 3.875 3370 170 1570;
    mkRow 1.5 300 9    4    9.125 4.125 4     3380 180 1580 ]%float.

End B64.

(** ** Composition helpers

    The two helpers are arithmetic only, so they are embedded on binary64
    itself: [float] is the IEEE 754 double of Python and numpy, with its
    rounding, signed zeros, infinities and nan. *)

(** Python's [x / y] on floats: a zero divisor, of either sign, raises; a
    nan divisor does not. *)
Definition py_div (x y : float) : result float :=
  if (y =? 0)%float then raise ZeroDivisionError else ok (x / y)%float.

(** [harmonic_mean_comp] on Python floats. *)
Definition harmonic_mean_comp (bas lhz hzb bas_fr lhz_fr hzb_fr : float) : result float :=
  r1 <- py_div 1 bas ;;
  let m1 := (r1 * bas_fr)%float in
  r2 <- py_div 1 lhz ;;
  let m2 := (r2 * lhz_fr)%float in
  r3 <- py_div 1 hzb ;;
  let m3 := (r3 * hzb_fr)%float in
  py_div 1 (m1 + m2 + m3)%float.

(** A call of [harmonic_mean_comp] with the component values followed by
    their fractions as positional arguments: the function binds exactly six
    parameters, any other count is a [TypeError]. *)
Definition harmonic_mix (values fractions : list float) : result float :=
  match values ++ fractions with
  | [bas; lhz; hzb; bas_fr; lhz_fr; hzb_fr] =>
      harmonic_mean_comp bas lhz hzb bas_fr lhz_fr hzb_fr
  | _ => raise TypeError
  end.

(** What a caller passes for [vals1] and [vals2]: a Python number, a numpy
    scalar, or a numpy array (given by its entries in row-major order, which
    is all [flatten] keeps). *)
Inductive pyval : Type :=
| PyFloat (x : float)
| NpScalar (x : float)
| NdArray (xs : list float).

(** [v.flatten()]: Python numbers have no such attribute. *)
Definition flatten (v : pyval) : result (list float) :=
  match v with
  | PyFloat _ => raise AttributeError
  | NpScalar x => ok [x]
  | NdArray xs => ok xs
  end.

(** Elementwise combination of two float arrays of equal length. *)
Fixpoint map2 (op : float -> float -> float) (a b : list float) : list float :=
  match a, b with
  | x :: a', y :: b' => op x y :: map2 op a' b'
  | _, _ => []
  end.

(** The stable [np.argsort] of the two abscissae exchanges them when the
    second is smaller; numpy orders nan after every number. *)
Definition exchanged (x0 x1 : float) : bool :=
  (x1 <? x0)%float || (is_nan x0 && negb (is_nan x1)).

(** scipy's [interp1d(x, [y0, y1], fill_value='extrapolate', axis=0)(xnew)] for
    two abscissae: the default linear kind sorts the abscissae, takes the
    slope [(y_hi - y_lo) / (x_hi - x_lo)] of the only interval and returns
    [slope * (xnew - x_lo) + y_lo] for every [xnew].  Rows of unequal length
    do not form an array ([ValueError]).  Equal abscissae raise nothing: the
    division by zero is numpy's and yields inf or nan. *)
Definition interp1d_extrapolate (x0 x1 : float) (y0 y1 : list float) (xnew : float)
  : result (list float) :=
  if negb (Nat.eqb (length y0) (length y1)) then raise ValueError
  else
    let '(x_lo, y_lo, x_hi, y_hi) :=
      if exchanged x0 x1 then (x1, y1, x0, y0) else (x0, y0, x1, y1) in
    ok (map2 (fun lo hi => ((hi - lo) / (x_hi - x_lo) * (xnew - x_lo) + lo)%float)
          y_lo y_hi).

(** [linear_interp_1d] for one new composition value [cnew]. *)
Definition linear_interp_1d (vals1 vals2 : pyval) (c1 c2 cnew : float)
  : result (list float) :=
  f1 <- flatten vals1 ;;
  f2 <- flatten vals2 ;;
  interp1d_extrapolate c1 c2 f1 f2 cnew.

(** * Vocabulary of the properties *)

(** ** Nodes, cells and results *)

(** A row sits at the node [(p, t)]. *)
Definition at_node (p t : Q) (r : row) : bool :=
  Qeq_bool (pressure r) p && Qeq_bool (temperature r) t.


(** An index array as [np.where] returns it: ascending from [k]. *)
Fixpoint ascending_from (k : nat) (l : list nat) : Prop :=
  match l with
  | [] => True
  | i :: l' => (k <= i)%nat /\ ascending_from (S i) l'
  end.

(** [int_linear] on four single samples. *)
Definition blend (v_ll v_lh v_hl v_hh t_frac p_frac : Q) : Q :=
  let a := v_ll + (v_lh - v_ll) * t_frac in
  let b := v_hl + (v_hh - v_hl) * t_frac in
  a + (b - a) * p_frac.

(** One result of [get_vals] for the column [f], from the four corner rows. *)
Definition cell_value (f : row -> Q) (r_ll r_lu r_ul r_uu : row)
           (tnorm pnorm : Q) : list Q :=
  [blend (f r_ll) (f r_lu) (f r_ul) (f r_uu) tnorm pnorm].

(** Two arrays agree entry by entry. *)
Definition array_eq (a b : list Q) : Prop := Forall2 Qeq a b.



(** ** Tables

    The grid-completeness invariant of the data model: every pairing of a
    pressure of the table with a temperature of the table is the node of
    exactly one row. *)
Definition complete_grid (tbl : list row) : bool :=
  forallb (fun r1 =>
    forallb (fun r2 =>
      Nat.eqb (length (filter (at_node (pressure r1) (temperature r2)) tbl)) 1)
      tbl) tbl.

Fixpoint same_coords (tbl : list row) (nodes : list (Q * Q)) : bool :=
  match tbl, nodes with
  | [], [] => true
  | r :: tbl', (p, t) :: nodes' =>
      Qeq_bool (pressure r) p && Qeq_bool (temperature r) t && same_coords tbl' nodes'
  | _, _ => false
  end.

(** The data model's sample table with its row order: the rows run through
    the Cartesian product of the pressure axis and the temperature axis,
    grouped by pressure block in axis order and ordered by increasing
    temperature within a block. *)
Definition valid_table (tbl : list row) : bool :=
  match tbl with
  | [] => false
  | _ => same_coords tbl (list_prod (np_unique (map pressure tbl))
                                    (np_unique (map temperature tbl)))
  end.

(** Block [i] of the filling loop, [table[i*m : m + i*m]], has [m] rows, or
    a single row (which numpy broadcasts). *)
Definition block_fits (tbl : list row) (m i : nat) : bool :=
  Nat.eqb (length (py_slice tbl (0 + i * m) (m + i * m))) m ||
  Nat.eqb (length (py_slice tbl (0 + i * m) (m + i * m))) 1.

(** The table is not empty and every block slice taken by the filling loop
    of [__init__] fits. *)
Definition blocks_fit (tbl : list row) : bool :=
  let m := length (np_unique (map temperature tbl)) in
  let n := length (np_unique (map pressure tbl)) in
  match tbl with
  | [] => false
  | _ => forallb (block_fits tbl m) (seq 0 n)
  end.

(** The table has a single pressure or a single temperature. *)
Definition single_axis (tbl : list row) : bool :=
  (length (np_unique (map pressure tbl)) <=? 1)%nat ||
  (length (np_unique (map temperature tbl)) <=? 1)%nat.

(** Every grid of the list has [m] rows. *)
Definition rows_are (m : nat) (grids : list array2d) : Prop :=
  Forall (fun g => length g = m) grids.

(** ** Axes and the bound search *)

(** A strictly increasing axis. *)
Definition increasing (ax : list Q) : Prop :=
  forall i j x y, (i < j)%nat ->
    nth_error ax i = Some x -> nth_error ax j = Some y -> x < y.

(** The entry the bound search picks: the first entry [here = col[i]] of the
    column at minimal distance from [val]. *)
Definition first_nearest (col : list Q) (val : Q) (i : nat) (here : Q) : Prop :=
  nth_error col i = Some here /\
  (forall x, In x col -> Qabs (here - val) <= Qabs (x - val)) /\
  (forall j y, (j < i)%nat -> nth_error col j = Some y ->
               Qabs (here - val) < Qabs (y - val)).



(** A coordinate column laid out along a strictly increasing axis: every
    entry of the column is an entry of the axis, axis entry [k] occurs first
    at index [first k], and consecutive first occurrences lie [stride]
    apart.  For the pressure column [first k = k * pstep] and the stride is
    [pstep]; for the temperature column [first k = k] and the stride is 1. *)
Definition laid_out (col ax : list Q) (stride : nat) (first : nat -> nat) : Prop :=
  increasing ax /\
  (forall i x, nth_error col i = Some x ->
     exists k y, nth_error ax k = Some y /\ x == y /\ (first k <= i)%nat) /\
  (forall k y, nth_error ax k = Some y ->
     exists x, nth_error col (first k) = Some x /\ x == y) /\
  (forall k, (S k < length ax)%nat -> first (S k) = (first k + stride)%nat) /\
  (0 < stride <= length col)%nat.

(** The lines a bound search prints: they depend on the value and the range
    of the column only. *)
Definition printed (less exceeds : line) (mn mx val : Q) : list line :=
  if Qltb val mn then [less] else if Qltb mx val then [exceeds] else [].

(** The lines [get_vals] prints for a query: one per coordinate strictly
    outside the table's range, pressure first. *)
Definition domain_lines (self : SeismicLookupTable) (pval tval : Q) : list line :=
  (if Qltb pval (p_min self) then [PressureLess pval]
   else if Qltb (p_max self) pval then [PressureExceeds pval] else []) ++
  (if Qltb tval (t_min self) then [TemperatureLess tval]
   else if Qltb (t_max self) tval then [TemperatureExceeds tval] else []).

(** ** Interpolation along one axis *)

(** Linear interpolation from [x] to [y] at the normalised position [s]. *)
Definition lerp (x y s : Q) : Q := x + (y - x) * s.

(** ** The composition helpers *)

(** The weighted sum of reciprocals that [harmonic_mean_comp] inverts. *)
Definition reciprocal_sum (bas lhz hzb bas_fr lhz_fr hzb_fr : float) : float :=
  (1 / bas * bas_fr + 1 / lhz * lhz_fr + 1 / hzb * hzb_fr)%float.

(** scipy's line through the anchors [(c1, a)] and [(c2, b)], evaluated at
    [cnew]: slope times distance from the lower abscissa, plus the lower
    value. *)
Definition line_through (c1 c2 cnew a b : float) : float :=
  if exchanged c1 c2 then ((a - b) / (c1 - c2) * (cnew - c2) + b)%float
  else ((b - a) / (c2 - c1) * (cnew - c1) + a)%float.

(** Two float arrays agree entry by entry under the float comparison [==]
    (which identifies the two zeros). *)
Definition close_arrays (a b : list float) : Prop :=
  Forall2 (fun x y => (x =? y)%float = true) a b.

(** ** Numbers that binary64 handles exactly *)




(** ** Worked inputs

    A table over the pressures 1, 2, 3 Pa and the temperatures 100, 200,
    300 K; its vp column holds the four corner values of the scenario of the
    spec. *)
Definition sample_table : list row :=
  [ mkRow 1 100 4         2 (41#10) (21#10) 3 3300 100 1500;
    mkRow 1 200 (42#10)   (22#10) (43#10) (23#10) (31#10) 3310 110 1510;
    mkRow 1 300 5         (24#10) (51#10) (25#10) (32#10) 3320 120 1520;
    mkRow 2 100 (44#10)   (26#10) (45#10) (27#10) (33#10) 3330 130 1530;
    mkRow 2 200 (46#10)   (28#10) (47#10) (29#10) (34#10) 3340 140 1540;
    mkRow 2 300 6         3 (61#10) (31#10) (35#10) 3350 150 1550;
    mkRow 3 100 7         (32#10) (71#10) (33#10) (36#10) 3360 160 1560;
    mkRow 3 200 8         (34#10) (81#10) (35#10) (37#10) 3370 170 1570;
    mkRow 3 300 9         (36#10) (91#10) (37#10) (38#10) 3380 180 1580 ].

Definition sample_grids : list array2d :=
  Eval vm_compute in
    match fill_loop sample_table 3 [0; 1; 2]%nat (repeat (np_zeros 3 3) 8) with
    | inr g => g
    | inl _ => []
    end.

(** The object [__init__] builds from [sample_table] (lemma [sample_init]). *)
Definition sample_self : SeismicLookupTable :=
  mkTable sample_table (map pressure sample_table) (map temperature sample_table)
          [1; 2; 3] [100; 200; 300] 3 3 300 100 3 1 3
          (make_fields 2 field_names field_units sample_grids).

Definition sample_vp_entry : field_entry :=
  Eval vm_compute in
    match lookup_field sample_self "vp" with
    | inr e => e
    | inl _ => (0%nat, [], EmptyString)
    end.

(** A table of seven rows over three temperatures: two full pressure
    blocks and one stray row. *)
Definition long_table : list row :=
  [ mkRow 1 100 4 2 0 0 0 0 0 0;
    mkRow 1 200 5 3 0 0 0 0 0 0;
    mkRow 1 300 6 4 0 0 0 0 0 0;
    mkRow 2 100 7 5 0 0 0 0 0 0;
    mkRow 2 200 8 6 0 0 0 0 0 0;
    mkRow 2 300 9 7 0 0 0 0 0 0;
    mkRow 2 100 1 1 0 0 0 0 0 0 ].

(** A stand-in for scipy's interpolant, to run [interp_points] on. *)
Definition sum_interp2d (x y : list Q) (z : array2d) (px py : Q) : Q := px + py.

Definition one_pressure : pyarg := PyNum 2.
Definition numpy_pressure : pyarg := NpNum 2.
Definition pressure_list : pyarg := PySeq [2].
Definition two_temperatures : pyarg := PySeq [100; 200].


(** A valid table whose entries are all binary fractions: pressures 1/2, 1,
    3/2, temperatures 100, 200, 300. *)
Definition dyadic_table : list row :=
  [ mkRow (1#2) 100 4        2        (33#8) (17#8) 3        3300 100 1500;
    mkRow (1#2) 200 (17#4)   (9#4)    (35#8) (19#8) (25#8)   3310 110 1510;
    mkRow (1#2) 300 5        (5#2)    (41#8) (21#8) (13#4)   3320 120 1520;
    mkRow 1     100 (9#2)    (11#4)   (37#8) (23#8) (27#8)   3330 130 1530;
    mkRow 1     200 (19#4)   3        (39#8) (25#8) (7#2)    3340 140 1540;
    mkRow 1     300 6        (13#4)   (49#8) (27#8) (29#8)   3350 150 1550;
    mkRow (3#2) 100 7        (7#2)    (57#8) (29#8) (15#4)   3360 160 1560;
    mkRow (3#2) 200 8        (15#4)   (65#8) (31#8) (31#8)   3370 170 1570;
    mkRow (3#2) 300 9        4        (73#8) (33#8) 4        3380 180 1580 ].

(** The object [__init__] builds from [dyadic_table]. *)
Definition dyadic_self : SeismicLookupTable :=
  Eval vm_compute in
    match __init__ dyadic_table with
    | inr self => self
    | inl _ => mkTable [] [] [] [] [] 0 0 0 0 0 0 0 []
    end.

(** ** Vocabulary of the further properties *)

(** [g[b][a]] on a 2-d array. *)
Definition get2 (g : array2d) (b a : nat) : option Q :=
  match nth_error g b with
  | Some r => nth_error r a
  | None => None
  end.

(** The array has [m] rows of [n] entries. *)
Definition has_shape (m n : nat) (g : array2d) : Prop :=
  length g = m /\ Forall (fun r => length r = n) g.

(** The [fields] dictionary as the source writes it: key, column index and
    unit label. *)
Definition registry : list (string * nat * string) :=
  [ ("vp", 2%nat, "km/s"); ("vs", 3%nat, "km/s"); ("vp_ani", 4%nat, "km/s");
    ("vs_ani", 5%nat, "km/s"); ("vphi", 6%nat, "km/s");
    ("density", 7%nat, "$kg/m^3$"); ("qs", 8%nat, "Hz"); ("t_sol", 9%nat, "K") ]%string.

(** The capital letters of ASCII, each with its small letter. *)
Definition letter_pairs : list (ascii * ascii) :=
  combine (list_ascii_of_string "ABCDEFGHIJKLMNOPQRSTUVWXYZ")
          (list_ascii_of_string "abcdefghijklmnopqrstuvwxyz").

(** Two characters are the same up to case: they are equal, or one is a
    capital letter and the other its small letter. *)
Definition same_char (c d : ascii) : bool :=
  Ascii.eqb c d ||
  existsb (fun p => (Ascii.eqb (fst p) c && Ascii.eqb (snd p) d) ||
                    (Ascii.eqb (fst p) d && Ascii.eqb (snd p) c)) letter_pairs.

(** Two names are the same up to case, character by character. *)
Fixpoint same_name (s t : string) : bool :=
  match s, t with
  | EmptyString, EmptyString => true
  | String c s', String d t' => same_char c d && same_name s' t'
  | _, _ => false
  end.

(** The 256 characters. *)
Definition all_ascii : list ascii := map ascii_of_nat (seq 0 256).




(** * Properties *)

(** ** Results and printed output *)

Lemma rbind_ok {A B : Type} (a : A) (k : A -> result B) : rbind (ok a) k = k a.
Proof. reflexivity. Qed.

Lemma pbind_lift_ok {A B : Type} (a : A) (k : A -> Py B) :
  pbind (lift (ok a)) k = k a.
Proof.
  unfold pbind, lift, ok; simpl. now destruct (k a).
Qed.

Lemma pbind_ok {A B : Type} (out : list line) (a : A) (k : A -> Py B) :
  pbind (out, ok a) k = (out ++ fst (k a), snd (k a)).
Proof. reflexivity. Qed.

(** ** Order and equality tests *)

Lemma Qltb_true (x y : Q) : Qltb x y = true <-> x < y.
Proof.
  unfold Qltb. destruct (Qlt_le_dec x y); split; intros; try easy; exfalso; lra.
Qed.

Lemma Qltb_false (x y : Q) : Qltb x y = false <-> y <= x.
Proof.
  unfold Qltb. destruct (Qlt_le_dec x y); split; intros; try easy; exfalso; lra.
Qed.


(** ** np.min and np.max *)

Lemma min_from_spec (l : list Q) (m : Q) :
  (In (min_from m l) (m :: l)) /\
  (forall x, In x (m :: l) -> min_from m l <= x).
Proof.
  revert m. induction l as [|y l IH]; intros m; simpl.
  - split; [now left|]. intros x [<-|[]]. lra.
  - destruct (IH (if Qltb y m then y else m)) as [Hin Hle]. split.
    + destruct Hin as [H|H]; [|now right; right].
      rewrite <- H. destruct (Qltb y m); [right; now left | now left].
    + intros x Hx.
      assert (Hm : min_from (if Qltb y m then y else m) l <= (if Qltb y m then y else m))
        by (apply Hle; now left).
      destruct (Qltb y m) eqn:E.
      * apply Qltb_true in E.
        destruct Hx as [<-|[<-|Hx]]; [lra | lra | apply Hle; now right].
      * apply Qltb_false in E.
        destruct Hx as [<-|[<-|Hx]]; [lra | lra | apply Hle; now right].
Qed.

Lemma max_from_spec (l : list Q) (m : Q) :
  (In (max_from m l) (m :: l)) /\
  (forall x, In x (m :: l) -> x <= max_from m l).
Proof.
  revert m. induction l as [|y l IH]; intros m; simpl.
  - split; [now left|]. intros x [<-|[]]. lra.
  - destruct (IH (if Qltb m y then y else m)) as [Hin Hle]. split.
    + destruct Hin as [H|H]; [|now right; right].
      rewrite <- H. destruct (Qltb m y); [right; now left | now left].
    + intros x Hx.
      assert (Hm : (if Qltb m y then y else m) <= max_from (if Qltb m y then y else m) l)
        by (apply Hle; now left).
      destruct (Qltb m y) eqn:E.
      * apply Qltb_true in E.
        destruct Hx as [<-|[<-|Hx]]; [lra | lra | apply Hle; now right].
      * apply Qltb_false in E.
        destruct Hx as [<-|[<-|Hx]]; [lra | lra | apply Hle; now right].
Qed.

Lemma np_min_spec (l : list Q) :
  l <> [] ->
  exists m, np_min l = ok m /\ In m l /\ (forall x, In x l -> m <= x).
Proof.
  destruct l as [|x l]; [easy|]. intros _. exists (min_from x l).
  split; [reflexivity|]. apply min_from_spec.
Qed.

Lemma np_max_spec (l : list Q) :
  l <> [] ->
  exists m, np_max l = ok m /\ In m l /\ (forall x, In x l -> x <= m).
Proof.
  destruct l as [|x l]; [easy|]. intros _. exists (max_from x l).
  split; [reflexivity|]. apply max_from_spec.
Qed.

(** ** Indexing *)

Lemma py_index_nat {A : Type} (l : list A) (i : nat) (a : A) :
  nth_error l i = Some a -> py_index l (Z.of_nat i) = ok a.
Proof.
  intros H. unfold py_index.
  assert (Hi : (i < length l)%nat) by (apply nth_error_Some; congruence).
  destruct (Z.of_nat i <? 0)%Z eqn:E; [lia|].
  replace ((0 <=? Z.of_nat i) && (Z.of_nat i <? Z.of_nat (length l)))%Z with true
    by (symmetry; apply andb_true_intro; split; lia).
  now rewrite Nat2Z.id, H.
Qed.

Lemma py_index_in_range {A : Type} (l : list A) (i : Z) :
  (- Z.of_nat (length l) <= i < Z.of_nat (length l))%Z ->
  exists a, py_index l i = ok a /\ In a l.
Proof.
  intros H. unfold py_index.
  set (j := (if i <? 0 then i + Z.of_nat (length l) else i)%Z).
  assert (Hj : (0 <= j < Z.of_nat (length l))%Z)
    by (subst j; destruct (i <? 0)%Z eqn:E; lia).
  replace ((0 <=? j) && (j <? Z.of_nat (length l)))%Z with true
    by (symmetry; apply andb_true_intro; split; lia).
  destruct (nth_error l (Z.to_nat j)) as [a|] eqn:E.
  - exists a. split; [reflexivity|]. eapply nth_error_In; eauto.
  - apply nth_error_None in E. lia.
Qed.

(** ** np.where and np.intersect1d *)

Lemma where_from_map {A B : Type} (g : A -> B) (f : B -> bool) (l : list A) (k : nat) :
  where_from k f (map g l) = where_from k (fun x => f (g x)) l.
Proof.
  revert k. induction l as [|x l IH]; intros k; simpl; [reflexivity|].
  now rewrite IH.
Qed.

Lemma In_where_from {A : Type} (f : A -> bool) (l : list A) (k i : nat) :
  In i (where_from k f l) <->
  (k <= i)%nat /\ exists x, nth_error l (i - k) = Some x /\ f x = true.
Proof.
  revert k. induction l as [|y l IH]; intros k; simpl.
  - split; [easy|]. intros [_ [x [H _]]]. now destruct (i - k)%nat.
  - assert (Hrec : In i (where_from (S k) f l) <->
                   (k < i)%nat /\ exists x, nth_error l (i - S k) = Some x /\ f x = true)
      by (rewrite IH; reflexivity).
    destruct (Nat.eq_dec i k) as [->|Hne].
    + rewrite Nat.sub_diag. simpl. split.
      * intros H. split; [lia|].
        destruct (f y) eqn:E; [now exists y|].
        apply Hrec in H. lia.
      * intros [_ [x [Hx Hf]]]. injection Hx as <-. rewrite Hf. now left.
    + split.
      * intros H.
        assert (H' : In i (where_from (S k) f l))
          by (destruct (f y); [destruct H as [H|H]; [lia|exact H] | exact H]).
        apply Hrec in H'. destruct H' as [Hk [x [Hx Hf]]]. split; [lia|].
        exists x. split; [|exact Hf].
        replace (i - k)%nat with (S (i - S k)) by lia. exact Hx.
      * intros [Hk [x [Hx Hf]]].
        assert (H' : In i (where_from (S k) f l)).
        { apply Hrec. split; [lia|]. exists x. split; [|exact Hf].
          replace (i - k)%nat with (S (i - S k)) in Hx by lia. exact Hx. }
        destruct (f y); [now right | exact H'].
Qed.

Lemma existsb_where_from {A : Type} (g : A -> bool) (l : list A) (j : nat) (x : A) :
  nth_error l j = Some x ->
  existsb (Nat.eqb j) (where_from 0 g l) = g x.
Proof.
  intros Hx. destruct (g x) eqn:E.
  - apply existsb_exists. exists j. split; [|apply Nat.eqb_refl].
    apply In_where_from. split; [lia|]. exists x. now rewrite Nat.sub_0_r.
  - destruct (existsb (Nat.eqb j) (where_from 0 g l)) eqn:F; [|reflexivity].
    apply existsb_exists in F. destruct F as [i [Hi Hij]].
    apply Nat.eqb_eq in Hij. subst i.
    apply In_where_from in Hi. destruct Hi as [_ [x' [Hx' Hg]]].
    rewrite Nat.sub_0_r in Hx'. congruence.
Qed.

Lemma intersect_where_from {A : Type} (f g : A -> bool) (S : list nat) (l : list A) (k : nat) :
  (forall j x, nth_error l j = Some x -> existsb (Nat.eqb (k + j)) S = g x) ->
  filter (fun i => existsb (Nat.eqb i) S) (where_from k f l) =
  where_from k (fun x => f x && g x) l.
Proof.
  revert k. induction l as [|y l IH]; intros k H; simpl; [reflexivity|].
  assert (H0 : existsb (Nat.eqb k) S = g y)
    by (rewrite <- (H 0%nat y eq_refl); now rewrite Nat.add_0_r).
  assert (Hrec : filter (fun i => existsb (Nat.eqb i) S) (where_from (Datatypes.S k) f l) =
                 where_from (Datatypes.S k) (fun x => f x && g x) l).
  { apply IH. intros j x Hx. rewrite <- (H (Datatypes.S j) x Hx).
    now rewrite Nat.add_succ_r. }
  destruct (f y); simpl; [|exact Hrec].
  rewrite H0. destruct (g y); now rewrite Hrec.
Qed.

Lemma node_index_where (tbl : list row) (p t : Q) :
  node_index tbl p t = np_where (at_node p t) tbl.
Proof.
  unfold node_index, intersect1d, np_where.
  rewrite (where_from_map pressure), (where_from_map temperature).
  apply (intersect_where_from (fun r => Qeq_bool (pressure r) p)
           (fun r => Qeq_bool (temperature r) t)).
  intros j x Hx. simpl.
  exact (existsb_where_from (fun r => Qeq_bool (temperature r) t) tbl j x Hx).
Qed.

Lemma take_rows_where_from (h : row -> bool) (l pre : list row) :
  take_rows (pre ++ l) (where_from (length pre) h l) = ok (filter h l).
Proof.
  revert pre. induction l as [|y l IH]; intros pre; simpl; [reflexivity|].
  assert (Hrec : take_rows (pre ++ y :: l) (where_from (S (length pre)) h l) =
                 ok (filter h l)).
  { specialize (IH (pre ++ [y])). rewrite <- app_assoc in IH. simpl in IH.
    rewrite length_app in IH. simpl in IH. now rewrite Nat.add_1_r in IH. }
  destruct (h y); [|exact Hrec]. simpl.
  rewrite (py_index_nat (pre ++ y :: l) (length pre) y).
  - simpl. now rewrite Hrec.
  - rewrite nth_error_app2 by lia. now rewrite Nat.sub_diag.
Qed.

(** The rows [table[idx, :]] selected for the node [(p, t)]. *)
Lemma select_rows (tbl : list row) (p t : Q) :
  take_rows tbl (node_index tbl p t) = ok (filter (at_node p t) tbl).
Proof.
  rewrite node_index_where. exact (take_rows_where_from (at_node p t) tbl []).
Qed.

(** [np.where] returns ascending indices, and so does the filter in
    [intersect1d]: it already is numpy's sorted unique intersection. *)
Lemma ascending_from_weaken (k k' : nat) (l : list nat) :
  (k' <= k)%nat -> ascending_from k l -> ascending_from k' l.
Proof.
  destruct l as [|i l]; simpl; [easy|]. intros Hk [Hi Hl]. split; [lia|exact Hl].
Qed.

Lemma where_from_ascending {A : Type} (f : A -> bool) (l : list A) (k : nat) :
  ascending_from k (where_from k f l).
Proof.
  revert k. induction l as [|x l IH]; intros k; simpl; [exact I|].
  destruct (f x); simpl.
  - split; [lia|apply IH].
  - apply (ascending_from_weaken (S k)); [lia|apply IH].
Qed.

Lemma intersect1d_ascending (tbl : list row) (p t : Q) :
  ascending_from 0 (node_index tbl p t).
Proof.
  rewrite node_index_where. apply where_from_ascending.
Qed.

(** ** The bilinear blend on single samples *)

Lemma int_linear_single (v_ll v_lh v_hl v_hh t_frac p_frac : Q) :
  int_linear [v_ll] [v_lh] [v_hl] [v_hh] t_frac p_frac =
  ok [blend v_ll v_lh v_hl v_hh t_frac p_frac].
Proof. reflexivity. Qed.



(** ** get_vals, once the bounds and the four corner rows are known *)

Lemma get_vals_cell (self : SeismicLookupTable) (pval tval : Q)
      (o1 o2 : list line) (pl pu tl tu : Q) (r_ll r_lu r_ul r_uu : row) :
  find_bounds (map pressure (table self)) (pstep self)
    (PressureLess pval) (PressureExceeds pval) pval = (o1, ok (pl, pu)) ->
  find_bounds (map temperature (table self)) 1
    (TemperatureLess tval) (TemperatureExceeds tval) tval = (o2, ok (tl, tu)) ->
  filter (at_node pl tl) (table self) = [r_ll] ->
  filter (at_node pl tu) (table self) = [r_lu] ->
  filter (at_node pu tl) (table self) = [r_ul] ->
  filter (at_node pu tu) (table self) = [r_uu] ->
  let tnorm := norm_vals tval tu tl in
  let pnorm := norm_vals pval pu pl in
  get_vals self pval tval =
  (o1 ++ o2,
   ok (cell_value c_vp r_ll r_lu r_ul r_uu tnorm pnorm,
       cell_value c_vs r_ll r_lu r_ul r_uu tnorm pnorm,
       cell_value c_vp_ani r_ll r_lu r_ul r_uu tnorm pnorm,
       cell_value c_vs_ani r_ll r_lu r_ul r_uu tnorm pnorm,
       cell_value c_vphi r_ll r_lu r_ul r_uu tnorm pnorm,
       cell_value c_density r_ll r_lu r_ul r_uu tnorm pnorm)).
Proof.
  intros Hp Ht Hll Hlu Hul Huu tnorm pnorm.
  unfold get_vals. rewrite Hp, pbind_ok. cbn [fst snd].
  rewrite Ht, pbind_ok. cbn [fst snd].
  rewrite !select_rows, Hll, Hlu, Hul, Huu.
  cbn. now rewrite !app_nil_r.
Qed.

(** ** The nearest-entry search *)

Lemma where_from_head {A : Type} (f : A -> bool) (l : list A) (k i : nat) (rest : list nat) :
  where_from k f l = i :: rest ->
  (k <= i)%nat /\
  (exists x, nth_error l (i - k) = Some x /\ f x = true) /\
  (forall j y, (j < i - k)%nat -> nth_error l j = Some y -> f y = false).
Proof.
  revert k. induction l as [|y l IH]; intros k; simpl; [easy|].
  destruct (f y) eqn:E.
  - intros H. injection H as <- _. rewrite Nat.sub_diag. split; [lia|]. split.
    + now exists y.
    + intros j z Hj. lia.
  - intros H. apply IH in H. destruct H as [Hk [[x [Hx Hf]] Hfirst]].
    split; [lia|]. split.
    + exists x. split; [|exact Hf].
      replace (i - k)%nat with (S (i - S k)) by lia. exact Hx.
    + intros j z Hj Hz. destruct j as [|j]; simpl in Hz.
      * now injection Hz as <-.
      * apply (Hfirst j z); [lia|exact Hz].
Qed.

Lemma where_from_nonempty {A : Type} (f : A -> bool) (l : list A) (k : nat) (x : A) :
  In x l -> f x = true -> where_from k f l <> [].
Proof.
  revert k. induction l as [|y l IH]; intros k; simpl; [easy|].
  intros [->|Hin] Hf.
  - now rewrite Hf.
  - destruct (f y); [easy|]. now apply IH.
Qed.

Lemma nearest_index (col : list Q) (val : Q) :
  col <> [] ->
  exists dmin i here,
    np_min (map (fun x => Qabs (x - val)) col) = ok dmin /\
    py_index (np_where (fun d => Qeq_bool d dmin)
                (map (fun x => Qabs (x - val)) col)) 0 = ok i /\
    first_nearest col val i here.
Proof.
  intros Hne.
  set (dist := map (fun x => Qabs (x - val)) col).
  destruct (np_min_spec dist) as [dmin [Hmin [Hin Hle]]].
  { subst dist. destruct col; [easy|discriminate]. }
  assert (Hw : np_where (fun d => Qeq_bool d dmin) dist <> []).
  { apply (where_from_nonempty _ _ _ dmin Hin). apply Qeq_bool_refl. }
  destruct (np_where (fun d => Qeq_bool d dmin) dist) as [|i rest] eqn:Ew; [easy|].
  pose proof Ew as Ehead. unfold np_where in Ew. apply where_from_head in Ew.
  destruct Ew as [_ [[d [Hd Hf]] Hfirst]]. rewrite Nat.sub_0_r in Hd, Hfirst.
  subst dist. rewrite nth_error_map in Hd.
  destruct (nth_error col i) as [here|] eqn:Ei; [|discriminate].
  cbn [option_map] in Hd.
  assert (Hd' : Qabs (here - val) = d) by (now injection Hd).
  subst d. clear Hd. apply Qeq_bool_eq in Hf.
  exists dmin, i, here. split; [exact Hmin|]. split; [now rewrite Ehead|].
  split; [exact Ei|]. split.
  - intros x Hx. rewrite Hf. apply Hle.
    now apply (in_map (fun x => Qabs (x - val))).
  - intros j y Hj Hy.
    assert (Hy' : nth_error (map (fun x => Qabs (x - val)) col) j =
                  Some (Qabs (y - val))) by (rewrite nth_error_map, Hy; reflexivity).
    specialize (Hfirst j _ Hj Hy'). apply Qeq_bool_neq in Hfirst.
    assert (dmin <= Qabs (y - val))
      by (apply Hle; apply (in_map (fun x => Qabs (x - val)));
          eapply nth_error_In; eauto).
    rewrite Hf. lra.
Qed.

(** [find_bounds] on a value inside the range of its column: no line is
    printed and the nearest entry decides the branch. *)
Lemma find_bounds_inside (col : list Q) (stride : nat) (less exceeds : line)
      (val mn mx : Q) :
  np_min col = ok mn -> np_max col = ok mx -> mn <= val <= mx ->
  exists i here,
    first_nearest col val i here /\
    find_bounds col stride less exceeds val =
    (if Qltb (here - val) 0 then
       up <~ lift (py_index col (Z.of_nat i + Z.of_nat stride)) ;; pret (here, up)
     else
       lo <~ lift (py_index col (Z.of_nat i - Z.of_nat stride)) ;; pret (lo, here)).
Proof.
  intros Hmn Hmx [Hlo Hhi].
  assert (Hne : col <> []) by (destruct col; [discriminate|easy]).
  destruct (nearest_index col val Hne) as [dmin [i [here [Hd [Hi Hnear]]]]].
  exists i, here. split; [exact Hnear|].
  unfold find_bounds. rewrite Hmn, pbind_lift_ok.
  replace (Qltb val mn) with false by (symmetry; now apply Qltb_false).
  rewrite Hmx, pbind_lift_ok.
  replace (Qltb mx val) with false by (symmetry; now apply Qltb_false).
  rewrite Hd, pbind_lift_ok, Hi, pbind_lift_ok.
  destruct Hnear as [Hnth _].
  now rewrite (py_index_nat col i here Hnth), pbind_lift_ok.
Qed.




(** ** Construction *)

Lemma init_attributes (tbl : list row) (self : SeismicLookupTable) :
  __init__ tbl = ok self ->
  table self = tbl /\
  pres self = np_unique (map pressure tbl) /\
  temp self = np_unique (map temperature tbl) /\
  pstep self = length (np_unique (map temperature tbl)).
Proof.
  unfold __init__.
  destruct (two_dimensional tbl); [discriminate|]. cbn [rbind].
  destruct (np_max (np_unique (map temperature tbl))); [discriminate|].
  destruct (np_min (np_unique (map temperature tbl))); [discriminate|].
  destruct (np_max (np_unique (map pressure tbl))); [discriminate|].
  destruct (np_min (np_unique (map pressure tbl))); [discriminate|].
  cbn [rbind].
  destruct (fill_loop _ _ _ _); [discriminate|]. cbn [rbind].
  destruct (build_interpolators _ _ _); [discriminate|]. cbn [rbind].
  intros H. injection H as <-. now cbn.
Qed.

(** What [__init__] returns, attribute by attribute. *)
Lemma init_inv (tbl : list row) (self : SeismicLookupTable) :
  __init__ tbl = ok self ->
  exists tmx tmn pmx pmn grids,
    np_max (np_unique (map temperature tbl)) = ok tmx /\
    np_min (np_unique (map temperature tbl)) = ok tmn /\
    np_max (np_unique (map pressure tbl)) = ok pmx /\
    np_min (np_unique (map pressure tbl)) = ok pmn /\
    fill_loop tbl (length (np_unique (map temperature tbl)))
      (seq 0 (length (np_unique (map pressure tbl))))
      (repeat (np_zeros (length (np_unique (map temperature tbl)))
                        (length (np_unique (map pressure tbl)))) 8) = ok grids /\
    self = mkTable tbl (map pressure tbl) (map temperature tbl)
             (np_unique (map pressure tbl)) (np_unique (map temperature tbl))
             (length (np_unique (map pressure tbl)))
             (length (np_unique (map temperature tbl)))
             tmx tmn pmx pmn (length (np_unique (map temperature tbl)))
             (make_fields 2 field_names field_units grids).
Proof.
  unfold __init__.
  destruct (two_dimensional tbl); [discriminate|]. cbn [rbind].
  destruct (np_max (np_unique (map temperature tbl))) as [|tmx]; [discriminate|].
  destruct (np_min (np_unique (map temperature tbl))) as [|tmn]; [discriminate|].
  destruct (np_max (np_unique (map pressure tbl))) as [|pmx]; [discriminate|].
  destruct (np_min (np_unique (map pressure tbl))) as [|pmn]; [discriminate|].
  cbn [rbind].
  destruct (fill_loop _ _ _ _) as [|grids]; [discriminate|]. cbn [rbind].
  destruct (build_interpolators _ _ _); [discriminate|]. cbn [rbind].
  intros H. injection H as <-. exists tmx, tmn, pmx, pmn, grids.
  repeat split; reflexivity.
Qed.

(** ** Corner exactness *)






Lemma array_eq_single (x y : Q) : x == y -> array_eq [x] [y].
Proof. intros H. constructor; [exact H|constructor]. Qed.


(** ** A column laid out along a sorted axis

    Both coordinate columns of a grid table repeat the entries of a strictly
    increasing axis: the pressure column in blocks ([first k = k * pstep],
    stride [pstep]), the temperature column cyclically ([first k = k],
    stride [1]).  The bound search is analysed once for both. *)

Lemma increasing_index (ax : list Q) (i j : nat) (x y : Q) :
  increasing ax -> nth_error ax i = Some x -> nth_error ax j = Some y ->
  x < y -> (i < j)%nat.
Proof.
  intros Hinc Hi Hj Hlt.
  destruct (Nat.lt_trichotomy i j) as [H|[H|H]]; [exact H| |].
  - subst j. rewrite Hi in Hj. injection Hj as <-. lra.
  - pose proof (Hinc j i y x H Hj Hi). lra.
Qed.

Section AxisColumn.

Variables (col ax : list Q) (stride : nat) (first : nat -> nat).
Variables (less exceeds : line).

Hypothesis ax_increasing : increasing ax.
Hypothesis col_on_axis : forall i x, nth_error col i = Some x ->
  exists k y, nth_error ax k = Some y /\ x == y /\ (first k <= i)%nat.
Hypothesis axis_in_col : forall k y, nth_error ax k = Some y ->
  exists x, nth_error col (first k) = Some x /\ x == y.
Hypothesis first_step : forall k, (S k < length ax)%nat ->
  first (S k) = (first k + stride)%nat.
Hypothesis stride_range : (0 < stride <= length col)%nat.

Lemma first_increasing (j k : nat) :
  (j < k)%nat -> (k < length ax)%nat -> (first j < first k)%nat.
Proof.
  induction k as [|k IH]; [lia|]. intros Hj Hk.
  rewrite first_step by exact Hk.
  destruct (Nat.eq_dec j k) as [->|Hne]; [lia|].
  assert (first j < first k)%nat by (apply IH; lia). lia.
Qed.

Lemma In_col_axis (x : Q) :
  In x col -> exists k y, nth_error ax k = Some y /\ x == y.
Proof.
  intros H. apply In_nth_error in H. destruct H as [i Hi].
  destruct (col_on_axis i x Hi) as [k [y [Hk [Hxy _]]]]. now exists k, y.
Qed.

Lemma In_axis_col (y : Q) :
  In y ax -> exists x, In x col /\ x == y.
Proof.
  intros H. apply In_nth_error in H. destruct H as [k Hk].
  destruct (axis_in_col k y Hk) as [x [Hx Hxy]].
  exists x. split; [eapply nth_error_In; eauto | exact Hxy].
Qed.

(** The first nearest entry of the column is the first occurrence of the
    first nearest entry of the axis. *)
Lemma first_nearest_axis (val : Q) (i : nat) (here : Q) :
  first_nearest col val i here ->
  exists k y, i = first k /\ here == y /\ first_nearest ax val k y.
Proof.
  intros [Hnth [Hnear Hfirst]].
  destruct (col_on_axis i here Hnth) as [k [y [Hk [Hxy Hle]]]].
  destruct (axis_in_col k y Hk) as [x [Hx Hxy']].
  assert (Ei : i = first k).
  { destruct (Nat.eq_dec i (first k)) as [E|E]; [exact E|].
    assert (Hlt : (first k < i)%nat) by lia.
    pose proof (Hfirst _ _ Hlt Hx) as H.
    rewrite Hxy, Hxy' in H. lra. }
  exists k, y. split; [exact Ei|]. split; [exact Hxy|].
  split; [exact Hk|]. split.
  - intros z Hz. destruct (In_axis_col z Hz) as [x' [Hx' Hxz]].
    rewrite <- Hxy, <- Hxz. now apply Hnear.
  - intros j z Hj Hz.
    destruct (axis_in_col j z Hz) as [x' [Hx' Hxz]].
    rewrite <- Hxy, <- Hxz. apply (Hfirst (first j)); [|exact Hx'].
    rewrite Ei. apply first_increasing; [exact Hj|].
    apply nth_error_Some. congruence.
Qed.

(** The bound search never fails on such a column, and both bounds are
    entries of the column. *)
Lemma find_bounds_total (val : Q) :
  exists mn mx lo hi,
    np_min col = ok mn /\ np_max col = ok mx /\
    find_bounds col stride less exceeds val =
      (printed less exceeds mn mx val, ok (lo, hi)) /\
    In lo col /\ In hi col /\
    (val < mn -> lo = mn /\ hi = mn) /\
    (mx < val -> lo = mx /\ hi = mx).
Proof.
  assert (Hne : col <> []).
  { intros E. rewrite E in stride_range. simpl in stride_range. lia. }
  destruct (np_min_spec col Hne) as [mn [Hmn [Hmnin Hmin]]].
  destruct (np_max_spec col Hne) as [mx [Hmx [Hmxin Hmax]]].
  exists mn, mx. unfold printed.
  destruct (Qltb val mn) eqn:E1.
  { exists mn, mn. apply Qltb_true in E1.
    repeat split; try assumption; try reflexivity.
    - unfold find_bounds. rewrite Hmn, pbind_lift_ok.
      replace (Qltb val mn) with true by (symmetry; now apply Qltb_true).
      reflexivity.
    - assert (mn <= mx) by now apply Hmin. lra.
    - assert (mn <= mx) by now apply Hmin. lra. }
  destruct (Qltb mx val) eqn:E2.
  { exists mx, mx. apply Qltb_false in E1. apply Qltb_true in E2.
    repeat split; try assumption; try reflexivity; try lra.
    unfold find_bounds. rewrite Hmn, pbind_lift_ok.
    replace (Qltb val mn) with false by (symmetry; now apply Qltb_false).
    rewrite Hmx, pbind_lift_ok.
    replace (Qltb mx val) with true by (symmetry; now apply Qltb_true).
    reflexivity. }
  apply Qltb_false in E1. apply Qltb_false in E2.
  destruct (find_bounds_inside col stride less exceeds val mn mx Hmn Hmx)
    as [i [here [Hnear Hfb]]]; [lra|].
  pose proof Hnear as [Hnth _].
  assert (Hhere : In here col) by (eapply nth_error_In; eauto).
  assert (Hi : (i < length col)%nat) by (apply nth_error_Some; congruence).
  destruct (first_nearest_axis val i here Hnear) as [k [y [Ei [Hxy [Hk _]]]]].
  destruct (Qltb (here - val) 0) eqn:E3.
  - apply Qltb_true in E3.
    destruct (In_col_axis mx Hmxin) as [k' [y' [Hk' Hxy']]].
    assert (Hkk : (k < k')%nat)
      by (apply (increasing_index ax k k' y y'); auto; lra).
    assert (HS : (S k < length ax)%nat)
      by (assert (k' < length ax)%nat by (apply nth_error_Some; congruence); lia).
    destruct (nth_error ax (S k)) as [y2|] eqn:E4;
      [|apply nth_error_None in E4; lia].
    destruct (axis_in_col (S k) y2 E4) as [x2 [Hx2 _]].
    rewrite first_step in Hx2 by exact HS.
    exists here, x2. rewrite Hfb.
    replace (Z.of_nat i + Z.of_nat stride)%Z with (Z.of_nat (first k + stride))
      by (rewrite Ei; lia).
    rewrite (py_index_nat _ _ _ Hx2), pbind_lift_ok.
    repeat split; try assumption; try lra.
    eapply nth_error_In; eauto.
  - destruct (py_index_in_range col (Z.of_nat i - Z.of_nat stride))
      as [lo [Hlo Hloin]]; [lia|].
    exists lo, here. rewrite Hfb, Hlo, pbind_lift_ok.
    repeat split; try assumption; try lra.
Qed.


End AxisColumn.

(** ** np.unique yields a strictly increasing axis *)

Lemma insert_unique_HdRel (y x : Q) (l : list Q) :
  HdRel Qlt y l -> y < x -> HdRel Qlt y (insert_unique x l).
Proof.
  intros H Hyx. destruct l as [|z l]; simpl; [now constructor|].
  destruct (x ?= z); [exact H | now constructor |].
  constructor. now inversion H.
Qed.

Lemma insert_unique_sorted (x : Q) (l : list Q) :
  Sorted Qlt l -> Sorted Qlt (insert_unique x l).
Proof.
  induction 1 as [|y l Hs IH Hd]; simpl; [repeat constructor|].
  destruct (x ?= y) eqn:E.
  - now constructor.
  - constructor; [now constructor|]. constructor. now apply Qlt_alt.
  - constructor; [exact IH|]. apply insert_unique_HdRel; [exact Hd|].
    now apply Qgt_alt.
Qed.

Lemma np_unique_sorted (l : list Q) : Sorted Qlt (np_unique l).
Proof.
  induction l as [|x l IH]; simpl; [constructor|]. now apply insert_unique_sorted.
Qed.

Lemma StronglySorted_increasing (l : list Q) : StronglySorted Qlt l -> increasing l.
Proof.
  induction 1 as [|x l Hs IH Hall]; intros i j a b Hij Hi Hj.
  - now destruct i.
  - destruct j as [|j]; [lia|]. simpl in Hj. destruct i as [|i]; simpl in Hi.
    + injection Hi as <-. rewrite Forall_forall in Hall. apply Hall.
      eapply nth_error_In; eauto.
    + apply (IH i j); [lia|exact Hi|exact Hj].
Qed.

Lemma np_unique_increasing (l : list Q) : increasing (np_unique l).
Proof.
  apply StronglySorted_increasing. apply Sorted_StronglySorted.
  - intros x y z. apply Qlt_trans.
  - apply np_unique_sorted.
Qed.

(** ** Valid tables: the layout of the rows *)

Lemma same_coords_length (tbl : list row) (nodes : list (Q * Q)) :
  same_coords tbl nodes = true -> length tbl = length nodes.
Proof.
  revert nodes. induction tbl as [|r tbl IH]; intros [|[p t] nodes]; simpl; try easy.
  intros H. apply andb_prop in H. destruct H as [_ H]. now rewrite (IH nodes H).
Qed.

Lemma same_coords_nth (tbl : list row) (nodes : list (Q * Q)) (i : nat) (r : row) :
  same_coords tbl nodes = true -> nth_error tbl i = Some r ->
  exists p t, nth_error nodes i = Some (p, t) /\
              pressure r == p /\ temperature r == t.
Proof.
  revert nodes i. induction tbl as [|r0 tbl IH]; intros [|[p t] nodes] i; simpl; try easy.
  - now destruct i.
  - intros H Hi. apply andb_prop in H. destruct H as [H Hrest].
    apply andb_prop in H. destruct H as [Hp Ht].
    destruct i as [|i]; simpl in Hi.
    + injection Hi as <-. exists p, t. simpl.
      split; [reflexivity|]. split; now apply Qeq_bool_eq.
    + simpl. now apply IH.
Qed.

Lemma nth_error_list_prod (ps ts : list Q) (i : nat) :
  (i < length ps * length ts)%nat ->
  exists p t,
    nth_error ps (i / length ts) = Some p /\
    nth_error ts (i mod length ts) = Some t /\
    nth_error (list_prod ps ts) i = Some (p, t).
Proof.
  revert i. induction ps as [|p ps IH]; intros i Hi; simpl in Hi; [lia|].
  assert (Hm : (0 < length ts)%nat) by (destruct ts; simpl in *; lia).
  simpl list_prod.
  destruct (Nat.lt_ge_cases i (length ts)) as [Hlt|Hge].
  - rewrite Nat.div_small, Nat.mod_small by exact Hlt.
    destruct (nth_error ts i) as [t|] eqn:E; [|apply nth_error_None in E; lia].
    exists p, t. split; [reflexivity|]. split; [reflexivity|].
    rewrite nth_error_app1 by (now rewrite length_map).
    now rewrite nth_error_map, E.
  - destruct (IH (i - length ts)%nat) as [p' [t [Hp [Ht Hn]]]]; [lia|].
    assert (Ei : i = (i - length ts + 1 * length ts)%nat) by lia.
    exists p', t.
    rewrite Ei, Nat.div_add, Nat.Div0.mod_add by lia.
    rewrite Nat.add_1_r. split; [exact Hp|]. split; [exact Ht|].
    rewrite nth_error_app2 by (rewrite length_map; lia).
    rewrite length_map.
    replace (i - length ts + 1 * length ts - length ts)%nat with (i - length ts)%nat by lia.
    exact Hn.
Qed.

Lemma filter_none {A : Type} (f : A -> bool) (l : list A) :
  (forall x, In x l -> f x = false) -> filter f l = [].
Proof.
  induction l as [|x l IH]; intros H; simpl; [reflexivity|].
  rewrite (H x) by now left. apply IH. intros y Hy. apply H. now right.
Qed.

Lemma filter_singleton {A : Type} (f : A -> bool) (l : list A) (i : nat) (r : A) :
  nth_error l i = Some r -> f r = true ->
  (forall j r', nth_error l j = Some r' -> f r' = true -> j = i) ->
  filter f l = [r].
Proof.
  revert i. induction l as [|x l IH]; intros i Hi Hf Huniq; [now destruct i|].
  simpl. destruct i as [|i]; simpl in Hi.
  - injection Hi as ->. rewrite Hf. f_equal. apply filter_none.
    intros y Hy. destruct (f y) eqn:E; [|reflexivity].
    apply In_nth_error in Hy. destruct Hy as [j Hj].
    specialize (Huniq (S j) y Hj E). discriminate.
  - destruct (f x) eqn:E.
    + specialize (Huniq 0%nat x eq_refl E). discriminate.
    + apply (IH i Hi Hf). intros j r' Hj Hr'.
      specialize (Huniq (S j) r' Hj Hr'). now injection Huniq.
Qed.

Section Grid.

Variable tbl : list row.
Hypothesis tbl_valid : valid_table tbl = true.

Local Notation "'ps'" := (np_unique (map pressure tbl)) (only parsing).
Local Notation "'ts'" := (np_unique (map temperature tbl)) (only parsing).

Lemma grid_coords : same_coords tbl (list_prod ps ts) = true.
Proof.
  unfold valid_table in tbl_valid. destruct tbl; [discriminate|exact tbl_valid].
Qed.

Lemma grid_length : length tbl = (length ps * length ts)%nat.
Proof.
  rewrite (same_coords_length _ _ grid_coords). apply length_prod.
Qed.

Lemma grid_nonempty : (0 < length ps)%nat /\ (0 < length ts)%nat.
Proof.
  pose proof grid_length as H.
  assert (0 < length tbl)%nat.
  { unfold valid_table in tbl_valid. destruct tbl; [discriminate|simpl; lia]. }
  split; destruct (length ps), (length ts); lia.
Qed.

(** Row [i] sits at pressure [i / m] and temperature [i mod m] of the axes. *)
Lemma grid_row (i : nat) (r : row) :
  nth_error tbl i = Some r ->
  exists p t,
    nth_error ps (i / length ts) = Some p /\
    nth_error ts (i mod length ts) = Some t /\
    pressure r == p /\ temperature r == t.
Proof.
  intros Hi.
  destruct (same_coords_nth _ _ _ _ grid_coords Hi) as [p [t [Hn [Hp Ht]]]].
  destruct (nth_error_list_prod ps ts i) as [p' [t' [Hp' [Ht' Hn']]]].
  { rewrite <- grid_length. apply nth_error_Some. congruence. }
  rewrite Hn in Hn'. injection Hn' as <- <-. now exists p, t.
Qed.

(** Node [(a, b)] of the axes is row [a * m + b]. *)
Lemma grid_node (a b : nat) (p t : Q) :
  nth_error ps a = Some p -> nth_error ts b = Some t ->
  exists r, nth_error tbl (a * length ts + b) = Some r /\
            pressure r == p /\ temperature r == t.
Proof.
  intros Ha Hb.
  assert (Han : (a < length ps)%nat) by (apply nth_error_Some; congruence).
  assert (Hbm : (b < length ts)%nat) by (apply nth_error_Some; congruence).
  assert (Hi : (a * length ts + b < length tbl)%nat) by (rewrite grid_length; nia).
  destruct (nth_error tbl (a * length ts + b)) as [r|] eqn:E;
    [|apply nth_error_None in E; lia].
  destruct (grid_row _ _ E) as [p' [t' [Hp' [Ht' [Hrp Hrt]]]]].
  rewrite Nat.div_add_l, Nat.div_small, Nat.add_0_r in Hp' by lia.
  rewrite Nat.add_comm, Nat.Div0.mod_add, Nat.mod_small in Ht' by lia.
  exists r. split; [reflexivity|]. split; congruence.
Qed.

Lemma increasing_inj (ax : list Q) (i j : nat) (x y : Q) :
  increasing ax -> nth_error ax i = Some x -> nth_error ax j = Some y ->
  x == y -> i = j.
Proof.
  intros Hinc Hi Hj Hxy.
  destruct (Nat.lt_trichotomy i j) as [H|[H|H]]; [|exact H|].
  - pose proof (Hinc i j x y H Hi Hj). lra.
  - pose proof (Hinc j i y x H Hj Hi). lra.
Qed.

(** Each pairing of a pressure and a temperature of the table is the node
    of exactly one row. *)
Lemma grid_unique_node (p t : Q) :
  In p (map pressure tbl) -> In t (map temperature tbl) ->
  exists r, filter (at_node p t) tbl = [r].
Proof.
  intros Hp Ht.
  apply in_map_iff in Hp. destruct Hp as [r1 [<- H1]].
  apply in_map_iff in Ht. destruct Ht as [r2 [<- H2]].
  apply In_nth_error in H1. destruct H1 as [i1 H1].
  apply In_nth_error in H2. destruct H2 as [i2 H2].
  destruct (grid_row _ _ H1) as [p [_ [Hp [_ [Hrp _]]]]].
  destruct (grid_row _ _ H2) as [_ [t [_ [Ht [_ Hrt]]]]].
  destruct (grid_node _ _ _ _ Hp Ht) as [r [Hr [Hrp' Hrt']]].
  exists r. apply (filter_singleton _ _ _ _ Hr).
  - unfold at_node. apply andb_true_intro.
    split; apply Qeq_bool_iff; lra.
  - intros j r' Hj Hnode. unfold at_node in Hnode.
    apply andb_prop in Hnode. destruct Hnode as [Hjp Hjt].
    apply Qeq_bool_eq in Hjp. apply Qeq_bool_eq in Hjt.
    destruct (grid_row _ _ Hj) as [p' [t' [Hp' [Ht' [Hrp'' Hrt'']]]]].
    assert (Ea : (j / length ts = i1 / length ts)%nat).
    { apply (increasing_inj ps _ _ p' p (np_unique_increasing _) Hp' Hp). lra. }
    assert (Eb : (j mod length ts = i2 mod length ts)%nat).
    { apply (increasing_inj ts _ _ t' t (np_unique_increasing _) Ht' Ht). lra. }
    rewrite (Nat.div_mod_eq j (length ts)), Ea, Eb. lia.
Qed.

Lemma valid_complete_grid : complete_grid tbl = true.
Proof.
  unfold complete_grid. apply forallb_forall. intros r1 H1.
  apply forallb_forall. intros r2 H2.
  destruct (grid_unique_node (pressure r1) (temperature r2)) as [r Hr];
    [now apply in_map | now apply in_map |].
  now rewrite Hr.
Qed.

End Grid.

Section GridColumns.

Variable tbl : list row.
Hypothesis tbl_valid : valid_table tbl = true.

Local Notation "'ps'" := (np_unique (map pressure tbl)) (only parsing).
Local Notation "'ts'" := (np_unique (map temperature tbl)) (only parsing).

Lemma pressure_col_on_axis (i : nat) (x : Q) :
  nth_error (map pressure tbl) i = Some x ->
  exists k y, nth_error ps k = Some y /\ x == y /\ (k * length ts <= i)%nat.
Proof.
  rewrite nth_error_map. destruct (nth_error tbl i) as [r|] eqn:E; [|discriminate].
  intros H. assert (Hx : pressure r = x) by (now injection H). subst x.
  destruct (grid_row tbl tbl_valid i r E) as [p [t [Hp [_ [Hrp _]]]]].
  exists (i / length ts)%nat, p. split; [exact Hp|]. split; [exact Hrp|].
  rewrite Nat.mul_comm. apply Nat.Div0.mul_div_le.
Qed.

Lemma pressure_axis_in_col (k : nat) (y : Q) :
  nth_error ps k = Some y ->
  exists x, nth_error (map pressure tbl) (k * length ts) = Some x /\ x == y.
Proof.
  intros Hk. destruct (grid_nonempty tbl tbl_valid) as [_ Hm].
  destruct (nth_error ts 0) as [t|] eqn:E; [|apply nth_error_None in E; lia].
  destruct (grid_node tbl tbl_valid k 0 y t Hk E) as [r [Hr [Hrp _]]].
  rewrite Nat.add_0_r in Hr. exists (pressure r).
  split; [|exact Hrp]. rewrite nth_error_map. now rewrite Hr.
Qed.

Lemma temperature_col_on_axis (i : nat) (x : Q) :
  nth_error (map temperature tbl) i = Some x ->
  exists k y, nth_error ts k = Some y /\ x == y /\ (k <= i)%nat.
Proof.
  rewrite nth_error_map. destruct (nth_error tbl i) as [r|] eqn:E; [|discriminate].
  intros H. assert (Hx : temperature r = x) by (now injection H). subst x.
  destruct (grid_row tbl tbl_valid i r E) as [p [t [_ [Ht [_ Hrt]]]]].
  exists (i mod length ts)%nat, t. split; [exact Ht|]. split; [exact Hrt|].
  apply Nat.Div0.mod_le.
Qed.

Lemma temperature_axis_in_col (k : nat) (y : Q) :
  nth_error ts k = Some y ->
  exists x, nth_error (map temperature tbl) k = Some x /\ x == y.
Proof.
  intros Hk. destruct (grid_nonempty tbl tbl_valid) as [Hn _].
  destruct (nth_error ps 0) as [p|] eqn:E; [|apply nth_error_None in E; lia].
  destruct (grid_node tbl tbl_valid 0 k p y E Hk) as [r [Hr [_ Hrt]]].
  simpl in Hr. exists (temperature r).
  split; [|exact Hrt]. rewrite nth_error_map. now rewrite Hr.
Qed.

Lemma pressure_stride_range :
  (0 < length ts <= length (map pressure tbl))%nat.
Proof.
  rewrite length_map, (grid_length tbl tbl_valid).
  destruct (grid_nonempty tbl tbl_valid) as [Hn Hm]. nia.
Qed.

Lemma temperature_stride_range :
  (0 < 1 <= length (map temperature tbl))%nat.
Proof.
  rewrite length_map, (grid_length tbl tbl_valid).
  destruct (grid_nonempty tbl tbl_valid) as [Hn Hm]. nia.
Qed.

End GridColumns.

(** ** The bound search on the two axes *)


(** ** np.unique keeps exactly the values of its argument *)

Lemma insert_unique_In (x z : Q) (l : list Q) :
  In z (insert_unique x l) -> z = x \/ In z l.
Proof.
  induction l as [|y l IH]; simpl.
  - intros [H|[]]. now left.
  - destruct (x ?= y); simpl.
    + intros H. now right.
    + intros [H|H]; [now left | now right].
    + intros [H|H]; [right; now left|].
      destruct (IH H) as [E|E]; [now left | right; now right].
Qed.

Lemma insert_unique_keeps (x z : Q) (l : list Q) :
  In z l -> In z (insert_unique x l).
Proof.
  induction l as [|y l IH]; simpl; [easy|].
  destruct (x ?= y); simpl; intros [H|H]; auto.
Qed.

Lemma insert_unique_has (x : Q) (l : list Q) :
  exists y, In y (insert_unique x l) /\ y == x.
Proof.
  induction l as [|y l IH]; simpl.
  - exists x. split; [now left | reflexivity].
  - destruct (x ?= y) eqn:E.
    + exists y. split; [now left|]. symmetry. now apply Qeq_alt.
    + exists x. split; [now left | reflexivity].
    + destruct IH as [z [Hz Hzx]]. exists z. split; [now right | exact Hzx].
Qed.

Lemma np_unique_In (l : list Q) (x : Q) : In x (np_unique l) -> In x l.
Proof.
  induction l as [|y l IH]; simpl; [easy|].
  intros H. apply insert_unique_In in H. destruct H as [->|H]; [now left|].
  right. now apply IH.
Qed.

Lemma np_unique_covers (l : list Q) (x : Q) :
  In x l -> exists y, In y (np_unique l) /\ y == x.
Proof.
  induction l as [|z l IH]; simpl; [easy|].
  intros [->|H].
  - apply insert_unique_has.
  - destruct (IH H) as [y [Hy Hyx]]. exists y.
    split; [now apply insert_unique_keeps | exact Hyx].
Qed.

Lemma np_min_unique (l : list Q) (a b : Q) :
  np_min (np_unique l) = ok a -> np_min l = ok b -> a == b.
Proof.
  intros Ha Hb.
  assert (Hl : l <> []) by (destruct l; [discriminate|easy]).
  assert (Hu : np_unique l <> []) by (destruct (np_unique l); [discriminate|easy]).
  destruct (np_min_spec l Hl) as [b' [Eb [Hbin Hble]]].
  destruct (np_min_spec _ Hu) as [a' [Ea [Hain Hale]]].
  assert (a' = a) by (unfold ok in *; congruence).
  assert (b' = b) by (unfold ok in *; congruence). subst a' b'.
  pose proof (Hble a (np_unique_In l a Hain)).
  destruct (np_unique_covers l b Hbin) as [y [Hy Hyb]].
  pose proof (Hale y Hy). lra.
Qed.

Lemma np_max_unique (l : list Q) (a b : Q) :
  np_max (np_unique l) = ok a -> np_max l = ok b -> a == b.
Proof.
  intros Ha Hb.
  assert (Hl : l <> []) by (destruct l; [discriminate|easy]).
  assert (Hu : np_unique l <> []) by (destruct (np_unique l); [discriminate|easy]).
  destruct (np_max_spec l Hl) as [b' [Eb [Hbin Hble]]].
  destruct (np_max_spec _ Hu) as [a' [Ea [Hain Hale]]].
  assert (a' = a) by (unfold ok in *; congruence).
  assert (b' = b) by (unfold ok in *; congruence). subst a' b'.
  pose proof (Hble a (np_unique_In l a Hain)).
  destruct (np_unique_covers l b Hbin) as [y [Hy Hyb]].
  pose proof (Hale y Hy). lra.
Qed.

Lemma init_range (tbl : list row) (self : SeismicLookupTable) :
  __init__ tbl = ok self ->
  np_min (np_unique (map pressure tbl)) = ok (p_min self) /\
  np_max (np_unique (map pressure tbl)) = ok (p_max self) /\
  np_min (np_unique (map temperature tbl)) = ok (t_min self) /\
  np_max (np_unique (map temperature tbl)) = ok (t_max self).
Proof.
  unfold __init__.
  destruct (two_dimensional tbl); [discriminate|]. cbn [rbind].
  destruct (np_max (np_unique (map temperature tbl))); [discriminate|].
  destruct (np_min (np_unique (map temperature tbl))); [discriminate|].
  destruct (np_max (np_unique (map pressure tbl))); [discriminate|].
  destruct (np_min (np_unique (map pressure tbl))); [discriminate|].
  cbn [rbind].
  destruct (fill_loop _ _ _ _); [discriminate|]. cbn [rbind].
  destruct (build_interpolators _ _ _); [discriminate|]. cbn [rbind].
  intros H. injection H as <-. now cbn.
Qed.

(** ** Clamping to the domain *)




Lemma pressure_laid_out (tbl : list row) :
  valid_table tbl = true ->
  laid_out (map pressure tbl) (np_unique (map pressure tbl))
    (length (np_unique (map temperature tbl)))
    (fun k => (k * length (np_unique (map temperature tbl)))%nat).
Proof.
  intros Hvalid. split; [apply np_unique_increasing|].
  split; [exact (pressure_col_on_axis tbl Hvalid)|].
  split; [exact (pressure_axis_in_col tbl Hvalid)|].
  split; [intros k _; simpl; lia | exact (pressure_stride_range tbl Hvalid)].
Qed.

Lemma temperature_laid_out (tbl : list row) :
  valid_table tbl = true ->
  laid_out (map temperature tbl) (np_unique (map temperature tbl)) 1 (fun k => k).
Proof.
  intros Hvalid. split; [apply np_unique_increasing|].
  split; [exact (temperature_col_on_axis tbl Hvalid)|].
  split; [exact (temperature_axis_in_col tbl Hvalid)|].
  split; [intros k _; lia | exact (temperature_stride_range tbl Hvalid)].
Qed.

Lemma Qltb_wd (x y x' y' : Q) : x == x' -> y == y' -> Qltb x y = Qltb x' y'.
Proof.
  intros Hx Hy. destruct (Qltb x' y') eqn:E.
  - apply Qltb_true in E. apply Qltb_true. lra.
  - apply Qltb_false in E. apply Qltb_false. lra.
Qed.



Lemma printed_wd (less exceeds : line) (mn mx a b val : Q) :
  a == mn -> b == mx ->
  printed less exceeds mn mx val =
  (if Qltb val a then [less] else if Qltb b val then [exceeds] else []).
Proof.
  intros Ha Hb. unfold printed.
  now rewrite (Qltb_wd val a val mn), (Qltb_wd b val mx val)
    by (assumption || reflexivity).
Qed.

(** The range of a column and the range attributes that [__init__] computes
    from the axis agree. *)
Lemma column_range (col : list Q) (a b : Q) :
  np_min (np_unique col) = ok a -> np_max (np_unique col) = ok b ->
  exists mn mx, np_min col = ok mn /\ np_max col = ok mx /\
                a == mn /\ b == mx /\ mn <= mx.
Proof.
  intros Ha Hb.
  assert (Hne : col <> []) by (destruct col; [discriminate|easy]).
  destruct (np_min_spec col Hne) as [mn [Hmn [Hmnin Hmin]]].
  destruct (np_max_spec col Hne) as [mx [Hmx [Hmxin Hmax]]].
  exists mn, mx. split; [exact Hmn|]. split; [exact Hmx|].
  split; [exact (np_min_unique col a mn Ha Hmn)|].
  split; [exact (np_max_unique col b mx Hb Hmx)|]. now apply Hmin.
Qed.

(** On a valid table every query returns, and it prints one line for each
    coordinate strictly outside the table's range. *)
Lemma get_vals_returns (tbl : list row) (self : SeismicLookupTable) (pval tval : Q) :
  valid_table tbl = true ->
  __init__ tbl = ok self ->
  exists v, get_vals self pval tval = (domain_lines self pval tval, ok v).
Proof.
  intros Hvalid Hinit.
  destruct (init_attributes tbl self Hinit) as [Htbl [_ [_ Hstep]]].
  destruct (init_range tbl self Hinit) as [Hpmin [Hpmax [Htmin Htmax]]].
  destruct (column_range _ _ _ Hpmin Hpmax) as [pmn [pmx [Hp1 [Hp2 [Hp3 [Hp4 _]]]]]].
  destruct (column_range _ _ _ Htmin Htmax) as [tmn [tmx [Ht1 [Ht2 [Ht3 [Ht4 _]]]]]].
  destruct (pressure_laid_out tbl Hvalid) as [P1 [P2 [P3 [P4 P5]]]].
  destruct (find_bounds_total _ _ _ _ (PressureLess pval) (PressureExceeds pval)
              P1 P2 P3 P4 P5 pval)
    as [mn [mx [pl [pu [Emn [Emx [Hfp [Hpl [Hpu _]]]]]]]]].
  assert (mn = pmn) by (unfold ok in *; congruence).
  assert (mx = pmx) by (unfold ok in *; congruence). subst mn mx.
  destruct (temperature_laid_out tbl Hvalid) as [T1 [T2 [T3 [T4 T5]]]].
  destruct (find_bounds_total _ _ _ _ (TemperatureLess tval) (TemperatureExceeds tval)
              T1 T2 T3 T4 T5 tval)
    as [mn [mx [tl [tu [Emn' [Emx' [Hft [Htl [Htu _]]]]]]]]].
  assert (mn = tmn) by (unfold ok in *; congruence).
  assert (mx = tmx) by (unfold ok in *; congruence). subst mn mx.
  destruct (grid_unique_node tbl Hvalid pl tl Hpl Htl) as [r_ll Hll].
  destruct (grid_unique_node tbl Hvalid pl tu Hpl Htu) as [r_lu Hlu].
  destruct (grid_unique_node tbl Hvalid pu tl Hpu Htl) as [r_ul Hul].
  destruct (grid_unique_node tbl Hvalid pu tu Hpu Htu) as [r_uu Huu].
  rewrite <- Hstep, <- Htbl in Hfp.
  rewrite <- Htbl in Hft, Hll, Hlu, Hul, Huu.
  eexists.
  rewrite (get_vals_cell self _ _ _ _ _ _ _ _ _ _ _ _ Hfp Hft Hll Hlu Hul Huu).
  unfold domain_lines.
  rewrite (printed_wd _ _ pmn pmx (p_min self) (p_max self) pval Hp3 Hp4).
  rewrite (printed_wd _ _ tmn tmx (t_min self) (t_max self) tval Ht3 Ht4).
  reflexivity.
Qed.

(** ** The worked table *)

Lemma sample_init : __init__ sample_table = ok sample_self.
Proof. vm_compute. reflexivity. Qed.

Lemma sample_valid : valid_table sample_table = true.
Proof. vm_compute. reflexivity. Qed.

Lemma dyadic_init : __init__ dyadic_table = ok dyadic_self.
Proof. vm_compute. reflexivity. Qed.




(** The bounds of the witness; those of an exact match strictly inside
    the axis (the entry is the high bound); and those of the node on the
    minimum edges, where the previous-entry index is negative and wraps to
    the far edge. *)
Example sample_bounds :
  find_bounds (map pressure sample_table) 3
    (PressureLess (16#10)) (PressureExceeds (16#10)) (16#10) = ([], ok (1, 2)) /\
  find_bounds (map temperature sample_table) 1
    (TemperatureLess 140) (TemperatureExceeds 140) 140 = ([], ok (100, 200)) /\
  find_bounds (map pressure sample_table) 3
    (PressureLess 2) (PressureExceeds 2) 2 = ([], ok (1, 2)) /\
  find_bounds (map temperature sample_table) 1
    (TemperatureLess 200) (TemperatureExceeds 200) 200 = ([], ok (100, 200)) /\
  find_bounds (map pressure sample_table) 3
    (PressureLess 1) (PressureExceeds 1) 1 = ([], ok (3, 1)) /\
  find_bounds (map temperature sample_table) 1
    (TemperatureLess 100) (TemperatureExceeds 100) 100 = ([], ok (300, 100)).
Proof. repeat split; vm_compute; reflexivity. Qed.

(** C3.  The scenario of the spec: on the axes [{1,2,3}] Pa by
    [{100,200,300}] K with vp samples 4.0, 4.2, 4.4 and 4.6 at the nodes
    (1,100), (1,200), (2,100) and (2,200), whatever the other samples are,
    the query at (1.5, 150) returns vp = 4.3 and prints nothing. *)
Theorem scenario_midpoint (r0 r1 r2 r3 r4 r5 r6 r7 r8 : row) (self : SeismicLookupTable) :
  __init__ [r0; r1; r2; r3; r4; r5; r6; r7; r8] = ok self ->
  map pressure [r0; r1; r2; r3; r4; r5; r6; r7; r8] = [1; 1; 1; 2; 2; 2; 3; 3; 3] ->
  map temperature [r0; r1; r2; r3; r4; r5; r6; r7; r8] =
    [100; 200; 300; 100; 200; 300; 100; 200; 300] ->
  c_vp r0 == 4 -> c_vp r1 == 42#10 -> c_vp r3 == 44#10 -> c_vp r4 == 46#10 ->
  exists Vp Vs Vp_an Vs_an Vphi Dens,
    get_vals self (15#10) 150 = ([], ok (Vp, Vs, Vp_an, Vs_an, Vphi, Dens)) /\
    array_eq Vp [43#10].
Proof.
  intros Hinit Hp Ht H0 H1 H3 H4.
  destruct (init_attributes _ self Hinit) as [Htbl [_ [_ Hstep]]].
  rewrite Ht in Hstep.
  assert (Hfp : find_bounds (map pressure (table self)) (pstep self)
                  (PressureLess (15#10)) (PressureExceeds (15#10)) (15#10) =
                ([], ok (1, 2)))
    by (rewrite Htbl, Hp, Hstep; vm_compute; reflexivity).
  assert (Hft : find_bounds (map temperature (table self)) 1
                  (TemperatureLess 150) (TemperatureExceeds 150) 150 =
                ([], ok (100, 200)))
    by (rewrite Htbl, Ht; vm_compute; reflexivity).
  cbn [map] in Hp, Ht.
  injection Hp as Ep0 Ep1 Ep2 Ep3 Ep4 Ep5 Ep6 Ep7 Ep8.
  injection Ht as Et0 Et1 Et2 Et3 Et4 Et5 Et6 Et7 Et8.
  assert (Hll : filter (at_node 1 100) (table self) = [r0]).
  { rewrite Htbl. cbn [filter]. unfold at_node.
    rewrite Ep0, Ep1, Ep2, Ep3, Ep4, Ep5, Ep6, Ep7, Ep8,
            Et0, Et1, Et2, Et3, Et4, Et5, Et6, Et7, Et8. reflexivity. }
  assert (Hlu : filter (at_node 1 200) (table self) = [r1]).
  { rewrite Htbl. cbn [filter]. unfold at_node.
    rewrite Ep0, Ep1, Ep2, Ep3, Ep4, Ep5, Ep6, Ep7, Ep8,
            Et0, Et1, Et2, Et3, Et4, Et5, Et6, Et7, Et8. reflexivity. }
  assert (Hul : filter (at_node 2 100) (table self) = [r3]).
  { rewrite Htbl. cbn [filter]. unfold at_node.
    rewrite Ep0, Ep1, Ep2, Ep3, Ep4, Ep5, Ep6, Ep7, Ep8,
            Et0, Et1, Et2, Et3, Et4, Et5, Et6, Et7, Et8. reflexivity. }
  assert (Huu : filter (at_node 2 200) (table self) = [r4]).
  { rewrite Htbl. cbn [filter]. unfold at_node.
    rewrite Ep0, Ep1, Ep2, Ep3, Ep4, Ep5, Ep6, Ep7, Ep8,
            Et0, Et1, Et2, Et3, Et4, Et5, Et6, Et7, Et8. reflexivity. }
  pose proof (get_vals_cell self (15#10) 150 [] [] 1 2 100 200 r0 r1 r3 r4
                Hfp Hft Hll Hlu Hul Huu) as Hcell.
  cbn zeta in Hcell.
  do 6 eexists. split; [exact Hcell|].
  apply array_eq_single. unfold blend.
  assert (Etn : norm_vals 150 200 100 == 1#2) by reflexivity.
  assert (Epn : norm_vals (15#10) 2 1 == 1#2) by reflexivity.
  rewrite Etn, Epn, H0, H1, H3, H4. reflexivity.
Qed.

(** Witness for C3: the worked table. *)
Lemma scenario_midpoint_witness :
  exists Vp Vs Vp_an Vs_an Vphi Dens,
    get_vals sample_self (15#10) 150 = ([], ok (Vp, Vs, Vp_an, Vs_an, Vphi, Dens)) /\
    array_eq Vp [43#10].
Proof.
  apply (scenario_midpoint
           (mkRow 1 100 4 2 (41#10) (21#10) 3 3300 100 1500)
           (mkRow 1 200 (42#10) (22#10) (43#10) (23#10) (31#10) 3310 110 1510)
           (mkRow 1 300 5 (24#10) (51#10) (25#10) (32#10) 3320 120 1520)
           (mkRow 2 100 (44#10) (26#10) (45#10) (27#10) (33#10) 3330 130 1530)
           (mkRow 2 200 (46#10) (28#10) (47#10) (29#10) (34#10) 3340 140 1540)
           (mkRow 2 300 6 3 (61#10) (31#10) (35#10) 3350 150 1550)
           (mkRow 3 100 7 (32#10) (71#10) (33#10) (36#10) 3360 160 1560)
           (mkRow 3 200 8 (34#10) (81#10) (35#10) (37#10) 3370 170 1570)
           (mkRow 3 300 9 (36#10) (91#10) (37#10) (38#10) 3380 180 1580)
           sample_self).
  - vm_compute; reflexivity.
  - reflexivity.
  - reflexivity.
  - reflexivity.
  - reflexivity.
  - reflexivity.
  - reflexivity.
Defined.

(** Counterexample to C4 as stated: pressure 1 lies exactly on the lower
    edge of the worked table's domain, and the query prints no line. *)
Lemma on_edge_prints_nothing :
  p_min sample_self == 1 /\
  t_min sample_self <= 150 <= t_max sample_self /\
  fst (get_vals sample_self 1 150) = [].
Proof.
  split; [reflexivity|]. split; [split; vm_compute; discriminate|].
  vm_compute. reflexivity.
Qed.

(** ** binary64: nan, finite values and the zeros *)

Lemma SFcompare_refl (x : spec_float) : x <> S754_nan -> SFcompare x x = Some Eq.
Proof.
  destruct x as [s|s| |s m e]; intros H; try easy; simpl.
  - now destruct s.
  - rewrite Z.compare_refl, Pos.compare_cont_refl. now destruct s.
Qed.

Lemma is_nan_spec (x : float) : is_nan x = true <-> Prim2SF x = S754_nan.
Proof.
  unfold is_nan. rewrite FloatAxioms.eqb_spec. unfold SFeqb. split.
  - intros H. destruct (Prim2SF x) eqn:E; try reflexivity;
      rewrite SFcompare_refl in H by discriminate; discriminate.
  - intros ->. reflexivity.
Qed.

Lemma Prim2SF_infinity : Prim2SF infinity = S754_infinity false.
Proof. reflexivity. Qed.

Lemma Prim2SF_zero : Prim2SF 0%float = S754_zero false.
Proof. reflexivity. Qed.

(** A finite float is a zero or a finite number. *)
Lemma is_finite_spec (x : float) :
  is_finite x = true ->
  (exists s, Prim2SF x = S754_zero s) \/ (exists s m e, Prim2SF x = S754_finite s m e).
Proof.
  unfold is_finite. intros H. apply negb_true_iff, orb_false_iff in H.
  destruct H as [Hnan Hinf].
  destruct (Prim2SF x) as [s|s| |s m e] eqn:E.
  - left. now exists s.
  - unfold is_infinity in Hinf.
    rewrite FloatAxioms.eqb_spec, FloatAxioms.abs_spec, E, Prim2SF_infinity in Hinf. discriminate.
  - apply is_nan_spec in E. congruence.
  - right. now exists s, m, e.
Qed.

Lemma eqb_refl (x : float) : is_nan x = false -> (x =? x)%float = true.
Proof. unfold is_nan. intros H. now apply negb_false_iff in H. Qed.

(** A finite slope times zero is a zero, and a zero added to [y] is [y]. *)
Lemma zero_step (slope y : float) :
  is_finite slope = true -> is_nan y = false ->
  ((slope * 0 + y) =? y)%float = true.
Proof.
  intros Hs Hy.
  assert (Hz : exists s, Prim2SF (slope * 0)%float = S754_zero s).
  { rewrite FloatAxioms.mul_spec, Prim2SF_zero.
    destruct (is_finite_spec slope Hs) as [[s E]|[s [m [e E]]]]; rewrite E;
      eexists; reflexivity. }
  destruct Hz as [s Hz].
  assert (Hny : Prim2SF y <> S754_nan).
  { intros E. apply is_nan_spec in E. congruence. }
  rewrite FloatAxioms.eqb_spec, FloatAxioms.add_spec, Hz. unfold SFeqb.
  destruct (Prim2SF y) as [sy|sy| |sy my ey] eqn:E; try easy.
  - unfold SF64add, SFadd. now destruct s, sy.
  - unfold SF64add, SFadd. now rewrite SFcompare_refl.
  - unfold SF64add, SFadd. now rewrite SFcompare_refl.
Qed.

(** ** get_vals on binary64 *)

Lemma b64_pbind_ok {A B : Type} (out : list B64.line) (a : A) (k : A -> B64.Py B) :
  B64.pbind (out, ok a) k = (out ++ fst (k a), snd (k a)).
Proof. reflexivity. Qed.

Lemma b64_node_index_where (tbl : list B64.row) (p t : float) :
  B64.node_index tbl p t = np_where (B64.at_node p t) tbl.
Proof.
  unfold B64.node_index, intersect1d, np_where.
  rewrite (where_from_map B64.pressure), (where_from_map B64.temperature).
  apply (intersect_where_from (fun r => (B64.pressure r =? p)%float)
           (fun r => (B64.temperature r =? t)%float)).
  intros j x Hx. simpl.
  exact (existsb_where_from (fun r => (B64.temperature r =? t)%float) tbl j x Hx).
Qed.

Lemma b64_take_rows_where_from (h : B64.row -> bool) (l pre : list B64.row) :
  B64.take_rows (pre ++ l) (where_from (length pre) h l) = ok (filter h l).
Proof.
  revert pre. induction l as [|y l IH]; intros pre; simpl; [reflexivity|].
  assert (Hrec : B64.take_rows (pre ++ y :: l) (where_from (S (length pre)) h l) =
                 ok (filter h l)).
  { specialize (IH (pre ++ [y])). rewrite <- app_assoc in IH. simpl in IH.
    rewrite length_app in IH. simpl in IH. now rewrite Nat.add_1_r in IH. }
  destruct (h y); [|exact Hrec]. simpl.
  rewrite (py_index_nat (pre ++ y :: l) (length pre) y).
  - simpl. now rewrite Hrec.
  - rewrite nth_error_app2 by lia. now rewrite Nat.sub_diag.
Qed.

Lemma b64_select_rows (tbl : list B64.row) (p t : float) :
  B64.take_rows tbl (B64.node_index tbl p t) = ok (filter (B64.at_node p t) tbl).
Proof.
  rewrite b64_node_index_where. exact (b64_take_rows_where_from (B64.at_node p t) tbl []).
Qed.

(** [get_vals] once the bounds and the four corner rows are known: each
    result is the blend of the four corner samples, along the temperature
    first and along the pressure next. *)
Lemma b64_get_vals_cell (tbl : list B64.row) (pstep : nat) (pval tval : float)
      (o1 o2 : list B64.line) (pl pu tl tu : float) (r_ll r_lu r_ul r_uu : B64.row) :
  B64.find_bounds (map B64.pressure tbl) pstep
    (B64.PressureLess pval) (B64.PressureExceeds pval) pval = (o1, ok (pl, pu)) ->
  B64.find_bounds (map B64.temperature tbl) 1
    (B64.TemperatureLess tval) (B64.TemperatureExceeds tval) tval = (o2, ok (tl, tu)) ->
  filter (B64.at_node pl tl) tbl = [r_ll] ->
  filter (B64.at_node pl tu) tbl = [r_lu] ->
  filter (B64.at_node pu tl) tbl = [r_ul] ->
  filter (B64.at_node pu tu) tbl = [r_uu] ->
  exists v,
    B64.get_vals tbl pstep pval tval = (o1 ++ o2, ok v) /\
    B64.results v =
    map (fun f => [B64.lerp (B64.lerp (f r_ll) (f r_lu) (B64.norm_vals tval tu tl))
                            (B64.lerp (f r_ul) (f r_uu) (B64.norm_vals tval tu tl))
                            (B64.norm_vals pval pu pl)])
        B64.columns.
Proof.
  intros Hp Ht Hll Hlu Hul Huu.
  unfold B64.get_vals. rewrite Hp, b64_pbind_ok. cbn [fst snd].
  rewrite Ht, b64_pbind_ok. cbn [fst snd].
  rewrite !b64_select_rows, Hll, Hlu, Hul, Huu.
  eexists. split.
  - cbn. rewrite !app_nil_r. reflexivity.
  - reflexivity.
Qed.

(** A search for a value beyond an end of the column prints its line and
    returns that end twice. *)
Lemma b64_find_bounds_below (col : list float) (stride : nat) (less exceeds : B64.line)
      (val mn : float) :
  B64.np_min col = ok mn -> (val <? mn)%float = true ->
  B64.find_bounds col stride less exceeds val = ([less], ok (mn, mn)).
Proof.
  intros Hmn Hlt. unfold B64.find_bounds. rewrite Hmn. cbn. now rewrite Hlt.
Qed.

Lemma b64_find_bounds_above (col : list float) (stride : nat) (less exceeds : B64.line)
      (val mn mx : float) :
  B64.np_min col = ok mn -> (val <? mn)%float = false ->
  B64.np_max col = ok mx -> (mx <? val)%float = true ->
  B64.find_bounds col stride less exceeds val = ([exceeds], ok (mx, mx)).
Proof.
  intros Hmn Hge Hmx Hgt. unfold B64.find_bounds. rewrite Hmn. cbn.
  rewrite Hge, Hmx. cbn. now rewrite Hgt.
Qed.

Lemma is_finite_intro (x : float) :
  (exists s, Prim2SF x = S754_zero s) \/ (exists s m e, Prim2SF x = S754_finite s m e) ->
  is_finite x = true.
Proof.
  intros H. unfold is_finite, is_infinity, is_nan.
  rewrite !FloatAxioms.eqb_spec, FloatAxioms.abs_spec, Prim2SF_infinity.
  destruct H as [[s E]|[s [m [e E]]]]; rewrite E; unfold SFeqb; simpl.
  - now destruct s.
  - rewrite Z.compare_refl, Pos.compare_cont_refl. now destruct s.
Qed.

(** A difference of a finite number with itself is a zero, a zero times
    zero is a zero, and adding it changes nothing. *)
Lemma finite_cancel (a : float) :
  is_finite a = true ->
  is_finite (B64.lerp a a 0) = true /\ (B64.lerp a a 0 =? a)%float = true.
Proof.
  intros Ha. unfold B64.lerp.
  assert (Hd : Prim2SF (a - a)%float = S754_zero false).
  { rewrite FloatAxioms.sub_spec. unfold SF64sub, SFsub.
    destruct (is_finite_spec a Ha) as [[s E]|[s [m [e E]]]]; rewrite E.
    - now destruct s.
    - now rewrite Z.sub_diag. }
  assert (Hm : Prim2SF ((a - a) * 0)%float = S754_zero false).
  { now rewrite FloatAxioms.mul_spec, Hd, Prim2SF_zero. }
  split.
  - apply is_finite_intro. rewrite FloatAxioms.add_spec, Hm. unfold SF64add, SFadd.
    destruct (is_finite_spec a Ha) as [[s E]|[s [m [e E]]]]; rewrite E.
    + left. destruct s; eexists; reflexivity.
    + right. now exists s, m, e.
  - rewrite FloatAxioms.eqb_spec, FloatAxioms.add_spec, Hm. unfold SF64add, SFadd, SFeqb.
    destruct (is_finite_spec a Ha) as [[s E]|[s [m [e E]]]]; rewrite E.
    + now destruct s.
    + now rewrite SFcompare_refl.
Qed.

Lemma ltb_not_nan (x y : float) :
  (x <? y)%float = true -> is_nan x = false /\ is_nan y = false.
Proof.
  rewrite FloatAxioms.ltb_spec. unfold SFltb. intros H.
  split; apply not_true_is_false; intros E; apply is_nan_spec in E; rewrite E in H.
  - discriminate.
  - now destruct (Prim2SF x).
Qed.

Lemma b64_beyond_bounds (col : list float) (stride : nat) (less exceeds : B64.line)
      (val m : float) (o : list B64.line) :
  B64.beyond col val less exceeds m o ->
  B64.find_bounds col stride less exceeds val = (o, ok (m, m)) /\ is_nan m = false.
Proof.
  intros [[Hmn [Hlt ->]]|[mn [Hmn [Hge [Hmx [Hgt ->]]]]]].
  - split; [now apply b64_find_bounds_below|]. exact (proj2 (ltb_not_nan _ _ Hlt)).
  - split; [now apply (b64_find_bounds_above col stride less exceeds val mn)|].
    exact (proj1 (ltb_not_nan _ _ Hgt)).
Qed.

Lemma b64_norm_vals_guard (val e : float) :
  is_nan e = false -> B64.norm_vals val e e = 0%float.
Proof. intros H. unfold B64.norm_vals. now rewrite eqb_refl. Qed.

(** The pressure beyond an edge: the cell has no extent along the pressure
    and the blend is the interpolation along the edge. *)
Lemma b64_beyond_pressure (tbl : list B64.row) (pstep : nat) (pval tval m tl tu : float)
      (o1 o2 : list B64.line) (r_l r_u : B64.row) :
  B64.beyond (map B64.pressure tbl) pval
    (B64.PressureLess pval) (B64.PressureExceeds pval) m o1 ->
  B64.find_bounds (map B64.temperature tbl) 1
    (B64.TemperatureLess tval) (B64.TemperatureExceeds tval) tval = (o2, ok (tl, tu)) ->
  filter (B64.at_node m tl) tbl = [r_l] ->
  filter (B64.at_node m tu) tbl = [r_u] ->
  Forall (fun f => is_finite (B64.lerp (f r_l) (f r_u) (B64.norm_vals tval tu tl)) = true)
         B64.columns ->
  exists v,
    B64.get_vals tbl pstep pval tval = (o1 ++ o2, ok v) /\
    Forall2 (fun f arr => exists x, arr = [x] /\ is_finite x = true /\
               (x =? B64.lerp (f r_l) (f r_u) (B64.norm_vals tval tu tl))%float = true)
            B64.columns (B64.results v).
Proof.
  intros Hbeyond Ht Hl Hu Hfin.
  destruct (b64_beyond_bounds _ pstep _ _ _ _ _ Hbeyond) as [Hp Hm].
  destruct (b64_get_vals_cell tbl pstep pval tval o1 o2 m m tl tu r_l r_u r_l r_u
              Hp Ht Hl Hu Hl Hu) as [v [Hget Hres]].
  exists v. split; [exact Hget|]. rewrite Hres, (b64_norm_vals_guard pval m Hm).
  clear Hget Hres. induction Hfin as [|f fs Hf Hfs IH]; simpl; constructor.
  - eexists. split; [reflexivity|]. now apply finite_cancel.
  - exact IH.
Qed.

(** The temperature beyond an edge: the cell has no extent along the
    temperature and the blend runs along the pressure, between the two
    samples of the edge. *)
Lemma b64_beyond_temperature (tbl : list B64.row) (pstep : nat) (pval tval m pl pu : float)
      (o1 o2 : list B64.line) (r_l r_u : B64.row) :
  B64.find_bounds (map B64.pressure tbl) pstep
    (B64.PressureLess pval) (B64.PressureExceeds pval) pval = (o1, ok (pl, pu)) ->
  B64.beyond (map B64.temperature tbl) tval
    (B64.TemperatureLess tval) (B64.TemperatureExceeds tval) m o2 ->
  filter (B64.at_node pl m) tbl = [r_l] ->
  filter (B64.at_node pu m) tbl = [r_u] ->
  Forall (fun f => is_finite (f r_l) = true /\ is_finite (f r_u) = true) B64.columns ->
  exists v,
    B64.get_vals tbl pstep pval tval = (o1 ++ o2, ok v) /\
    Forall2 (fun f arr => exists a b,
               (a =? f r_l)%float = true /\ (b =? f r_u)%float = true /\
               arr = [B64.lerp a b (B64.norm_vals pval pu pl)])
            B64.columns (B64.results v).
Proof.
  intros Hp Hbeyond Hl Hu Hfin.
  destruct (b64_beyond_bounds _ 1%nat _ _ _ _ _ Hbeyond) as [Ht Hm].
  destruct (b64_get_vals_cell tbl pstep pval tval o1 o2 pl pu m m r_l r_l r_u r_u
              Hp Ht Hl Hl Hu Hu) as [v [Hget Hres]].
  exists v. split; [exact Hget|]. rewrite Hres, (b64_norm_vals_guard tval m Hm).
  clear Hget Hres. induction Hfin as [|f fs [Hf1 Hf2] Hfs IH]; simpl; constructor.
  - exists (B64.lerp (f r_l) (f r_l) 0), (B64.lerp (f r_u) (f r_u) 0).
    split; [now apply finite_cancel|]. split; [now apply finite_cancel|reflexivity].
  - exact IH.
Qed.

(** C4, as the code has it.  On a valid table a query at any rational point
    returns without raising, and prints one line for each coordinate
    strictly beyond the table's range, none for a coordinate on an edge.
    On binary64: with the pressure strictly beyond an edge the cell has no
    extent along the pressure, the guard of [norm_vals] makes the fraction
    0, and each result is a finite number equal to the interpolation along
    that edge, between its two samples at the temperature bounds, whenever
    that interpolation is itself finite.  With the temperature strictly
    beyond an edge each result is the interpolation along the pressure
    between the two samples of that edge. *)
Theorem beyond_edge_query :
  (forall (tbl : list row) (self : SeismicLookupTable) (pval tval : Q),
     valid_table tbl = true ->
     __init__ tbl = ok self ->
     exists v, get_vals self pval tval = (domain_lines self pval tval, ok v)) /\
  (forall (tbl : list B64.row) (pstep : nat) (pval tval m tl tu : float)
          (o1 o2 : list B64.line) (r_l r_u : B64.row),
     B64.beyond (map B64.pressure tbl) pval
       (B64.PressureLess pval) (B64.PressureExceeds pval) m o1 ->
     B64.find_bounds (map B64.temperature tbl) 1
       (B64.TemperatureLess tval) (B64.TemperatureExceeds tval) tval = (o2, ok (tl, tu)) ->
     filter (B64.at_node m tl) tbl = [r_l] ->
     filter (B64.at_node m tu) tbl = [r_u] ->
     Forall (fun f => is_finite (B64.lerp (f r_l) (f r_u) (B64.norm_vals tval tu tl)) = true)
            B64.columns ->
     exists v,
       B64.get_vals tbl pstep pval tval = (o1 ++ o2, ok v) /\
       Forall2 (fun f arr => exists x, arr = [x] /\ is_finite x = true /\
                  (x =? B64.lerp (f r_l) (f r_u) (B64.norm_vals tval tu tl))%float = true)
               B64.columns (B64.results v)) /\
  (forall (tbl : list B64.row) (pstep : nat) (pval tval m pl pu : float)
          (o1 o2 : list B64.line) (r_l r_u : B64.row),
     B64.find_bounds (map B64.pressure tbl) pstep
       (B64.PressureLess pval) (B64.PressureExceeds pval) pval = (o1, ok (pl, pu)) ->
     B64.beyond (map B64.temperature tbl) tval
       (B64.TemperatureLess tval) (B64.TemperatureExceeds tval) m o2 ->
     filter (B64.at_node pl m) tbl = [r_l] ->
     filter (B64.at_node pu m) tbl = [r_u] ->
     Forall (fun f => is_finite (f r_l) = true /\ is_finite (f r_u) = true) B64.columns ->
     exists v,
       B64.get_vals tbl pstep pval tval = (o1 ++ o2, ok v) /\
       Forall2 (fun f arr => exists a b,
                  (a =? f r_l)%float = true /\ (b =? f r_u)%float = true /\
                  arr = [B64.lerp a b (B64.norm_vals pval pu pl)])
               B64.columns (B64.results v)).
Proof.
  split; [exact get_vals_returns|].
  split; [exact b64_beyond_pressure | exact b64_beyond_temperature].
Qed.

(** Witness for C4: pressure -5 on the worked table and on the small
    binary64 table, whose minimum pressure is 1, at temperature 150; and
    temperature 50 on the small table, at pressure 1.5. *)
Lemma beyond_edge_query_witness :
  (exists v, get_vals sample_self (-5) 150 = ([PressureLess (-5)], ok v)) /\
  (exists v,
     B64.get_vals B64.small_table 2 (-5) 150 = ([B64.PressureLess (-5)%float], ok v) /\
     Forall2 (fun f arr => exists x, arr = [x] /\ is_finite x = true /\
                (x =? B64.lerp (f (B64.mkRow 1 100 4.2 2 0 0 0 3300 0 0))
                               (f (B64.mkRow 1 200 12.4 2 0 0 0 3300 0 0))
                               (B64.norm_vals 150 200 100))%float = true)
             B64.columns (B64.results v)) /\
  (exists v,
     B64.get_vals B64.small_table 2 1.5 50 = ([B64.TemperatureLess 50%float], ok v) /\
     Forall2 (fun f arr => exists a b,
                (a =? f (B64.mkRow 1 100 4.2 2 0 0 0 3300 0 0))%float = true /\
                (b =? f (B64.mkRow 2 100 12.4 2 0 0 0 3300 0 0))%float = true /\
                arr = [B64.lerp a b (B64.norm_vals 1.5 2 1)])
             B64.columns (B64.results v)).
Proof.
  destruct beyond_edge_query as [HQ [HP HT]].
  split; [|split].
  - apply (HQ sample_table sample_self (-5) 150); vm_compute; reflexivity.
  - apply (HP B64.small_table 2%nat (-5)%float 150%float 1%float 100%float 200%float
              [B64.PressureLess (-5)%float] []).
    + left. repeat split; vm_compute; reflexivity.
    + vm_compute. reflexivity.
    + vm_compute. reflexivity.
    + vm_compute. reflexivity.
    + repeat constructor.
  - apply (HT B64.small_table 2%nat 1.5%float 50%float 100%float 1%float 2%float
              [] [B64.TemperatureLess 50%float]).
    + vm_compute. reflexivity.
    + left. repeat split; vm_compute; reflexivity.
    + vm_compute. reflexivity.
    + vm_compute. reflexivity.
    + repeat constructor.
Defined.

(** The query below the pressures and the query on the edge itself differ
    in the last digit of vp. *)
Example edge_and_beyond :
  B64.get_vals B64.flat_table 3 (-5) 200 =
    ([B64.PressureLess (-5)], ok ([4.2], [2], [0], [0], [0], [3300])%float) /\
  B64.get_vals B64.flat_table 3 1 200 =
    ([], ok ([4.2000000000000011], [2], [0], [0], [0], [3300])%float).
Proof. split; vm_compute; reflexivity. Qed.

(** ** Rounding at the nodes and in the search *)



(** On the table of binary fractions binary64 rounds nothing: the query at
    a node returns the stored samples, also on the minimum edges, and the
    search for 11/8 and for 140 returns the flanking entries. *)
Example dyadic_binary64 :
  B64.get_vals B64.dyadic_table 3 0.5 100 =
    ([], ok ([4], [2], [4.125], [2.125], [3], [3300])%float) /\
  B64.get_vals B64.dyadic_table 3 1 200 =
    ([], ok ([4.75], [3], [4.875], [3.125], [3.5], [3340])%float) /\
  B64.find_bounds (map B64.pressure B64.dyadic_table) 3
    (B64.PressureLess 1.375) (B64.PressureExceeds 1.375) 1.375 = ([], ok (1, 1.5)%float) /\
  B64.find_bounds (map B64.temperature B64.dyadic_table) 1
    (B64.TemperatureLess 140) (B64.TemperatureExceeds 140) 140 = ([], ok (100, 200)%float).
Proof. repeat split; vm_compute; reflexivity. Qed.

(** ** Construction: when the filling loop fails *)

Lemma length_set_column_zip (i : nat) (a : array2d) (v : list Q) :
  length v = length a -> length (set_column_zip i a v) = length a.
Proof.
  revert v. induction a as [|r a IH]; intros [|x v]; simpl; try easy.
  intros H. now rewrite IH by lia.
Qed.

Lemma set_column_ok (a : array2d) (i : nat) (v : list Q) :
  length v = length a \/ length v = 1%nat ->
  exists a', set_column a i v = ok a' /\ length a' = length a.
Proof.
  intros H. unfold set_column.
  destruct (Nat.eqb (length v) (length a)) eqn:E.
  - apply Nat.eqb_eq in E. eexists. split; [reflexivity|].
    now apply length_set_column_zip.
  - apply Nat.eqb_neq in E. destruct H as [H|H]; [contradiction|].
    destruct v as [|x [|y v]]; try discriminate.
    eexists. split; [reflexivity|]. apply length_map.
Qed.

Lemma set_column_bad (a : array2d) (i : nat) (v : list Q) :
  length v <> length a -> length v <> 1%nat ->
  set_column a i v = raise ValueError.
Proof.
  intros H1 H2. unfold set_column.
  destruct (Nat.eqb (length v) (length a)) eqn:E;
    [apply Nat.eqb_eq in E; contradiction|].
  destruct v as [|x [|y v]]; [reflexivity | now simpl in H2 | reflexivity].
Qed.

Lemma fill_block_ok (tbl : list row) (m i k : nat) (grids : list array2d) :
  rows_are m grids ->
  length (py_slice tbl (0 + i * m) (m + i * m)) = m \/
  length (py_slice tbl (0 + i * m) (m + i * m)) = 1%nat ->
  exists grids', fill_block tbl m i k grids = ok grids' /\
                 rows_are m grids' /\ length grids' = length grids.
Proof.
  intros Hrows Hfit. revert k.
  induction Hrows as [|g grids Hg Hrows IH]; intros k; simpl.
  - exists []. repeat split. constructor.
  - destruct (set_column_ok g i (map (column k) (py_slice tbl (0 + i * m) (m + i * m))))
      as [g' [Eg Hg']].
    { rewrite length_map, Hg. exact Hfit. }
    destruct (IH (S k)) as [gs' [Egs [Hgs Hlen]]].
    exists (g' :: gs'). simpl in Eg. rewrite Eg, Egs. cbn [rbind].
    repeat split; [constructor; [congruence|exact Hgs] | simpl; now rewrite Hlen].
Qed.

Lemma fill_block_bad (tbl : list row) (m i k : nat) (g : array2d) (grids : list array2d) :
  length g = m ->
  length (py_slice tbl (0 + i * m) (m + i * m)) <> m ->
  length (py_slice tbl (0 + i * m) (m + i * m)) <> 1%nat ->
  fill_block tbl m i k (g :: grids) = raise ValueError.
Proof.
  intros Hg H1 H2. cbn [fill_block].
  rewrite set_column_bad; [reflexivity | rewrite length_map; congruence
                           | rewrite length_map; exact H2].
Qed.

Lemma fill_loop_outcome (tbl : list row) (m : nat) (range : list nat)
      (g : array2d) (grids : list array2d) :
  rows_are m (g :: grids) ->
  if forallb (block_fits tbl m) range
  then exists grids', fill_loop tbl m range (g :: grids) = ok grids' /\
                      length grids' = S (length grids)
  else fill_loop tbl m range (g :: grids) = raise ValueError.
Proof.
  revert g grids.
  induction range as [|i range IH]; intros g grids Hrows; cbn [fill_loop forallb].
  - now exists (g :: grids).
  - destruct (block_fits tbl m i) eqn:E; cbn [andb].
    + unfold block_fits in E. apply orb_prop in E.
      destruct (fill_block_ok tbl m i 2 (g :: grids) Hrows) as [gs' [Egs [Hgs Hlen]]].
      { destruct E as [E|E]; apply Nat.eqb_eq in E; [now left | now right]. }
      rewrite Egs. cbn [rbind].
      destruct gs' as [|g' gs']; [discriminate|].
      specialize (IH g' gs' Hgs).
      destruct (forallb (block_fits tbl m) range).
      * destruct IH as [grids' [Eg Hl]]. exists grids'. split; [exact Eg|].
        simpl in Hlen. lia.
      * exact IH.
    + unfold block_fits in E. apply orb_false_elim in E. destruct E as [E1 E2].
      apply Nat.eqb_neq in E1. apply Nat.eqb_neq in E2.
      rewrite (fill_block_bad tbl m i 2 g grids); [reflexivity| |exact E1|exact E2].
      now inversion Hrows.
Qed.

Lemma insert_unique_nonempty (x : Q) (l : list Q) : insert_unique x l <> [].
Proof.
  destruct l as [|y l]; simpl; [easy|]. destruct (x ?= y); easy.
Qed.

Lemma np_unique_nonempty (l : list Q) : l <> [] -> np_unique l <> [].
Proof.
  destruct l as [|x l]; [easy|]. intros _. simpl. apply insert_unique_nonempty.
Qed.

Lemma zeros_rows (m n k : nat) : rows_are m (repeat (np_zeros m n) k).
Proof.
  apply Forall_forall. intros g Hg. apply repeat_spec in Hg. subst g.
  unfold np_zeros. apply repeat_length.
Qed.

(** The eight constructions fail together, on an axis of a single point. *)
Lemma build_interpolators_outcome (x y : list Q) (g : array2d) (grids : list array2d) :
  build_interpolators x y (g :: grids) =
  if (length x <=? 1)%nat || (length y <=? 1)%nat then raise FitpackError else ok tt.
Proof.
  revert g. induction grids as [|g' grids IH]; intros g;
    cbn [build_interpolators]; unfold interp2d_fit;
    destruct ((length x <=? 1)%nat || (length y <=? 1)%nat) eqn:E; try reflexivity.
  rewrite rbind_ok. specialize (IH g'). cbn [build_interpolators] in IH.
  unfold interp2d_fit in IH. now rewrite E in IH.
Qed.

(** The four outcomes of construction. *)
Lemma init_cases (tbl : list row) :
  match two_dimensional tbl with
  | inl _ => __init__ tbl = raise IndexError
  | inr _ =>
      if blocks_fit tbl
      then if single_axis tbl
           then __init__ tbl = raise FitpackError
           else exists self, __init__ tbl = ok self /\ table self = tbl
      else __init__ tbl = raise ValueError
  end.
Proof.
  unfold __init__.
  destruct (two_dimensional tbl) as [e|[]] eqn:E2.
  { destruct tbl as [|r0 [|r1 tbl0]]; simpl in E2; try discriminate;
      injection E2 as <-; reflexivity. }
  rewrite rbind_ok.
  unfold blocks_fit, single_axis.
  destruct tbl as [|r0 tbl0] eqn:Etbl; [discriminate|].
  rewrite <- Etbl.
  assert (Hne : tbl <> []) by (rewrite Etbl; discriminate).
  assert (Ht : np_unique (map temperature tbl) <> [])
    by (apply np_unique_nonempty; destruct tbl; [easy|discriminate]).
  assert (Hp : np_unique (map pressure tbl) <> [])
    by (apply np_unique_nonempty; destruct tbl; [easy|discriminate]).
  destruct (np_max_spec _ Ht) as [tmx [Etmx _]].
  destruct (np_min_spec _ Ht) as [tmn [Etmn _]].
  destruct (np_max_spec _ Hp) as [pmx [Epmx _]].
  destruct (np_min_spec _ Hp) as [pmn [Epmn _]].
  rewrite Etmx, Etmn, Epmx, Epmn, !rbind_ok.
  pose proof (fill_loop_outcome tbl (length (np_unique (map temperature tbl)))
                (seq 0 (length (np_unique (map pressure tbl))))
                (np_zeros (length (np_unique (map temperature tbl)))
                          (length (np_unique (map pressure tbl))))
                (repeat (np_zeros (length (np_unique (map temperature tbl)))
                                  (length (np_unique (map pressure tbl)))) 7)
                (zeros_rows _ _ 8)) as Hloop.
  change (np_zeros ?m ?n :: repeat (np_zeros ?m ?n) 7)
    with (repeat (np_zeros m n) 8) in Hloop.
  destruct (forallb _ (seq 0 (length (np_unique (map pressure tbl))))).
  - destruct Hloop as [grids [Eg Hlen]]. rewrite Eg, rbind_ok.
    destruct grids as [|g grids]; [discriminate|].
    rewrite build_interpolators_outcome.
    destruct ((length (np_unique (map pressure tbl)) <=? 1)%nat ||
              (length (np_unique (map temperature tbl)) <=? 1)%nat).
    + reflexivity.
    + rewrite rbind_ok. eexists. split; reflexivity.
  - now rewrite Hloop.
Qed.

(** Counterexample to C5 as stated: seven rows are not a multiple of the
    three unique temperatures, and construction still returns a table. *)
Lemma long_table_loads :
  exists self,
    __init__ long_table = ok self /\
    n_uniq_t self = 3%nat /\
    (length (table self) mod n_uniq_t self <> 0)%nat.
Proof.
  pose proof (init_cases long_table) as H.
  replace (two_dimensional long_table) with (@ok unit tt) in H by reflexivity.
  replace (blocks_fit long_table) with true in H by (vm_compute; reflexivity).
  replace (single_axis long_table) with false in H by (vm_compute; reflexivity).
  destruct H as [self [Hinit Htbl]].
  exists self. split; [exact Hinit|].
  destruct (init_inv long_table self Hinit)
    as [tmx [tmn [pmx [pmn [grids [_ [_ [_ [_ [_ ->]]]]]]]]]].
  split; [vm_compute; reflexivity|]. vm_compute. discriminate.
Qed.

(** On a valid table every block of the filling loop is full. *)
Lemma valid_blocks_fit (tbl : list row) : valid_table tbl = true -> blocks_fit tbl = true.
Proof.
  intros Hvalid. unfold blocks_fit.
  pose proof (grid_length tbl Hvalid) as Hlen.
  destruct (grid_nonempty tbl Hvalid) as [Hn Hm].
  destruct tbl as [|r0 tbl0] eqn:Etbl; [discriminate|]. rewrite <- Etbl in *.
  apply forallb_forall. intros i Hi. apply in_seq in Hi.
  unfold block_fits. apply orb_true_intro. left. apply Nat.eqb_eq.
  unfold py_slice. rewrite length_firstn, length_skipn, Hlen. nia.
Qed.

(** A valid table over two pressures and two temperatures at least has two
    rows at least. *)
Lemma valid_two_dimensional (tbl : list row) :
  valid_table tbl = true -> single_axis tbl = false -> two_dimensional tbl = ok tt.
Proof.
  intros Hvalid Hax. pose proof (grid_length tbl Hvalid) as Hlen.
  unfold single_axis in Hax. apply orb_false_iff in Hax. destruct Hax as [H1 H2].
  apply Nat.leb_gt in H1. apply Nat.leb_gt in H2.
  assert (Hrows : (2 <= length tbl)%nat) by nia.
  destruct tbl as [|r0 [|r1 tbl0]]; [simpl in Hrows; lia|simpl in Hrows; lia|reflexivity].
Qed.

(** C5, as the code has it.  Construction checks nothing about the row
    count.  It raises [IndexError] on fewer than two rows, numpy's
    [ValueError] when a block slice of the filling loop has neither [pstep]
    rows nor one row, and scipy's error when the table has a single
    pressure or a single temperature; in every other case it returns the
    table object.  Every valid table over at least two pressures and two
    temperatures is such a case. *)
Theorem init_outcome (tbl : list row) :
  (two_dimensional tbl = raise IndexError -> __init__ tbl = raise IndexError) /\
  (two_dimensional tbl = ok tt -> blocks_fit tbl = false ->
   __init__ tbl = raise ValueError) /\
  (two_dimensional tbl = ok tt -> blocks_fit tbl = true -> single_axis tbl = true ->
   __init__ tbl = raise FitpackError) /\
  (two_dimensional tbl = ok tt -> blocks_fit tbl = true -> single_axis tbl = false ->
   exists self, __init__ tbl = ok self /\ table self = tbl) /\
  (valid_table tbl = true -> single_axis tbl = false ->
   two_dimensional tbl = ok tt /\ blocks_fit tbl = true).
Proof.
  pose proof (init_cases tbl) as H.
  split; [|split; [|split; [|split]]].
  - intros E. now rewrite E in H.
  - intros E1 E2. now rewrite E1, E2 in H.
  - intros E1 E2 E3. now rewrite E1, E2, E3 in H.
  - intros E1 E2 E3. now rewrite E1, E2, E3 in H.
  - intros Hvalid Hax. split; [now apply valid_two_dimensional|now apply valid_blocks_fit].
Qed.

(** Witness for C5: the worked table has nine rows, its blocks fit, it has
    three pressures and three temperatures, and it loads. *)
Lemma init_outcome_witness :
  two_dimensional sample_table = ok tt /\
  blocks_fit sample_table = true /\
  single_axis sample_table = false /\
  exists self, __init__ sample_table = ok self /\ table self = sample_table.
Proof.
  split; [reflexivity|]. split; [vm_compute; reflexivity|].
  split; [vm_compute; reflexivity|].
  apply (proj1 (proj2 (proj2 (proj2 (init_outcome sample_table)))));
    vm_compute; reflexivity.
Defined.

(** The other outcomes on small tables: one row, a single temperature, a
    second block of two rows where three temperatures make [pstep = 3]. *)
Example init_failures :
  __init__ [mkRow 1 100 4 2 0 0 0 0 0 0] = raise IndexError /\
  __init__ [mkRow 1 100 4 2 0 0 0 0 0 0; mkRow 2 100 5 3 0 0 0 0 0 0] =
    raise FitpackError /\
  __init__ (firstn 5 long_table) = raise ValueError.
Proof. repeat split; vm_compute; reflexivity. Qed.

(** ** interp_points and the fields dictionary *)

Lemma py_index_out {A : Type} (l : list A) (i : nat) :
  (length l <= i)%nat -> py_index l (Z.of_nat i) = raise IndexError.
Proof.
  intros H. unfold py_index.
  destruct (Z.of_nat i <? 0)%Z eqn:E; [lia|].
  replace ((0 <=? Z.of_nat i) && (Z.of_nat i <? Z.of_nat (length l)))%Z with false;
    [reflexivity|].
  symmetry. apply andb_false_intro2. lia.
Qed.

Lemma length_set_nth (i : nat) (x : Q) (l : list Q) : length (set_nth i x l) = length l.
Proof.
  revert i. induction l as [|y l IH]; intros [|i]; simpl; auto.
Qed.

Lemma firstn_set_nth (i : nat) (x : Q) (l : list Q) :
  (i < length l)%nat -> firstn (S i) (set_nth i x l) = firstn i l ++ [x].
Proof.
  revert i. induction l as [|y l IH]; intros [|i] Hi; simpl in *; try lia.
  - reflexivity.
  - f_equal. apply IH. lia.
Qed.

Lemma nth_error_zip_with (op : Q -> Q -> Q) (a b : list Q) (i : nat) (x y : Q) :
  nth_error a i = Some x -> nth_error b i = Some y ->
  nth_error (zip_with op a b) i = Some (op x y).
Proof.
  revert b i. induction a as [|x0 a IH]; intros [|y0 b] [|i]; simpl; try easy.
  - intros H1 H2. injection H1 as <-. injection H2 as <-. reflexivity.
  - apply IH.
Qed.

Lemma length_zip_with (op : Q -> Q -> Q) (a b : list Q) :
  (length a <= length b)%nat -> length (zip_with op a b) = length a.
Proof.
  revert b. induction a as [|x a IH]; intros [|y b]; simpl; try lia.
  intros H. rewrite IH; lia.
Qed.

Lemma skipn_cons_nth {A : Type} (l : list A) (i : nat) (x : A) :
  nth_error l i = Some x -> skipn i l = x :: skipn (S i) l.
Proof.
  revert i. induction l as [|y l IH]; intros [|i]; simpl; try easy.
  - intros H. injection H as <-. reflexivity.
  - apply IH.
Qed.

Section InterpPointsLoop.

Variable grid : Q -> Q -> Q.
Variables press temps : list Q.

(** With enough temperatures the loop fills [out] front to back with the
    values at the aligned pairs. *)
Lemma points_loop_fills (d k : nat) (out : list Q) :
  length out = length press ->
  (length press <= length temps)%nat ->
  (k + d = length press)%nat ->
  points_loop grid (PySeq press) (PySeq temps) (seq k d) out =
  ok (firstn k out ++ skipn k (zip_with grid press temps)).
Proof.
  revert k out.
  induction d as [|d IH]; intros k out Hout Hlen Hk; cbn [points_loop seq py_getitem].
  - rewrite Nat.add_0_r in Hk. subst k.
    rewrite <- Hout at 1. rewrite firstn_all.
    rewrite skipn_all2 by (rewrite length_zip_with; lia).
    now rewrite app_nil_r.
  - destruct (nth_error press k) as [p|] eqn:Ep; [|apply nth_error_None in Ep; lia].
    destruct (nth_error temps k) as [t|] eqn:Et; [|apply nth_error_None in Et; lia].
    rewrite (py_index_nat _ _ _ Ep), (py_index_nat _ _ _ Et), !rbind_ok.
    rewrite IH by (rewrite ?length_set_nth; lia).
    rewrite firstn_set_nth by lia.
    rewrite (skipn_cons_nth (zip_with grid press temps) k (grid p t))
      by (now apply nth_error_zip_with).
    now rewrite <- app_assoc.
Qed.

(** With too few temperatures the loop raises [IndexError] at the first
    index that has no temperature. *)
Lemma points_loop_short (d k : nat) (out : list Q) :
  (k <= length temps)%nat ->
  (length temps < k + d)%nat ->
  (k + d = length press)%nat ->
  points_loop grid (PySeq press) (PySeq temps) (seq k d) out = raise IndexError.
Proof.
  revert k out. induction d as [|d IH]; intros k out Hk Hshort Hlen; [lia|].
  cbn [points_loop seq py_getitem].
  destruct (nth_error press k) as [p|] eqn:Ep; [|apply nth_error_None in Ep; lia].
  rewrite (py_index_nat _ _ _ Ep), rbind_ok.
  destruct (Nat.eq_dec k (length temps)) as [E|E].
  - rewrite py_index_out by lia. reflexivity.
  - destruct (nth_error temps k) as [t|] eqn:Et; [|apply nth_error_None in Et; lia].
    rewrite (py_index_nat _ _ _ Et), rbind_ok.
    apply IH; lia.
Qed.

End InterpPointsLoop.

(** A table object that [__init__] returned has two points at least on
    each axis, so the interpolant over its axes can be built again. *)
Lemma init_two_points (tbl : list row) (self : SeismicLookupTable) :
  __init__ tbl = ok self ->
  forall z, interp2d_fit (pres self) (temp self) z = ok tt.
Proof.
  intros Hinit z.
  destruct (init_attributes tbl self Hinit) as [_ [-> [-> _]]].
  pose proof (init_cases tbl) as H. rewrite Hinit in H.
  destruct (two_dimensional tbl); [discriminate|].
  destruct (blocks_fit tbl); [|discriminate].
  destruct (single_axis tbl) eqn:E; [discriminate|].
  unfold interp2d_fit. unfold single_axis in E. now rewrite E.
Qed.

(** The loop of [interp_points] over all of [press]: the pairwise values
    when there are enough temperatures, [IndexError] otherwise. *)
Lemma points_loop_all (grid : Q -> Q -> Q) (press temps : list Q) :
  points_loop grid (PySeq press) (PySeq temps)
    (seq 0 (length press)) (repeat 0 (length press)) =
  if (length press <=? length temps)%nat then ok (zip_with grid press temps)
  else raise IndexError.
Proof.
  destruct (Nat.leb_spec (length press) (length temps)) as [H|H].
  - rewrite (points_loop_fills grid press temps (length press) 0)
      by (rewrite ?repeat_length; lia).
    reflexivity.
  - apply points_loop_short; lia.
Qed.

(** C6, as the code has it.  On a constructed table and for a known field,
    [interp_points] wraps a Python number into a one-element sequence and
    then, given sequences, raises [IndexError] when there are fewer
    temperatures than pressures; otherwise it returns one value per
    pressure, the interpolant at the pairs aligned index by index, and
    ignores surplus temperatures.  A numpy scalar is not wrapped: as the
    pressures it raises [TypeError] at [len(press)], as the temperatures it
    raises [IndexError] at the first [temps[i]]. *)
Theorem interp_points_outcome
        (interp2d : list Q -> list Q -> array2d -> Q -> Q -> Q)
        (tbl : list row) (self : SeismicLookupTable) (press temps : pyarg)
        (field : string) (entry : field_entry) :
  __init__ tbl = ok self ->
  lookup_field self field = ok entry ->
  let grid := interp2d (pres self) (temp self) (snd (fst entry)) in
  (forall ps ts, promote press = PySeq ps -> promote temps = PySeq ts ->
     (length ps <= length ts)%nat ->
     interp_points interp2d self press temps field =
     (self, ok (zip_with grid ps ts))) /\
  (forall ps ts, promote press = PySeq ps -> promote temps = PySeq ts ->
     (length ts < length ps)%nat ->
     interp_points interp2d self press temps field = (self, raise IndexError)) /\
  (forall x, press = NpNum x ->
     interp_points interp2d self press temps field = (self, raise TypeError)) /\
  (forall p ps x, promote press = PySeq (p :: ps) -> temps = NpNum x ->
     interp_points interp2d self press temps field = (self, raise IndexError)).
Proof.
  intros Hinit Hentry grid. unfold interp_points.
  rewrite Hentry, rbind_ok, (init_two_points tbl self Hinit), rbind_ok. fold grid.
  split; [|split; [|split]].
  - intros ps ts -> -> Hlen. cbn [py_len]. rewrite rbind_ok, points_loop_all.
    now replace (length ps <=? length ts)%nat with true
      by (symmetry; apply Nat.leb_le; lia).
  - intros ps ts -> -> Hlen. cbn [py_len]. rewrite rbind_ok, points_loop_all.
    now replace (length ps <=? length ts)%nat with false
      by (symmetry; apply Nat.leb_gt; lia).
  - intros x ->. reflexivity.
  - intros p ps x -> ->. cbn [promote py_len length seq points_loop py_getitem py_index].
    reflexivity.
Qed.

(** Witness for C6: a Python number as the pressure against two
    temperatures. *)
Lemma interp_points_outcome_witness :
  __init__ sample_table = ok sample_self /\
  lookup_field sample_self "VP" = ok sample_vp_entry /\
  interp_points sum_interp2d sample_self one_pressure two_temperatures "VP" =
  (sample_self, ok [2 + 100]).
Proof.
  split; [vm_compute; reflexivity|].
  split; [vm_compute; reflexivity|].
  apply (proj1 (interp_points_outcome sum_interp2d sample_table sample_self
                  one_pressure two_temperatures "VP" sample_vp_entry
                  ltac:(vm_compute; reflexivity) ltac:(vm_compute; reflexivity))
           [2] [100; 200] eq_refl eq_refl).
  simpl; lia.
Defined.

(** The other branches: two pressures against one temperature, and a numpy
    scalar in either place. *)
Example too_few_temperatures :
  interp_points sum_interp2d sample_self two_temperatures one_pressure "vp" =
  (sample_self, raise IndexError).
Proof. reflexivity. Qed.

Example numpy_scalar_arguments :
  interp_points sum_interp2d sample_self numpy_pressure two_temperatures "vp" =
  (sample_self, raise TypeError) /\
  interp_points sum_interp2d sample_self two_temperatures numpy_pressure "vp" =
  (sample_self, raise IndexError).
Proof. split; reflexivity. Qed.

(** Counterexample to C6 as stated: one pressure against two temperatures,
    sequences of different lengths, and no interpolant makes the call raise. *)
Lemma unequal_lengths_accepted :
  pressure_list = PySeq [2] /\ two_temperatures = PySeq [100; 200] /\
  ~ (forall interp2d : list Q -> list Q -> array2d -> Q -> Q -> Q,
       exists e, snd (interp_points interp2d sample_self
                        pressure_list two_temperatures "vp") = raise e).
Proof.
  split; [reflexivity|]. split; [reflexivity|]. intros H.
  destruct (H sum_interp2d) as [e He]. vm_compute in He. discriminate.
Qed.

Lemma lower_ascii_idempotent (c : ascii) : lower_ascii (lower_ascii c) = lower_ascii c.
Proof.
  destruct c as [[] [] [] [] [] [] [] []]; vm_compute; reflexivity.
Qed.

Lemma lower_idempotent (s : string) : lower (lower s) = lower s.
Proof.
  induction s as [|c s IH]; simpl; [reflexivity|].
  now rewrite lower_ascii_idempotent, IH.
Qed.

Lemma dict_get_keys {V : Type} (d : list (string * V)) (key : string) :
  (In key (map fst d) -> exists v, dict_get d key = ok v) /\
  (~ In key (map fst d) -> dict_get d key = raise KeyError).
Proof.
  induction d as [|[k v] d [IH1 IH2]]; simpl.
  - split; [easy|reflexivity].
  - destruct (String.eqb_spec key k) as [->|Hne]; split.
    + intros _. now exists v.
    + intros H. exfalso. apply H. now left.
    + intros [H|H]; [congruence | now apply IH1].
    + intros H. apply IH2. intros Hin. apply H. now right.
Qed.

Lemma init_fields (tbl : list row) (self : SeismicLookupTable) :
  __init__ tbl = ok self -> map fst (fields self) = field_names.
Proof.
  unfold __init__.
  destruct (two_dimensional tbl); [discriminate|]. cbn [rbind].
  destruct (np_max (np_unique (map temperature tbl))); [discriminate|].
  destruct (np_min (np_unique (map temperature tbl))); [discriminate|].
  destruct (np_max (np_unique (map pressure tbl))); [discriminate|].
  destruct (np_min (np_unique (map pressure tbl))); [discriminate|].
  cbn [rbind].
  pose proof (fill_loop_outcome tbl (length (np_unique (map temperature tbl)))
                (seq 0 (length (np_unique (map pressure tbl))))
                (np_zeros (length (np_unique (map temperature tbl)))
                          (length (np_unique (map pressure tbl))))
                (repeat (np_zeros (length (np_unique (map temperature tbl)))
                                  (length (np_unique (map pressure tbl)))) 7)
                (zeros_rows _ _ 8)) as Hloop.
  change (np_zeros ?m ?n :: repeat (np_zeros ?m ?n) 7)
    with (repeat (np_zeros m n) 8) in Hloop.
  destruct (forallb _ _).
  - destruct Hloop as [grids [Eg Hlen]]. rewrite Eg, rbind_ok.
    match goal with
    | |- context [build_interpolators ?x ?y ?g] =>
        destruct (build_interpolators x y g); [discriminate|]
    end.
    cbn [rbind].
    intros H. injection H as <-. cbn [fields].
    destruct grids as [|g1 [|g2 [|g3 [|g4 [|g5 [|g6 [|g7 [|g8 [|g9 grids]]]]]]]]];
      try discriminate.
    reflexivity.
  - rewrite Hloop. discriminate.
Qed.

(** Every character is among the 256 of [all_ascii]. *)
Lemma all_ascii_complete (c : ascii) : In c all_ascii.
Proof.
  unfold all_ascii. rewrite <- (ascii_nat_embedding c).
  apply in_map. apply in_seq. pose proof (nat_ascii_bounded c). lia.
Qed.

(** [lower_ascii] identifies two characters exactly when they are the same
    letter up to case. *)
Lemma lower_ascii_same (c d : ascii) :
  Ascii.eqb (lower_ascii c) (lower_ascii d) = same_char c d.
Proof.
  assert (H : forallb (fun c => forallb (fun d =>
                Bool.eqb (Ascii.eqb (lower_ascii c) (lower_ascii d)) (same_char c d))
                all_ascii) all_ascii = true) by (vm_compute; reflexivity).
  rewrite forallb_forall in H. specialize (H c (all_ascii_complete c)).
  rewrite forallb_forall in H. specialize (H d (all_ascii_complete d)).
  now apply eqb_prop in H.
Qed.

Lemma lower_same (s t : string) : String.eqb (lower s) (lower t) = same_name s t.
Proof.
  revert t. induction s as [|c s IH]; intros [|d t]; cbn [lower same_name String.eqb];
    try reflexivity.
  rewrite lower_ascii_same, IH. now destruct (same_char c d).
Qed.

Lemma same_name_lower (s t : string) : same_name s t = true <-> lower s = lower t.
Proof. rewrite <- lower_same. apply String.eqb_eq. Qed.

(** The dictionary that [__init__] stores: the eight entries of the source,
    each with its grid. *)
Lemma init_registry (tbl : list row) (self : SeismicLookupTable) :
  __init__ tbl = ok self ->
  exists g1 g2 g3 g4 g5 g6 g7 g8,
    fields self =
    make_fields 2 field_names field_units [g1; g2; g3; g4; g5; g6; g7; g8].
Proof.
  intros Hinit.
  destruct (init_inv tbl self Hinit)
    as [tmx [tmn [pmx [pmn [grids [_ [_ [_ [_ [Hloop ->]]]]]]]]]].
  pose proof (fill_loop_outcome tbl (length (np_unique (map temperature tbl)))
                (seq 0 (length (np_unique (map pressure tbl))))
                (np_zeros (length (np_unique (map temperature tbl)))
                          (length (np_unique (map pressure tbl))))
                (repeat (np_zeros (length (np_unique (map temperature tbl)))
                                  (length (np_unique (map pressure tbl)))) 7)
                (zeros_rows _ _ 8)) as Hout.
  change (np_zeros ?m ?n :: repeat (np_zeros ?m ?n) 7)
    with (repeat (np_zeros m n) 8) in Hout.
  rewrite Hloop in Hout.
  destruct (forallb _ _); [|discriminate].
  destruct Hout as [grids' [Eg Hlen]].
  assert (grids' = grids) by (unfold ok in Eg; congruence). subst grids'.
  destruct grids as [|g1 [|g2 [|g3 [|g4 [|g5 [|g6 [|g7 [|g8 [|g9 grids]]]]]]]]];
    try discriminate.
  cbn [fields]. now exists g1, g2, g3, g4, g5, g6, g7, g8.
Qed.

(** C7.  On a constructed table a name that spells a key of the registry,
    in any mix of upper and lower case, finds the entry of that key, with
    the column index and the unit the source gives it; names that are the
    same up to case find the same entry.  A name that spells none of the
    eight keys raises [KeyError], from the lookup and from [interp_points]
    alike, and [interp_points] hands the table object back unchanged. *)
Theorem field_lookup (tbl : list row) (self : SeismicLookupTable) (name : string) :
  __init__ tbl = ok self ->
  (forall key k u, In (key, k, u) registry -> same_name name key = true ->
     exists g, lookup_field self name = ok (k, g, u)) /\
  (forall name', same_name name name' = true ->
     lookup_field self name = lookup_field self name') /\
  ((forall key, In key field_names -> same_name name key = false) ->
   lookup_field self name = raise KeyError /\
   forall interp2d press temps,
     interp_points interp2d self press temps name = (self, raise KeyError)).
Proof.
  intros Hinit.
  destruct (init_registry tbl self Hinit)
    as [g1 [g2 [g3 [g4 [g5 [g6 [g7 [g8 Hfields]]]]]]]].
  split; [|split].
  - intros key k u Hin Hsame. apply same_name_lower in Hsame.
    unfold lookup_field. rewrite Hfields, Hsame.
    unfold registry in Hin.
    repeat (destruct Hin as [Hin|Hin];
            [injection Hin as <- <- <-; eexists; reflexivity|]).
    destruct Hin.
  - intros name' Hsame. apply same_name_lower in Hsame.
    unfold lookup_field. now rewrite Hsame.
  - intros Hnone.
    assert (Hno : ~ In (lower name) field_names).
    { intros Hin. specialize (Hnone (lower name) Hin).
      assert (same_name name (lower name) = true)
        by (apply same_name_lower; now rewrite lower_idempotent).
      congruence. }
    destruct (dict_get_keys (fields self) (lower name)) as [_ Hout].
    rewrite (init_fields tbl self Hinit) in Hout. specialize (Hout Hno).
    split; [exact Hout|].
    intros interp2d press temps. unfold interp_points, lookup_field. now rewrite Hout.
Qed.

(** Witness for C7: [VS_Ani] finds the entry of [vs_ani], column 5. *)
Lemma field_lookup_witness :
  __init__ sample_table = ok sample_self /\
  exists g, lookup_field sample_self "VS_Ani" = ok (5%nat, g, "km/s"%string).
Proof.
  split; [vm_compute; reflexivity|].
  apply (proj1 (field_lookup sample_table sample_self "VS_Ani"
                  ltac:(vm_compute; reflexivity)) "vs_ani"%string).
  - unfold registry. simpl. auto 10.
  - vm_compute; reflexivity.
Defined.

(** An unknown name. *)
Example unknown_field :
  (forall key, In key field_names -> same_name "Rho" key = false) /\
  lookup_field sample_self "Rho" = raise KeyError /\
  interp_points sum_interp2d sample_self one_pressure two_temperatures "Rho" =
  (sample_self, raise KeyError).
Proof.
  split; [|split; reflexivity].
  intros key Hin. unfold field_names in Hin.
  repeat (destruct Hin as [Hin|Hin]; [subst key; reflexivity|]). destruct Hin.
Qed.

(** ** Harmonic mixing *)

(** Counterexample to C8 as stated: one component, or two, is not a call
    the function accepts. *)
Lemma harmonic_mix_arity :
  harmonic_mix [6%float] [1%float] = raise TypeError /\
  harmonic_mix [6%float; 6%float] [0.5%float; 0.5%float] = raise TypeError.
Proof. split; reflexivity. Qed.

Lemma py_div_outcome (x y : float) :
  py_div x y = if (y =? 0)%float then raise ZeroDivisionError else ok (x / y)%float.
Proof. reflexivity. Qed.

(** C8, as the code has it.  Harmonic mixing is a call with three values
    and three fractions; any other number of arguments is a [TypeError].
    It raises [ZeroDivisionError] when a value is zero or the weighted sum
    of the reciprocals, as binary64 computes it, is zero, and returns the
    reciprocal of that sum otherwise.  Identical values with fractions that
    sum to one are reproduced only as far as the rounding allows: 6 comes
    back as 6, 49 as 49.000000000000007. *)
Theorem harmonic_mix_outcome :
  (forall values fractions : list float,
     length (values ++ fractions) <> 6%nat ->
     harmonic_mix values fractions = raise TypeError) /\
  (forall v1 v2 v3 f1 f2 f3 : float,
     harmonic_mix [v1; v2; v3] [f1; f2; f3] =
     if (v1 =? 0)%float || (v2 =? 0)%float || (v3 =? 0)%float ||
        (reciprocal_sum v1 v2 v3 f1 f2 f3 =? 0)%float
     then raise ZeroDivisionError
     else ok (1 / reciprocal_sum v1 v2 v3 f1 f2 f3)%float) /\
  harmonic_mix [6; 6; 9]%float [0.5; 0.5; 0]%float = ok 6%float /\
  harmonic_mix [49; 7; 9]%float [1; 0; 0]%float = ok 49.000000000000007%float.
Proof.
  split; [|split; [|split]].
  - intros values fractions H. unfold harmonic_mix.
    destruct (values ++ fractions) as [|a [|b [|c [|d [|e [|f [|g l]]]]]]];
      try reflexivity.
    now simpl in H.
  - intros v1 v2 v3 f1 f2 f3.
    cbn [harmonic_mix app]. unfold harmonic_mean_comp, reciprocal_sum, py_div.
    destruct (v1 =? 0)%float; [reflexivity|]. rewrite rbind_ok.
    destruct (v2 =? 0)%float; [reflexivity|]. rewrite rbind_ok.
    destruct (v3 =? 0)%float; [reflexivity|]. rewrite rbind_ok.
    reflexivity.
  - vm_compute. reflexivity.
  - vm_compute. reflexivity.
Qed.

(** Witness for C8: a call with two values and two fractions. *)
Lemma harmonic_mix_outcome_witness :
  length ([6; 6] ++ [0.5; 0.5])%float <> 6%nat /\
  harmonic_mix [6; 6]%float [0.5; 0.5]%float = raise TypeError.
Proof.
  split; [simpl; lia|].
  apply (proj1 harmonic_mix_outcome). simpl. lia.
Defined.

(** The underflow of the sum: no value is zero, and the exact sum is
    [2^-1080]. *)
Example harmonic_underflow :
  harmonic_mix [0x1p1000; 1; 1]%float [0x1p-80; 0; 0]%float = raise ZeroDivisionError.
Proof. vm_compute. reflexivity. Qed.

(** ** Composition interpolation *)

Lemma map2_length (op : float -> float -> float) (a b : list float) :
  length a = length b -> length (map2 op a b) = length a.
Proof.
  revert b. induction a as [|x a IH]; intros [|y b] H; simpl in *; try easy.
  now rewrite IH by lia.
Qed.

Lemma linear_interp_1d_arrays (a b : list float) (c1 c2 cnew : float) :
  length a = length b ->
  linear_interp_1d (NdArray a) (NdArray b) c1 c2 cnew =
  ok (map2 (line_through c1 c2 cnew) a b).
Proof.
  intros Hlen. unfold linear_interp_1d, interp1d_extrapolate. cbn [flatten].
  rewrite !rbind_ok, Hlen, Nat.eqb_refl. cbn [negb].
  unfold line_through. destruct (exchanged c1 c2); f_equal.
  clear Hlen. revert a. induction b as [|y b IH]; intros [|x a]; simpl; try reflexivity.
  now rewrite IH.
Qed.

(** Counterexample to C9 as stated: between the anchors 4.3 and 0.1 the
    endpoint at 1 is not the second anchor. *)
Lemma endpoint_rounded :
  linear_interp_1d (NdArray [4.3%float]) (NdArray [0.1%float]) 0 1 1 =
    ok [0.099999999999999645%float] /\
  (0.099999999999999645 =? 0.1)%float = false.
Proof. split; vm_compute; reflexivity. Qed.

(** C9, as the code has it.  Between equal-length anchor arrays [a] at 0
    and [b] at 1 the interpolation returns, entry by entry and for every
    query value, [(b - a) / 1 * cnew + a] as binary64 evaluates it, without
    any clamping.  At 0 this is [a], whenever the slopes are finite and [a]
    holds no nan.  At 1 it is [(b - a) / 1 * 1 + a], which rounding can
    keep away from [b]. *)
Theorem interp_endpoints (a b : list float) :
  length a = length b ->
  (forall cnew,
     linear_interp_1d (NdArray a) (NdArray b) 0 1 cnew =
     ok (map2 (fun x y => ((y - x) / 1 * (cnew - 0) + x)%float) a b)) /\
  (Forall2 (fun x y => is_finite ((y - x) / 1)%float = true /\ is_nan x = false) a b ->
   exists r, linear_interp_1d (NdArray a) (NdArray b) 0 1 0 = ok r /\
             close_arrays r a).
Proof.
  intros Hlen. split.
  - intros cnew. now rewrite linear_interp_1d_arrays.
  - intros Hfin. rewrite linear_interp_1d_arrays by exact Hlen.
    eexists. split; [reflexivity|].
    unfold close_arrays. clear Hlen.
    induction Hfin as [|x y a b [Hs Hx] Hfin IH]; simpl; constructor.
    + exact (zero_step _ x Hs Hx).
    + exact IH.
Qed.

(** Witness for C9: three entries. *)
Lemma interp_endpoints_witness :
  exists r, linear_interp_1d (NdArray [4; 5; 6]%float) (NdArray [8; 7; 3]%float) 0 1 0 = ok r /\
            close_arrays r [4; 5; 6]%float.
Proof.
  apply (proj2 (interp_endpoints [4; 5; 6]%float [8; 7; 3]%float eq_refl)).
  repeat constructor.
Defined.

(** Counterexample to C10 as stated: Python scalars are not accepted. *)
Lemma python_scalars_rejected :
  linear_interp_1d (PyFloat 4) (PyFloat 8) 0 1 0.5 = raise AttributeError.
Proof. reflexivity. Qed.

(** C10, as the code has it.  The anchors may be numpy scalars, which
    flatten to one-element arrays, or numpy arrays of equal length; the
    result is then scipy's line through the two anchors, entry by entry.  A
    Python number as either anchor has no [flatten] and raises
    [AttributeError], whatever the other anchor is. *)
Theorem interp_anchor_kinds (c1 c2 cnew : float) :
  (forall a b : float,
     linear_interp_1d (NpScalar a) (NpScalar b) c1 c2 cnew =
     ok [line_through c1 c2 cnew a b]) /\
  (forall a b : list float, length a = length b ->
     linear_interp_1d (NdArray a) (NdArray b) c1 c2 cnew =
     ok (map2 (line_through c1 c2 cnew) a b)) /\
  (forall (a : float) (v : pyval),
     linear_interp_1d (PyFloat a) v c1 c2 cnew = raise AttributeError) /\
  (forall (v : pyval) (b : float),
     linear_interp_1d v (PyFloat b) c1 c2 cnew = raise AttributeError).
Proof.
  split; [|split; [|split]].
  - intros a b. unfold linear_interp_1d, interp1d_extrapolate, line_through.
    cbn [flatten]. rewrite !rbind_ok. cbn [length Nat.eqb negb].
    now destruct (exchanged c1 c2).
  - intros a b. apply linear_interp_1d_arrays.
  - reflexivity.
  - intros [x|x|xs] b; reflexivity.
Qed.

(** Witness for C10: two numpy scalars. *)
Lemma interp_anchor_kinds_witness :
  linear_interp_1d (NpScalar 4) (NpScalar 8) 0 1 0.5 = ok [6%float].
Proof.
  rewrite (proj1 (interp_anchor_kinds 0 1 0.5) 4%float 8%float).
  vm_compute. reflexivity.
Defined.

(** Equal anchor compositions raise nothing: the entries are inf or nan. *)
Example equal_compositions :
  linear_interp_1d (NdArray [1; 2; 5]%float) (NdArray [3; 2; 4]%float) 1 1 2 =
  ok [infinity; nan; neg_infinity].
Proof. vm_compute. reflexivity. Qed.

(** * Further properties of the code *)

(** ** Construction: axes, ranges and field grids *)

(** X1.  The axes of a constructed table: [self.pres] is strictly
    increasing and holds exactly the values of the pressure column (each
    entry of the axis occurs in the column, each pressure of a row equals an
    entry of the axis), likewise [self.temp] for the temperature column; the
    counts [n_uniq_p], [n_uniq_t] are their lengths, and [pstep], the stride
    of the block arithmetic, is the positive number of temperatures. *)
Theorem init_axes (tbl : list row) (self : SeismicLookupTable) :
  __init__ tbl = ok self ->
  (increasing (pres self) /\
   (forall x, In x (pres self) -> In x (map pressure (table self))) /\
   (forall r, In r (table self) -> exists y, In y (pres self) /\ y == pressure r)) /\
  (increasing (temp self) /\
   (forall x, In x (temp self) -> In x (map temperature (table self))) /\
   (forall r, In r (table self) -> exists y, In y (temp self) /\ y == temperature r)) /\
  n_uniq_p self = length (pres self) /\
  n_uniq_t self = length (temp self) /\
  pstep self = n_uniq_t self /\
  (0 < pstep self)%nat /\ (0 < n_uniq_p self)%nat.
Proof.
  intros Hinit.
  destruct (init_inv tbl self Hinit) as [tmx [tmn [pmx [pmn [grids [Ht [_ [Hp [_ [_ ->]]]]]]]]]].
  cbn [pres temp table n_uniq_p n_uniq_t pstep].
  split; [|split; [|split; [|split; [|split; [|split]]]]]; try reflexivity.
  - split; [apply np_unique_increasing|]. split; [apply np_unique_In|].
    intros r Hr. apply np_unique_covers. now apply in_map.
  - split; [apply np_unique_increasing|]. split; [apply np_unique_In|].
    intros r Hr. apply np_unique_covers. now apply in_map.
  - destruct (np_unique (map temperature tbl)); [discriminate|simpl; lia].
  - destruct (np_unique (map pressure tbl)); [discriminate|simpl; lia].
Qed.

(** Witness for X1: the worked table. *)
Lemma init_axes_witness :
  __init__ sample_table = ok sample_self /\
  increasing (pres sample_self) /\ increasing (temp sample_self) /\
  pstep sample_self = 3%nat.
Proof.
  split; [vm_compute; reflexivity|].
  destruct (init_axes sample_table sample_self) as [[H1 _] [[H2 _] _]].
  - vm_compute; reflexivity.
  - split; [exact H1|]. split; [exact H2|reflexivity].
Defined.

(** X2.  The range attributes of a constructed table are the extreme
    coordinates of its rows: every row has its pressure in
    [[p_min, p_max]] and its temperature in [[t_min, t_max]], and each of
    the four attributes is the coordinate of some row. *)
Theorem init_ranges (tbl : list row) (self : SeismicLookupTable) :
  __init__ tbl = ok self ->
  (forall r, In r (table self) ->
     p_min self <= pressure r <= p_max self /\
     t_min self <= temperature r <= t_max self) /\
  (exists r, In r (table self) /\ pressure r = p_min self) /\
  (exists r, In r (table self) /\ pressure r = p_max self) /\
  (exists r, In r (table self) /\ temperature r = t_min self) /\
  (exists r, In r (table self) /\ temperature r = t_max self).
Proof.
  intros Hinit.
  destruct (init_attributes tbl self Hinit) as [Htbl _].
  destruct (init_range tbl self Hinit) as [Hpmin [Hpmax [Htmin Htmax]]].
  rewrite Htbl.
  assert (Hattained : forall (f : row -> Q) (a : Q),
             In a (np_unique (map f tbl)) -> exists r, In r tbl /\ f r = a).
  { intros f a Ha. apply np_unique_In in Ha. apply in_map_iff in Ha.
    destruct Ha as [r [E Hr]]. now exists r. }
  assert (Hmin : forall (f : row -> Q) (a : Q),
             np_min (np_unique (map f tbl)) = ok a ->
             In a (np_unique (map f tbl)) /\ forall r, In r tbl -> a <= f r).
  { intros f a Ha.
    assert (Hne : np_unique (map f tbl) <> [])
      by (destruct (np_unique (map f tbl)); [discriminate|easy]).
    destruct (np_min_spec _ Hne) as [a' [Ea [Hin Hle]]].
    assert (a' = a) by (unfold ok in *; congruence). subst a'.
    split; [exact Hin|]. intros r Hr.
    destruct (np_unique_covers (map f tbl) (f r)) as [y [Hy Hyr]]; [now apply in_map|].
    specialize (Hle y Hy). lra. }
  assert (Hmax : forall (f : row -> Q) (a : Q),
             np_max (np_unique (map f tbl)) = ok a ->
             In a (np_unique (map f tbl)) /\ forall r, In r tbl -> f r <= a).
  { intros f a Ha.
    assert (Hne : np_unique (map f tbl) <> [])
      by (destruct (np_unique (map f tbl)); [discriminate|easy]).
    destruct (np_max_spec _ Hne) as [a' [Ea [Hin Hle]]].
    assert (a' = a) by (unfold ok in *; congruence). subst a'.
    split; [exact Hin|]. intros r Hr.
    destruct (np_unique_covers (map f tbl) (f r)) as [y [Hy Hyr]]; [now apply in_map|].
    specialize (Hle y Hy). lra. }
  destruct (Hmin pressure _ Hpmin) as [I1 L1].
  destruct (Hmax pressure _ Hpmax) as [I2 L2].
  destruct (Hmin temperature _ Htmin) as [I3 L3].
  destruct (Hmax temperature _ Htmax) as [I4 L4].
  split.
  - intros r Hr. repeat split; auto.
  - repeat split; now apply Hattained.
Qed.

(** Witness for X2: the worked table. *)
Lemma init_ranges_witness :
  __init__ sample_table = ok sample_self /\
  forall r, In r (table sample_self) ->
    p_min sample_self <= pressure r <= p_max sample_self /\
    t_min sample_self <= temperature r <= t_max sample_self.
Proof.
  split; [vm_compute; reflexivity|].
  apply (proj1 (init_ranges sample_table sample_self ltac:(vm_compute; reflexivity))).
Defined.

Lemma nth_error_set_nth_eq (i : nat) (x : Q) (l : list Q) :
  (i < length l)%nat -> nth_error (set_nth i x l) i = Some x.
Proof.
  revert i. induction l as [|y l IH]; intros [|i] Hi; simpl in *; try lia.
  - reflexivity.
  - apply IH. lia.
Qed.

Lemma nth_error_set_nth_neq (i j : nat) (x : Q) (l : list Q) :
  i <> j -> nth_error (set_nth i x l) j = nth_error l j.
Proof.
  revert i j. induction l as [|y l IH]; intros [|i] [|j] Hij; simpl; try easy.
  apply IH. lia.
Qed.

Lemma nth_error_set_column_zip (i : nat) (a : array2d) (v : list Q) (b : nat) :
  nth_error (set_column_zip i a v) b =
  match nth_error a b, nth_error v b with
  | Some r, Some x => Some (set_nth i x r)
  | _, _ => None
  end.
Proof.
  revert v b. induction a as [|r a IH]; intros [|x v] [|b]; simpl; try reflexivity.
  - now destruct (nth_error a b).
  - apply IH.
Qed.

(** A column assignment keeps the shape of the array. *)
Lemma set_column_shape (m n : nat) (a a' : array2d) (i : nat) (v : list Q) :
  has_shape m n a -> set_column a i v = ok a' -> has_shape m n a'.
Proof.
  intros [Hm Hn] H. unfold set_column in H.
  destruct (Nat.eqb (length v) (length a)) eqn:E.
  - apply Nat.eqb_eq in E. injection H as <-. split.
    + now rewrite length_set_column_zip.
    + apply Forall_forall. intros r' Hr'. apply In_nth_error in Hr'.
      destruct Hr' as [b Hb]. rewrite nth_error_set_column_zip in Hb.
      destruct (nth_error a b) as [r|] eqn:Er; [|discriminate].
      destruct (nth_error v b) as [x|]; [|discriminate].
      injection Hb as <-. rewrite length_set_nth.
      rewrite Forall_forall in Hn. apply Hn. eapply nth_error_In; eauto.
  - destruct v as [|x [|y v]]; try discriminate. injection H as <-. split.
    + now rewrite length_map.
    + apply Forall_forall. intros r' Hr'. apply in_map_iff in Hr'.
      destruct Hr' as [r [<- Hr]]. rewrite length_set_nth.
      rewrite Forall_forall in Hn. now apply Hn.
Qed.

(** One iteration of the filling loop, grid by grid. *)
Lemma fill_block_nth (tbl : list row) (m i k : nat) (grids grids' : list array2d) :
  fill_block tbl m i k grids = ok grids' ->
  length grids' = length grids /\
  forall j g', nth_error grids' j = Some g' ->
    exists g, nth_error grids j = Some g /\
      set_column g i (map (column (k + j)) (py_slice tbl (0 + i * m) (m + i * m))) = ok g'.
Proof.
  revert k grids'. induction grids as [|g grids IH]; intros k grids' H; cbn [fill_block] in H.
  - injection H as <-. split; [reflexivity|]. intros [|j] g' Hj; discriminate.
  - destruct (set_column g i _) as [|g1] eqn:E1; [discriminate|]. cbn [rbind] in H.
    destruct (fill_block tbl m i (S k) grids) as [|gs] eqn:E2; [discriminate|].
    cbn [rbind] in H. injection H as <-.
    destruct (IH (S k) gs E2) as [Hlen Hnth]. split; [simpl; now rewrite Hlen|].
    intros [|j] g' Hj; simpl in Hj.
    + injection Hj as <-. exists g. rewrite Nat.add_0_r. split; [reflexivity|exact E1].
    + destruct (Hnth j g' Hj) as [g0 [Hg0 Hset]]. exists g0. split; [exact Hg0|].
      now rewrite Nat.add_succ_r.
Qed.

Lemma fill_loop_shape (tbl : list row) (m n : nat) (range : list nat)
      (grids grids' : list array2d) :
  fill_loop tbl m range grids = ok grids' ->
  Forall (has_shape m n) grids ->
  length grids' = length grids /\ Forall (has_shape m n) grids'.
Proof.
  revert grids. induction range as [|i range IH]; intros grids H Hsh; cbn [fill_loop] in H.
  - injection H as <-. now split.
  - destruct (fill_block tbl m i 2 grids) as [|gs] eqn:E; [discriminate|].
    cbn [rbind] in H. destruct (fill_block_nth _ _ _ _ _ _ E) as [Hlen Hnth].
    destruct (IH gs H) as [Hlen' Hsh'].
    + apply Forall_forall. intros g' Hg'. apply In_nth_error in Hg'.
      destruct Hg' as [j Hj]. destruct (Hnth j g' Hj) as [g [Hg Hset]].
      refine (set_column_shape m n g g' i _ _ Hset).
      rewrite Forall_forall in Hsh. apply Hsh. eapply nth_error_In; eauto.
    + split; [congruence|exact Hsh'].
Qed.

Lemma zeros_shape (m n k : nat) : Forall (has_shape m n) (repeat (np_zeros m n) k).
Proof.
  apply Forall_forall. intros g Hg. apply repeat_spec in Hg. subst g.
  unfold np_zeros. split; [apply repeat_length|].
  apply Forall_forall. intros r Hr. apply repeat_spec in Hr. subst r.
  apply repeat_length.
Qed.

(** An entry found in the dictionary built by [make_fields] is the grid at
    its position, under the column index of that position. *)
Lemma make_fields_lookup (k0 : nat) (names units : list string) (grids : list array2d)
      (key : string) (k : nat) (g : array2d) (u : string) :
  dict_get (make_fields k0 names units grids) key = ok (k, g, u) ->
  exists j, k = (k0 + j)%nat /\ nth_error grids j = Some g /\
            nth_error names j = Some key /\ nth_error units j = Some u.
Proof.
  revert k0 units grids.
  induction names as [|n names IH]; intros k0 [|u0 units] [|g0 grids] H;
    cbn [make_fields dict_get] in H; try discriminate.
  destruct (String.eqb_spec key n) as [->|Hne].
  - injection H as <- <- <-. exists 0%nat. rewrite Nat.add_0_r. now repeat split.
  - destruct (IH (S k0) units grids H) as [j [Hk [Hg [Hn Hu]]]].
    exists (S j). rewrite Nat.add_succ_r. now repeat split.
Qed.

(** X3.  In a constructed table every entry of the [fields] dictionary is
    one of the eight entries the source writes, with its column index and
    unit label, and its grid has one row per unique temperature and one
    column per unique pressure. *)
Theorem field_entry_shape (tbl : list row) (self : SeismicLookupTable)
        (name : string) (k : nat) (g : array2d) (u : string) :
  __init__ tbl = ok self ->
  lookup_field self name = ok (k, g, u) ->
  In (lower name, k, u) registry /\
  has_shape (n_uniq_t self) (n_uniq_p self) g.
Proof.
  intros Hinit Hlook.
  destruct (init_inv tbl self Hinit) as [tmx [tmn [pmx [pmn [grids [_ [_ [_ [_ [Hloop ->]]]]]]]]]].
  unfold lookup_field in Hlook. cbn [fields n_uniq_t n_uniq_p] in *.
  destruct (fill_loop_shape _ _ (length (np_unique (map pressure tbl))) _ _ _ Hloop
              (zeros_shape _ _ 8)) as [Hlen Hsh].
  destruct (make_fields_lookup _ _ _ _ _ _ _ _ Hlook) as [j [Hk [Hg [Hn Hu]]]].
  split.
  - subst k. unfold field_names in Hn. unfold field_units in Hu. unfold registry.
    do 8 (destruct j as [|j];
          [cbn in Hn, Hu; injection Hn as <-; injection Hu as <-; cbn; auto 10|]).
    now destruct j.
  - rewrite Forall_forall in Hsh. apply Hsh. eapply nth_error_In; eauto.
Qed.

(** Witness for X3: the density entry of the worked table. *)
Lemma field_entry_shape_witness :
  exists g,
    lookup_field sample_self "Density" = ok (7%nat, g, "$kg/m^3$"%string) /\
    has_shape 3 3 g.
Proof.
  eexists. split; [vm_compute; reflexivity|].
  apply (field_entry_shape sample_table sample_self "Density" 7 _ "$kg/m^3$").
  - vm_compute; reflexivity.
  - vm_compute; reflexivity.
Defined.

Lemma set_column_get2 (m n : nat) (g g' : array2d) (i : nat) (v : list Q) :
  has_shape m n g -> length v = m -> (i < n)%nat ->
  set_column g i v = ok g' ->
  forall b a, (b < m)%nat ->
    get2 g' b a = if Nat.eqb a i then nth_error v b else get2 g b a.
Proof.
  intros [Hm Hn] Hv Hi H b a Hb. unfold set_column in H.
  rewrite Hv, Hm, Nat.eqb_refl in H. injection H as <-.
  unfold get2. rewrite nth_error_set_column_zip.
  destruct (nth_error g b) as [r|] eqn:Er; [|apply nth_error_None in Er; lia].
  destruct (nth_error v b) as [x|] eqn:Ex; [|apply nth_error_None in Ex; lia].
  assert (Hr : length r = n)
    by (rewrite Forall_forall in Hn; apply Hn; eapply nth_error_In; eauto).
  destruct (Nat.eqb_spec a i) as [->|Hne].
  - apply nth_error_set_nth_eq. lia.
  - apply nth_error_set_nth_neq. congruence.
Qed.

Lemma py_slice_nth (tbl : list row) (m i b : nat) :
  (b < m)%nat ->
  nth_error (py_slice tbl (0 + i * m) (m + i * m)) b = nth_error tbl (i * m + b).
Proof.
  intros Hb. unfold py_slice.
  replace (m + i * m - (0 + i * m))%nat with m by lia.
  rewrite nth_error_firstn, nth_error_skipn.
  destruct (Nat.ltb_spec b m); [reflexivity|lia].
Qed.

(** The filling loop writes block [a] of the table into column [a] of every
    grid, and leaves the columns written before untouched. *)
Lemma fill_loop_content (tbl : list row) (m n : nat) (range : list nat) :
  forall (done : list nat) (grids grids' : list array2d),
    fill_loop tbl m range grids = ok grids' ->
    Forall (has_shape m n) grids ->
    (forall i, In i range ->
       (i < n)%nat /\ ~ In i done /\
       length (py_slice tbl (0 + i * m) (m + i * m)) = m) ->
    NoDup range ->
    (forall j g, nth_error grids j = Some g ->
       forall a b, In a done -> (b < m)%nat ->
         get2 g b a = option_map (column (2 + j)) (nth_error tbl (a * m + b))) ->
    forall j g', nth_error grids' j = Some g' ->
      forall a b, In a done \/ In a range -> (b < m)%nat ->
        get2 g' b a = option_map (column (2 + j)) (nth_error tbl (a * m + b)).
Proof.
  induction range as [|i range IH]; intros done grids grids' H Hsh Hrange Hnd Hinv;
    cbn [fill_loop] in H.
  - injection H as <-. intros j g' Hj a b [Ha|[]] Hb. now apply (Hinv j g').
  - destruct (fill_block tbl m i 2 grids) as [|gs] eqn:E; [discriminate|].
    cbn [rbind] in H. destruct (fill_block_nth _ _ _ _ _ _ E) as [Hlen Hnth].
    destruct (Hrange i (or_introl eq_refl)) as [Hi [Hnew Hfull]].
    assert (Hstep : forall j g1, nth_error gs j = Some g1 ->
               has_shape m n g1 /\
               forall a b, In a (i :: done) -> (b < m)%nat ->
                 get2 g1 b a = option_map (column (2 + j)) (nth_error tbl (a * m + b))).
    { intros j g1 Hj. destruct (Hnth j g1 Hj) as [g [Hg Hset]].
      assert (Hg_sh : has_shape m n g)
        by (rewrite Forall_forall in Hsh; apply Hsh; eapply nth_error_In; eauto).
      split; [refine (set_column_shape m n g g1 i _ Hg_sh Hset)|].
      intros a b Ha Hb.
      rewrite (set_column_get2 m n g g1 i
                 (map (column (2 + j)) (py_slice tbl (0 + i * m) (m + i * m))) Hg_sh)
        with (b := b) (a := a);
        [|now rewrite length_map|exact Hi|exact Hset|exact Hb].
      destruct (Nat.eqb_spec a i) as [->|Hne].
      - now rewrite nth_error_map, py_slice_nth.
      - destruct Ha as [Ha|Ha]; [congruence|]. now apply (Hinv j g). }
    intros j g' Hj a b Ha Hb.
    apply (IH (i :: done) gs grids' H) with (j := j) (g' := g'); try assumption.
    + apply Forall_forall. intros g1 Hg1. apply In_nth_error in Hg1.
      destruct Hg1 as [j1 Hj1]. exact (proj1 (Hstep j1 g1 Hj1)).
    + intros i' Hi'. destruct (Hrange i' (or_intror Hi')) as [H1 [H2 H3]].
      split; [exact H1|]. split; [|exact H3].
      intros [->|Hin]; [|contradiction]. inversion Hnd. contradiction.
    + now inversion Hnd.
    + intros j1 g1 Hj1. exact (proj2 (Hstep j1 g1 Hj1)).
    + destruct Ha as [Ha|[->|Ha]]; [left; now right | left; now left | now right].
Qed.

(** The grids that [__init__] stores hold the table columns, block by
    block. *)
Lemma field_grid_content (tbl : list row) (self : SeismicLookupTable)
        (name : string) (k : nat) (g : array2d) (u : string) (a b : nat) (r : row) :
  valid_table tbl = true ->
  __init__ tbl = ok self ->
  lookup_field self name = ok (k, g, u) ->
  (b < length (np_unique (map temperature tbl)))%nat ->
  nth_error tbl (a * length (np_unique (map temperature tbl)) + b) = Some r ->
  get2 g b a = Some (column k r).
Proof.
  intros Hvalid Hinit Hlook Hb Hr.
  destruct (init_inv tbl self Hinit) as [tmx [tmn [pmx [pmn [grids [_ [_ [_ [_ [Hloop ->]]]]]]]]]].
  unfold lookup_field in Hlook. cbn [fields] in *.
  destruct (make_fields_lookup _ _ _ _ _ _ _ _ Hlook) as [j [Hk [Hg _]]]. subst k.
  pose proof (grid_length tbl Hvalid) as Hlen.
  assert (Hidx : (a * length (np_unique (map temperature tbl)) + b < length tbl)%nat)
    by (apply nth_error_Some; congruence).
  assert (Ha : (a < length (np_unique (map pressure tbl)))%nat) by nia.
  rewrite (fill_loop_content tbl _ (length (np_unique (map pressure tbl))) _ [] _ _ Hloop
             (zeros_shape _ _ 8)) with (j := j) (a := a) (b := b); try assumption.
  - now rewrite Hr.
  - intros i Hi. apply in_seq in Hi. split; [lia|]. split; [easy|].
    unfold py_slice. rewrite length_firstn, length_skipn, Hlen. nia.
  - apply seq_NoDup.
  - intros j0 g0 _ a0 b0 [].
  - right. apply in_seq. lia.
Qed.

(** X4.  On a valid table the grid of every field is the reshaped table
    column whose index its dictionary entry records: the entry at
    temperature index [b] and pressure index [a] of the grid is the sample
    that row [a * pstep + b] stores in that column. *)
Theorem field_grid_reshape (tbl : list row) (self : SeismicLookupTable)
        (name : string) (k : nat) (g : array2d) (u : string) (a b : nat) (r : row) :
  valid_table tbl = true ->
  __init__ tbl = ok self ->
  lookup_field self name = ok (k, g, u) ->
  (b < pstep self)%nat ->
  nth_error (table self) (a * pstep self + b) = Some r ->
  get2 g b a = Some (column k r).
Proof.
  intros Hvalid Hinit Hlook Hb Hr.
  destruct (init_attributes tbl self Hinit) as [Htbl [_ [_ Hstep]]].
  rewrite Htbl, Hstep in Hr. rewrite Hstep in Hb.
  exact (field_grid_content tbl self name k g u a b r Hvalid Hinit Hlook Hb Hr).
Qed.

(** Witness for X4: the vs grid of the worked table at temperature index 1
    and pressure index 2 holds the vs sample of row 7. *)
Lemma field_grid_reshape_witness :
  exists g,
    lookup_field sample_self "vs" = ok (3%nat, g, "km/s"%string) /\
    get2 g 1 2 = Some (34#10).
Proof.
  eexists. split; [vm_compute; reflexivity|].
  apply (field_grid_reshape sample_table sample_self "vs" 3 _ "km/s" 2 1
           (mkRow 3 200 8 (34#10) (81#10) (35#10) (37#10) 3370 170 1570)).
  - vm_compute; reflexivity.
  - vm_compute; reflexivity.
  - vm_compute; reflexivity.
  - vm_compute; lia.
  - reflexivity.
Defined.

(** ** The bounds of an interior query *)

Lemma Qabs_cases (x : Q) : (0 <= x /\ Qabs x == x) \/ (x <= 0 /\ Qabs x == - x).
Proof.
  destruct (Qlt_le_dec x 0) as [H|H].
  - right. split; [lra|]. apply Qabs_neg. lra.
  - left. split; [exact H|]. now apply Qabs_pos.
Qed.




(** ** The bounds of a query on the minimum edge *)

Lemma py_index_wrap {A : Type} (l : list A) (s : nat) (a : A) :
  (0 < s <= length l)%nat ->
  nth_error l (length l - s) = Some a ->
  py_index l (Z.of_nat 0 - Z.of_nat s) = ok a.
Proof.
  intros Hs Ha. unfold py_index.
  replace (Z.of_nat 0 - Z.of_nat s <? 0)%Z with true by (symmetry; apply Z.ltb_lt; lia).
  replace (Z.of_nat 0 - Z.of_nat s + Z.of_nat (length l))%Z
    with (Z.of_nat (length l - s)) by lia.
  replace ((0 <=? Z.of_nat (length l - s)) && (Z.of_nat (length l - s) <? Z.of_nat (length l)))%Z
    with true by (symmetry; apply andb_true_iff; split; [apply Z.leb_le|apply Z.ltb_lt]; lia).
  now rewrite Nat2Z.id, Ha.
Qed.

Lemma increasing_last_max (ax : list Q) (y mx : Q) :
  increasing ax -> nth_error ax (length ax - 1) = Some y ->
  np_max ax = ok mx -> mx == y.
Proof.
  intros Hinc Hy Hmx.
  assert (Hne : ax <> []) by (destruct ax; [simpl in Hy; discriminate|easy]).
  destruct (np_max_spec ax Hne) as [m [Em [Hin Hub]]].
  assert (m = mx) by (unfold ok in *; congruence). subst m.
  pose proof (Hub y (nth_error_In _ _ Hy)) as Hle.
  apply In_nth_error in Hin. destruct Hin as [j Hj].
  assert (Hjl : (j < length ax)%nat) by (apply nth_error_Some; congruence).
  destruct (Nat.eq_dec j (length ax - 1)) as [->|Hne'].
  - rewrite Hy in Hj. injection Hj as <-. reflexivity.
  - assert (Hlt : (j < length ax - 1)%nat) by lia.
    pose proof (Hinc _ _ _ _ Hlt Hj Hy). lra.
Qed.

Lemma increasing_first_min (ax : list Q) (k : nat) (y mn : Q) :
  increasing ax -> nth_error ax k = Some y ->
  (forall x, In x ax -> mn <= x) -> y == mn -> k = 0%nat.
Proof.
  intros Hinc Hk Hlb Hy. destruct k as [|k]; [reflexivity|].
  destruct (nth_error ax 0) as [x|] eqn:E0.
  - pose proof (Hinc 0%nat (S k) x y (Nat.lt_0_succ k) E0 Hk).
    pose proof (Hlb x (nth_error_In _ _ E0)). lra.
  - apply nth_error_None in E0.
    assert (S k < length ax)%nat by (apply nth_error_Some; congruence). lia.
Qed.

(** At the minimum of the column the nearest entry is entry 0 and is not
    below the value, so the low bound is read at index [0 - stride], which
    Python counts from the end of the column. *)
Lemma find_bounds_at_minimum (col ax : list Q) (stride : nat) (first : nat -> nat)
      (less exceeds : line) (val mn : Q) :
  laid_out col ax stride first -> first 0%nat = 0%nat ->
  np_min col = ok mn -> val == mn ->
  exists lo hi,
    find_bounds col stride less exceeds val = ([], ok (lo, hi)) /\
    hi == val /\ nth_error col (length col - stride) = Some lo.
Proof.
  intros [H1 [H2 [H3 [H4 H5]]]] Hf0 Hmn Hval.
  assert (Hne : col <> []) by (destruct col; [simpl in H5; lia|easy]).
  destruct (np_min_spec col Hne) as [m [Em [Hmin Hlb]]].
  assert (m = mn) by (unfold ok in *; congruence). subst m.
  destruct (np_max_spec col Hne) as [mx [Emx [Hmxin Hub]]].
  destruct (find_bounds_inside col stride less exceeds val mn mx Hmn Emx)
    as [i [here [Hfn Hfb]]].
  { split; [lra|]. pose proof (Hub mn Hmin). lra. }
  assert (Hhere : here == val).
  { destruct Hfn as [_ [Hnear _]]. pose proof (Hnear mn Hmin) as Hd.
    destruct (Qabs_cases (here - val)) as [[? E1]|[? E1]];
      destruct (Qabs_cases (mn - val)) as [[? E2]|[? E2]]; lra. }
  destruct (first_nearest_axis col ax stride first H2 H3 H4 H5 val i here Hfn)
    as [k [y [Hi [Hy [Hk _]]]]].
  assert (k = 0%nat).
  { apply (increasing_first_min ax k y mn H1 Hk); [|lra].
    intros x Hx. destruct (In_axis_col col ax first H3 x Hx) as [x' [Hx' Hxx]].
    pose proof (Hlb x' Hx'). lra. }
  subst k. rewrite Hf0 in Hi. subst i.
  replace (Qltb (here - val) 0) with false in Hfb by (symmetry; apply Qltb_false; lra).
  destruct (nth_error col (length col - stride)) as [lo|] eqn:Elo;
    [|apply nth_error_None in Elo; lia].
  exists lo, here. split; [|split; [exact Hhere|reflexivity]].
  rewrite Hfb, (py_index_wrap col stride lo H5 Elo). reflexivity.
Qed.

(** X6.  On a valid table a query exactly at the minimum pressure gets the
    minimum as its high bound and the maximum pressure as its low bound: the
    low bound is read [pstep] rows before row 0, an index that counts from
    the end of the table.  Likewise a query exactly at the minimum
    temperature gets the maximum temperature as its low bound.  Nothing is
    printed in either search. *)
Theorem minimum_edge_bounds (tbl : list row) (self : SeismicLookupTable) :
  valid_table tbl = true ->
  __init__ tbl = ok self ->
  (exists lo hi,
     find_bounds (map pressure (table self)) (pstep self)
       (PressureLess (p_min self)) (PressureExceeds (p_min self)) (p_min self) =
     ([], ok (lo, hi)) /\ lo == p_max self /\ hi == p_min self) /\
  (exists lo hi,
     find_bounds (map temperature (table self)) 1
       (TemperatureLess (t_min self)) (TemperatureExceeds (t_min self)) (t_min self) =
     ([], ok (lo, hi)) /\ lo == t_max self /\ hi == t_min self).
Proof.
  intros Hvalid Hinit.
  destruct (init_range tbl self Hinit) as [Hpmin [Hpmax [Htmin Htmax]]].
  destruct (init_attributes tbl self Hinit) as [-> [_ [_ ->]]].
  destruct (column_range _ _ _ Hpmin Hpmax) as [pmn [pmx [Hp1 [Hp2 [Hp3 [Hp4 Hp5]]]]]].
  destruct (column_range _ _ _ Htmin Htmax) as [tmn [tmx [Ht1 [Ht2 [Ht3 [Ht4 Ht5]]]]]].
  pose proof (grid_length tbl Hvalid) as Hlen.
  destruct (grid_nonempty tbl Hvalid) as [Hn Hm].
  set (n := length (np_unique (map pressure tbl))) in *.
  set (m := length (np_unique (map temperature tbl))) in *.
  split.
  - destruct (find_bounds_at_minimum _ _ _ _ (PressureLess (p_min self))
                (PressureExceeds (p_min self)) (p_min self) pmn
                (pressure_laid_out tbl Hvalid) eq_refl Hp1 Hp3)
      as [lo [hi [Hfb [Hhi Hlo]]]].
    exists lo, hi. split; [exact Hfb|]. split; [|exact Hhi].
    rewrite nth_error_map in Hlo.
    change (length (np_unique (map temperature tbl))) with m in Hlo.
    destruct (nth_error tbl (length (map pressure tbl) - m)) as [r|] eqn:Er;
      [|discriminate].
    cbn [option_map] in Hlo. injection Hlo as <-.
    destruct (grid_row tbl Hvalid _ r Er) as [p [t [Hp [_ [Hrp _]]]]].
    fold m in Hp. rewrite length_map, Hlen in Hp.
    replace (n * m - m)%nat with ((n - 1) * m)%nat in Hp by nia.
    rewrite Nat.div_mul in Hp by lia.
    pose proof (increasing_last_max _ p (p_max self) (np_unique_increasing _) Hp Hpmax).
    lra.
  - destruct (find_bounds_at_minimum _ _ _ _ (TemperatureLess (t_min self))
                (TemperatureExceeds (t_min self)) (t_min self) tmn
                (temperature_laid_out tbl Hvalid) eq_refl Ht1 Ht3)
      as [lo [hi [Hfb [Hhi Hlo]]]].
    exists lo, hi. split; [exact Hfb|]. split; [|exact Hhi].
    rewrite nth_error_map in Hlo.
    destruct (nth_error tbl (length (map temperature tbl) - 1)) as [r|] eqn:Er;
      [|discriminate].
    cbn [option_map] in Hlo. injection Hlo as <-.
    destruct (grid_row tbl Hvalid _ r Er) as [p [t [_ [Ht [_ Hrt]]]]].
    fold m in Ht. rewrite length_map, Hlen in Ht.
    replace (n * m - 1)%nat with ((m - 1) + (n - 1) * m)%nat in Ht by nia.
    rewrite Nat.Div0.mod_add, Nat.mod_small in Ht by lia.
    pose proof (increasing_last_max _ t (t_max self) (np_unique_increasing _) Ht Htmax).
    lra.
Qed.

(** Witness for X6: on the worked table the searches at 1 Pa and at 100 K
    return the bounds (3, 1) and (300, 100). *)
Lemma minimum_edge_bounds_witness :
  (exists lo hi,
     find_bounds (map pressure sample_table) 3
       (PressureLess 1) (PressureExceeds 1) 1 = ([], ok (lo, hi)) /\
     lo == 3 /\ hi == 1) /\
  (exists lo hi,
     find_bounds (map temperature sample_table) 1
       (TemperatureLess 100) (TemperatureExceeds 100) 100 = ([], ok (lo, hi)) /\
     lo == 300 /\ hi == 100).
Proof.
  exact (minimum_edge_bounds sample_table sample_self
           ltac:(vm_compute; reflexivity) ltac:(vm_compute; reflexivity)).
Defined.

(** ** Queries on a valid table *)


(** ** Queries at a node *)






(** ** interp_points on batches *)

Lemma zip_with_app (op : Q -> Q -> Q) (a1 a2 b1 b2 : list Q) :
  length a1 = length b1 ->
  zip_with op (a1 ++ a2) (b1 ++ b2) = zip_with op a1 b1 ++ zip_with op a2 b2.
Proof.
  revert b1. induction a1 as [|x a1 IH]; intros [|y b1] H; try discriminate.
  - reflexivity.
  - simpl. f_equal. apply IH. now injection H.
Qed.

(** X10.  [interp_points] treats the points of a batch independently: when
    two batches succeed and the first has as many temperatures as
    pressures, the call on the concatenated pressures and temperatures
    returns the concatenation of the two results. *)
Theorem interp_points_app
        (interp2d : list Q -> list Q -> array2d -> Q -> Q -> Q)
        (self : SeismicLookupTable) (field : string)
        (p1 p2 t1 t2 r1 r2 : list Q) :
  length p1 = length t1 ->
  snd (interp_points interp2d self (PySeq p1) (PySeq t1) field) = ok r1 ->
  snd (interp_points interp2d self (PySeq p2) (PySeq t2) field) = ok r2 ->
  snd (interp_points interp2d self (PySeq (p1 ++ p2)) (PySeq (t1 ++ t2)) field) =
  ok (r1 ++ r2).
Proof.
  intros Hlen H1 H2. unfold interp_points in *. cbn [snd promote py_len] in *.
  destruct (lookup_field self field) as [e|entry]; [discriminate|].
  rewrite rbind_ok in *.
  destruct (interp2d_fit (pres self) (temp self) (snd (fst entry))) as [e|[]];
    [discriminate|].
  rewrite !rbind_ok in *. rewrite points_loop_all in *.
  rewrite Hlen, Nat.leb_refl in H1.
  destruct (Nat.leb_spec (length p2) (length t2)) as [Hle|Hgt]; [|discriminate].
  replace (length (p1 ++ p2) <=? length (t1 ++ t2))%nat with true
    by (symmetry; apply Nat.leb_le; rewrite !length_app; lia).
  rewrite zip_with_app by exact Hlen.
  injection H1 as <-. injection H2 as <-. reflexivity.
Qed.

(** Witness for X10: two batches of one point each on the worked table. *)
Lemma interp_points_app_witness :
  snd (interp_points sum_interp2d sample_self (PySeq ([1] ++ [2])) (PySeq ([100] ++ [200]))
         "vs") = ok ([1 + 100] ++ [2 + 200]).
Proof.
  apply (interp_points_app sum_interp2d sample_self "vs" [1] [2] [100] [200]);
    reflexivity.
Defined.


(** ** The order of the anchors *)

Lemma SFcompare_antisym (x y : spec_float) :
  SFcompare y x = option_map CompOpp (SFcompare x y).
Proof.
  destruct x as [[]|[]| |[] m1 e1], y as [[]|[]| |[] m2 e2]; simpl; try reflexivity;
    rewrite (Z.compare_antisym e1 e2); destruct (e1 ?= e2)%Z; simpl; try reflexivity;
    rewrite (Pos.compare_cont_antisym m1 m2); simpl;
    now destruct (Pos.compare_cont Eq m1 m2).
Qed.

(** Of two distinct numbers exactly one is smaller. *)
Lemma exchanged_swap (c1 c2 : float) :
  is_nan c1 = false -> is_nan c2 = false -> (c1 =? c2)%float = false ->
  exchanged c2 c1 = negb (exchanged c1 c2).
Proof.
  intros H1 H2 Hne. unfold exchanged. rewrite H1, H2. cbn [andb negb].
  rewrite !orb_false_r.
  rewrite FloatAxioms.eqb_spec in Hne. rewrite !FloatAxioms.ltb_spec.
  unfold SFeqb in Hne. unfold SFltb.
  rewrite (SFcompare_antisym (Prim2SF c1) (Prim2SF c2)).
  assert (N1 : Prim2SF c1 <> S754_nan)
    by (intros E; apply is_nan_spec in E; congruence).
  assert (N2 : Prim2SF c2 <> S754_nan)
    by (intros E; apply is_nan_spec in E; congruence).
  destruct (SFcompare (Prim2SF c1) (Prim2SF c2)) as [[]|] eqn:E; try easy.
  destruct (Prim2SF c1), (Prim2SF c2); simpl in E; congruence.
Qed.

(** X14.  [linear_interp_1d] does not depend on the order in which two
    anchors at distinct compositions are given: exchanging the data of the
    two compositions together with their C-values leaves the outcome
    unchanged, values and errors alike. *)
Theorem linear_interp_1d_swap (vals1 vals2 : pyval) (c1 c2 cnew : float) :
  is_nan c1 = false -> is_nan c2 = false -> (c1 =? c2)%float = false ->
  linear_interp_1d vals1 vals2 c1 c2 cnew = linear_interp_1d vals2 vals1 c2 c1 cnew.
Proof.
  intros H1 H2 Hne. unfold linear_interp_1d.
  destruct (flatten vals1) as [e1|f1] eqn:E1; destruct (flatten vals2) as [e2|f2] eqn:E2;
    cbn [rbind].
  - destruct vals1, vals2; simpl in *; unfold raise, ok in *; congruence.
  - reflexivity.
  - reflexivity.
  - unfold interp1d_extrapolate. rewrite (Nat.eqb_sym (length f2) (length f1)).
    destruct (Nat.eqb (length f1) (length f2)); cbn [negb]; [|reflexivity].
    rewrite (exchanged_swap c1 c2 H1 H2 Hne).
    now destruct (exchanged c1 c2).
Qed.

(** Witness for X14: anchors at 0.25 and 0.75. *)
Lemma linear_interp_1d_swap_witness :
  linear_interp_1d (NdArray [4.3; 5]%float) (NdArray [0.1; 7]%float) 0.25 0.75 0.4 =
  linear_interp_1d (NdArray [0.1; 7]%float) (NdArray [4.3; 5]%float) 0.75 0.25 0.4.
Proof.
  apply (linear_interp_1d_swap (NdArray [4.3; 5]%float) (NdArray [0.1; 7]%float)
           0.25 0.75 0.4); reflexivity.
Defined.
